(** * Cinder camera geometry (src/cinder/Camera.cpp)

    A shallow embedding of the camera classes of Cinder: the base [Camera],
    [CameraPersp], [CameraOrtho] and [CameraStereo], with their lazily cached
    view and projection matrices.

    Numbers.  The C++ type [float] is read as the real numbers [R]: every
    arithmetic operation is exact, and [x / 0] is whatever [Rdiv] makes of
    it (no infinities, no NaN).  All statements below are therefore about
    the formulas the code evaluates, not about their rounding.

    State.  The [const] query methods of the source write the [mutable]
    cache fields; here each of them is a function from the camera to the
    camera after the call (paired with the value returned, when there is
    one).  An assignment to a field is a setter [set_<field>]; a function
    body is the sequence of its assignments, each one a local definition
    that shadows the camera.

    Classes.  [CameraPersp] and [CameraOrtho] contain a [Camera],
    [CameraStereo] contains a [CameraPersp]; the virtual functions are the
    methods of the type classes [CameraCalc] and [CameraVirtual], with one
    instance per concrete camera.

    The file has two parts: the embedding, then the properties. *)

From Stdlib Require Import Reals Lra List Bool.
Import ListNotations.
Open Scope R_scope.

(** ** Vectors, quaternions and matrices *)

Record vec2 : Type := Vec2 { x2 : R; y2 : R }.
Record vec3 : Type := Vec3 { vx : R; vy : R; vz : R }.
Record vec4 : Type := Vec4 { x4 : R; y4 : R; z4 : R; w4 : R }.

(** glm stores a quaternion as (w, x, y, z) in its constructor. *)
Record quat : Type := Quat { qw : R; qx : R; qy : R; qz : R }.

(** The four valid subscripts of a [vec4] or of a [mat4]. *)
Inductive idx : Type := I0 | I1 | I2 | I3.

Definition idx_eqb (i j : idx) : bool :=
  match i, j with
  | I0, I0 | I1, I1 | I2, I2 | I3, I3 => true
  | _, _ => false
  end.

Definition vget (v : vec4) (i : idx) : R :=
  match i with I0 => x4 v | I1 => y4 v | I2 => z4 v | I3 => w4 v end.

Definition vset (v : vec4) (i : idx) (a : R) : vec4 :=
  match i with
  | I0 => Vec4 a (y4 v) (z4 v) (w4 v)
  | I1 => Vec4 (x4 v) a (z4 v) (w4 v)
  | I2 => Vec4 (x4 v) (y4 v) a (w4 v)
  | I3 => Vec4 (x4 v) (y4 v) (z4 v) a
  end.

(** A [mat4] is an array of four columns: [m[c][r]] is column [c], row [r]. *)
Record mat4 : Type := Mat4 { col0 : vec4; col1 : vec4; col2 : vec4; col3 : vec4 }.

Definition mcol (m : mat4) (c : idx) : vec4 :=
  match c with I0 => col0 m | I1 => col1 m | I2 => col2 m | I3 => col3 m end.

Definition mget (m : mat4) (c r : idx) : R := vget (mcol m c) r.

Definition mset (m : mat4) (c r : idx) (a : R) : mat4 :=
  match c with
  | I0 => Mat4 (vset (col0 m) r a) (col1 m) (col2 m) (col3 m)
  | I1 => Mat4 (col0 m) (vset (col1 m) r a) (col2 m) (col3 m)
  | I2 => Mat4 (col0 m) (col1 m) (vset (col2 m) r a) (col3 m)
  | I3 => Mat4 (col0 m) (col1 m) (col2 m) (vset (col3 m) r a)
  end.

Declare Scope cam_scope.
Delimit Scope cam_scope with cam.
Open Scope cam_scope.

Notation "m .[ c , r ]" := (mget m c r)
  (at level 1, left associativity, format "m .[ c ,  r ]") : cam_scope.
Notation "m .[ c , r <- a ]" := (mset m c r a)
  (at level 1, left associativity, format "m .[ c ,  r  <-  a ]") : cam_scope.

Definition vadd (a b : vec3) : vec3 := Vec3 (vx a + vx b) (vy a + vy b) (vz a + vz b).
Definition vsub (a b : vec3) : vec3 := Vec3 (vx a - vx b) (vy a - vy b) (vz a - vz b).
Definition vneg (a : vec3) : vec3 := Vec3 (- vx a) (- vy a) (- vz a).

(** [scalar * vec] and [vec * scalar], as glm computes them. *)
Definition vscale (s : R) (a : vec3) : vec3 := Vec3 (s * vx a) (s * vy a) (s * vz a).
Definition vmuls (a : vec3) (s : R) : vec3 := Vec3 (vx a * s) (vy a * s) (vz a * s).

Infix "+^" := vadd (at level 50, left associativity) : cam_scope.
Infix "-^" := vsub (at level 50, left associativity) : cam_scope.
Infix "*^" := vscale (at level 40, left associativity) : cam_scope.
Infix "^*" := vmuls (at level 40, left associativity) : cam_scope.
Notation "-^ a" := (vneg a) (at level 35, right associativity) : cam_scope.

(** [vec4( v, w )] *)
Definition vec4_of (v : vec3) (w : R) : vec4 := Vec4 (vx v) (vy v) (vz v) w.

(** [vec3( v4 )] *)
Definition vec3_of (v : vec4) : vec3 := Vec3 (x4 v) (y4 v) (z4 v).

(** ** The part of glm the camera uses

    glm is vendored and not part of the camera source; its functions are
    written here as the library computes them, over [R]. *)

Module glm.

(** Modelled from the spec: glm's [dot] on vec3 (section 6, "dot"). *)
Definition dot (a b : vec3) : R := vx a * vx b + vy a * vy b + vz a * vz b.

(** Modelled from the spec: glm's [cross] on vec3 (section 6, "cross"). *)
Definition cross (a b : vec3) : vec3 :=
  Vec3 (vy a * vz b - vy b * vz a)
       (vz a * vx b - vz b * vx a)
       (vx a * vy b - vx b * vy a).

(** Modelled from the spec: glm's [length] on vec3. *)
Definition length (a : vec3) : R := sqrt (dot a a).

(** Modelled from the spec: glm's [length2] on vec3. *)
Definition length2 (a : vec3) : R := dot a a.

(** Modelled from the spec: glm's [distance] on vec3. *)
Definition distance (a b : vec3) : R := length (b -^ a).

(** Modelled from the spec: glm's [normalize] on vec3 (section 6,
    "normalize"): the vector times the inverse square root of its
    squared length, with no test for a zero vector. *)
Definition normalize (a : vec3) : vec3 := a ^* (/ sqrt (dot a a)).

Definition qdot (p q : quat) : R :=
  qw p * qw q + qx p * qx q + qy p * qy q + qz p * qz q.

(** Modelled from the spec: glm's [normalize] on quaternions; glm returns
    the identity quaternion when the length is not positive. *)
Definition qnormalize (q : quat) : quat :=
  let len := sqrt (qdot q q) in
  if Rle_dec len 0 then Quat 1 0 0 0
  else let oneOverLen := 1 / len in
       Quat (qw q * oneOverLen) (qx q * oneOverLen)
            (qy q * oneOverLen) (qz q * oneOverLen).

(** Modelled from the spec: glm's [rotate( quat, vec3 )] (section 6,
    "quaternion-vector rotation"), which is [q * v]:
    [v + ((cross(qv, v) * q.w) + cross(qv, cross(qv, v))) * 2]. *)
Definition rotate (q : quat) (v : vec3) : vec3 :=
  let QuatVector := Vec3 (qx q) (qy q) (qz q) in
  let uv := cross QuatVector v in
  let uuv := cross QuatVector uv in
  v +^ (((uv ^* qw q) +^ uuv) ^* 2).

(** [epsilon<float>()], the machine epsilon of binary32. *)
Definition epsilon : R := / 8388608.

(** Modelled from the spec: glm's [angleAxis( angle, axis )]. *)
Definition angleAxis (angle : R) (v : vec3) : quat :=
  let s := sin (angle * 0.5) in
  Quat (cos (angle * 0.5)) (vx v * s) (vy v * s) (vz v * s).

(** Modelled from the spec: glm's [rotation( orig, dest )] (section 4.1,
    "the rotation that maps viewDirection onto (0,0,-1)"): the shortest
    arc rotation taking the unit vector [orig] to the unit vector [dest],
    with glm's two special cases for parallel and opposite vectors. *)
Definition rotation (orig dest : vec3) : quat :=
  let cosTheta := dot orig dest in
  if Rge_dec cosTheta (1 - epsilon) then Quat 1 0 0 0
  else if Rlt_dec cosTheta (-1 + epsilon) then
    let rotationAxis := cross (Vec3 0 0 1) orig in
    let rotationAxis :=
      if Rlt_dec (length2 rotationAxis) epsilon
      then cross (Vec3 1 0 0) orig else rotationAxis in
    angleAxis PI (normalize rotationAxis)
  else
    let rotationAxis := cross orig dest in
    let s := sqrt ((1 + cosTheta) * 2) in
    let invs := 1 / s in
    Quat (s * 0.5) (vx rotationAxis * invs)
         (vy rotationAxis * invs) (vz rotationAxis * invs).

(** Modelled from the spec: glm's [mat4 * vec4], summed in glm's order. *)
Definition mul_m4_v4 (m : mat4) (v : vec4) : vec4 :=
  let row r :=
    (m.[I0, r] * x4 v + m.[I1, r] * y4 v) + (m.[I2, r] * z4 v + m.[I3, r] * w4 v) in
  Vec4 (row I0) (row I1) (row I2) (row I3).

(** Modelled from the spec: glm's [row( m, i )] (section 6, "matrix row
    extraction"). *)
Definition row (m : mat4) (r : idx) : vec4 :=
  Vec4 m.[I0, r] m.[I1, r] m.[I2, r] m.[I3, r].

End glm.

(** ** Helpers of cinder/CinderMath.h *)

(** Modelled from the spec: [toRadians], degrees to radians (section 4.1,
    "fov_in_radians"). *)
Definition toRadians (x : R) : R := x * (PI / 180).

(** Modelled from the spec: [toDegrees], radians to degrees. *)
Definition toDegrees (x : R) : R := x * (180 / PI).

(** Modelled from the spec: [ci::lerp] (section 6, "vector/scalar lerp"):
    [a + (b - a) * factor]. *)
Definition lerp (a b factor : R) : R := a + (b - a) * factor.

(** The constant [M_PI] of the C library. *)
Definition M_PI : R := PI.

(** ** The base class [Camera]

    The fields of [Camera], as Camera.cpp reads and writes them.  The three
    [...Cached] flags guard the lazily computed matrices; [mU], [mV], [mW]
    are the camera basis computed with the view matrix. *)

Record Camera : Type := Build_Camera {
  mEyePoint : vec3;
  mViewDirection : vec3;
  mOrientation : quat;
  mCenterOfInterest : R;
  mWorldUp : vec3;
  mFov : R;
  mAspectRatio : R;
  mNearClip : R;
  mFarClip : R;
  mU : vec3;
  mV : vec3;
  mW : vec3;
  mProjectionMatrix : mat4;
  mInverseProjectionMatrix : mat4;
  mProjectionCached : bool;
  mViewMatrix : mat4;
  mModelViewCached : bool;
  mInverseModelViewMatrix : mat4;
  mInverseModelViewCached : bool;
  mFrustumLeft : R;
  mFrustumRight : R;
  mFrustumTop : R;
  mFrustumBottom : R
}.

Definition set_mEyePoint (a : vec3) (c : Camera) : Camera :=
  {| mEyePoint := a; mViewDirection := mViewDirection c;
     mOrientation := mOrientation c; mCenterOfInterest := mCenterOfInterest c;
     mWorldUp := mWorldUp c; mFov := mFov c; mAspectRatio := mAspectRatio c;
     mNearClip := mNearClip c; mFarClip := mFarClip c; mU := mU c; mV := mV c;
     mW := mW c; mProjectionMatrix := mProjectionMatrix c;
     mInverseProjectionMatrix := mInverseProjectionMatrix c;
     mProjectionCached := mProjectionCached c; mViewMatrix := mViewMatrix c;
     mModelViewCached := mModelViewCached c;
     mInverseModelViewMatrix := mInverseModelViewMatrix c;
     mInverseModelViewCached := mInverseModelViewCached c;
     mFrustumLeft := mFrustumLeft c; mFrustumRight := mFrustumRight c;
     mFrustumTop := mFrustumTop c; mFrustumBottom := mFrustumBottom c |}.

Definition set_mViewDirection (a : vec3) (c : Camera) : Camera :=
  {| mEyePoint := mEyePoint c; mViewDirection := a; mOrientation := mOrientation c;
     mCenterOfInterest := mCenterOfInterest c; mWorldUp := mWorldUp c; mFov := mFov c;
     mAspectRatio := mAspectRatio c; mNearClip := mNearClip c; mFarClip := mFarClip c;
     mU := mU c; mV := mV c; mW := mW c; mProjectionMatrix := mProjectionMatrix c;
     mInverseProjectionMatrix := mInverseProjectionMatrix c;
     mProjectionCached := mProjectionCached c; mViewMatrix := mViewMatrix c;
     mModelViewCached := mModelViewCached c;
     mInverseModelViewMatrix := mInverseModelViewMatrix c;
     mInverseModelViewCached := mInverseModelViewCached c;
     mFrustumLeft := mFrustumLeft c; mFrustumRight := mFrustumRight c;
     mFrustumTop := mFrustumTop c; mFrustumBottom := mFrustumBottom c |}.

Definition set_mOrientation (a : quat) (c : Camera) : Camera :=
  {| mEyePoint := mEyePoint c; mViewDirection := mViewDirection c; mOrientation := a;
     mCenterOfInterest := mCenterOfInterest c; mWorldUp := mWorldUp c; mFov := mFov c;
     mAspectRatio := mAspectRatio c; mNearClip := mNearClip c; mFarClip := mFarClip c;
     mU := mU c; mV := mV c; mW := mW c; mProjectionMatrix := mProjectionMatrix c;
     mInverseProjectionMatrix := mInverseProjectionMatrix c;
     mProjectionCached := mProjectionCached c; mViewMatrix := mViewMatrix c;
     mModelViewCached := mModelViewCached c;
     mInverseModelViewMatrix := mInverseModelViewMatrix c;
     mInverseModelViewCached := mInverseModelViewCached c;
     mFrustumLeft := mFrustumLeft c; mFrustumRight := mFrustumRight c;
     mFrustumTop := mFrustumTop c; mFrustumBottom := mFrustumBottom c |}.

Definition set_mCenterOfInterest (a : R) (c : Camera) : Camera :=
  {| mEyePoint := mEyePoint c; mViewDirection := mViewDirection c;
     mOrientation := mOrientation c; mCenterOfInterest := a; mWorldUp := mWorldUp c;
     mFov := mFov c; mAspectRatio := mAspectRatio c; mNearClip := mNearClip c;
     mFarClip := mFarClip c; mU := mU c; mV := mV c; mW := mW c;
     mProjectionMatrix := mProjectionMatrix c;
     mInverseProjectionMatrix := mInverseProjectionMatrix c;
     mProjectionCached := mProjectionCached c; mViewMatrix := mViewMatrix c;
     mModelViewCached := mModelViewCached c;
     mInverseModelViewMatrix := mInverseModelViewMatrix c;
     mInverseModelViewCached := mInverseModelViewCached c;
     mFrustumLeft := mFrustumLeft c; mFrustumRight := mFrustumRight c;
     mFrustumTop := mFrustumTop c; mFrustumBottom := mFrustumBottom c |}.

Definition set_mWorldUp (a : vec3) (c : Camera) : Camera :=
  {| mEyePoint := mEyePoint c; mViewDirection := mViewDirection c;
     mOrientation := mOrientation c; mCenterOfInterest := mCenterOfInterest c;
     mWorldUp := a; mFov := mFov c; mAspectRatio := mAspectRatio c;
     mNearClip := mNearClip c; mFarClip := mFarClip c; mU := mU c; mV := mV c;
     mW := mW c; mProjectionMatrix := mProjectionMatrix c;
     mInverseProjectionMatrix := mInverseProjectionMatrix c;
     mProjectionCached := mProjectionCached c; mViewMatrix := mViewMatrix c;
     mModelViewCached := mModelViewCached c;
     mInverseModelViewMatrix := mInverseModelViewMatrix c;
     mInverseModelViewCached := mInverseModelViewCached c;
     mFrustumLeft := mFrustumLeft c; mFrustumRight := mFrustumRight c;
     mFrustumTop := mFrustumTop c; mFrustumBottom := mFrustumBottom c |}.

Definition set_mFov (a : R) (c : Camera) : Camera :=
  {| mEyePoint := mEyePoint c; mViewDirection := mViewDirection c;
     mOrientation := mOrientation c; mCenterOfInterest := mCenterOfInterest c;
     mWorldUp := mWorldUp c; mFov := a; mAspectRatio := mAspectRatio c;
     mNearClip := mNearClip c; mFarClip := mFarClip c; mU := mU c; mV := mV c;
     mW := mW c; mProjectionMatrix := mProjectionMatrix c;
     mInverseProjectionMatrix := mInverseProjectionMatrix c;
     mProjectionCached := mProjectionCached c; mViewMatrix := mViewMatrix c;
     mModelViewCached := mModelViewCached c;
     mInverseModelViewMatrix := mInverseModelViewMatrix c;
     mInverseModelViewCached := mInverseModelViewCached c;
     mFrustumLeft := mFrustumLeft c; mFrustumRight := mFrustumRight c;
     mFrustumTop := mFrustumTop c; mFrustumBottom := mFrustumBottom c |}.

Definition set_mAspectRatio (a : R) (c : Camera) : Camera :=
  {| mEyePoint := mEyePoint c; mViewDirection := mViewDirection c;
     mOrientation := mOrientation c; mCenterOfInterest := mCenterOfInterest c;
     mWorldUp := mWorldUp c; mFov := mFov c; mAspectRatio := a;
     mNearClip := mNearClip c; mFarClip := mFarClip c; mU := mU c; mV := mV c;
     mW := mW c; mProjectionMatrix := mProjectionMatrix c;
     mInverseProjectionMatrix := mInverseProjectionMatrix c;
     mProjectionCached := mProjectionCached c; mViewMatrix := mViewMatrix c;
     mModelViewCached := mModelViewCached c;
     mInverseModelViewMatrix := mInverseModelViewMatrix c;
     mInverseModelViewCached := mInverseModelViewCached c;
     mFrustumLeft := mFrustumLeft c; mFrustumRight := mFrustumRight c;
     mFrustumTop := mFrustumTop c; mFrustumBottom := mFrustumBottom c |}.

Definition set_mNearClip (a : R) (c : Camera) : Camera :=
  {| mEyePoint := mEyePoint c; mViewDirection := mViewDirection c;
     mOrientation := mOrientation c; mCenterOfInterest := mCenterOfInterest c;
     mWorldUp := mWorldUp c; mFov := mFov c; mAspectRatio := mAspectRatio c;
     mNearClip := a; mFarClip := mFarClip c; mU := mU c; mV := mV c; mW := mW c;
     mProjectionMatrix := mProjectionMatrix c;
     mInverseProjectionMatrix := mInverseProjectionMatrix c;
     mProjectionCached := mProjectionCached c; mViewMatrix := mViewMatrix c;
     mModelViewCached := mModelViewCached c;
     mInverseModelViewMatrix := mInverseModelViewMatrix c;
     mInverseModelViewCached := mInverseModelViewCached c;
     mFrustumLeft := mFrustumLeft c; mFrustumRight := mFrustumRight c;
     mFrustumTop := mFrustumTop c; mFrustumBottom := mFrustumBottom c |}.

Definition set_mFarClip (a : R) (c : Camera) : Camera :=
  {| mEyePoint := mEyePoint c; mViewDirection := mViewDirection c;
     mOrientation := mOrientation c; mCenterOfInterest := mCenterOfInterest c;
     mWorldUp := mWorldUp c; mFov := mFov c; mAspectRatio := mAspectRatio c;
     mNearClip := mNearClip c; mFarClip := a; mU := mU c; mV := mV c; mW := mW c;
     mProjectionMatrix := mProjectionMatrix c;
     mInverseProjectionMatrix := mInverseProjectionMatrix c;
     mProjectionCached := mProjectionCached c; mViewMatrix := mViewMatrix c;
     mModelViewCached := mModelViewCached c;
     mInverseModelViewMatrix := mInverseModelViewMatrix c;
     mInverseModelViewCached := mInverseModelViewCached c;
     mFrustumLeft := mFrustumLeft c; mFrustumRight := mFrustumRight c;
     mFrustumTop := mFrustumTop c; mFrustumBottom := mFrustumBottom c |}.

Definition set_mU (a : vec3) (c : Camera) : Camera :=
  {| mEyePoint := mEyePoint c; mViewDirection := mViewDirection c;
     mOrientation := mOrientation c; mCenterOfInterest := mCenterOfInterest c;
     mWorldUp := mWorldUp c; mFov := mFov c; mAspectRatio := mAspectRatio c;
     mNearClip := mNearClip c; mFarClip := mFarClip c; mU := a; mV := mV c; mW := mW c;
     mProjectionMatrix := mProjectionMatrix c;
     mInverseProjectionMatrix := mInverseProjectionMatrix c;
     mProjectionCached := mProjectionCached c; mViewMatrix := mViewMatrix c;
     mModelViewCached := mModelViewCached c;
     mInverseModelViewMatrix := mInverseModelViewMatrix c;
     mInverseModelViewCached := mInverseModelViewCached c;
     mFrustumLeft := mFrustumLeft c; mFrustumRight := mFrustumRight c;
     mFrustumTop := mFrustumTop c; mFrustumBottom := mFrustumBottom c |}.

Definition set_mV (a : vec3) (c : Camera) : Camera :=
  {| mEyePoint := mEyePoint c; mViewDirection := mViewDirection c;
     mOrientation := mOrientation c; mCenterOfInterest := mCenterOfInterest c;
     mWorldUp := mWorldUp c; mFov := mFov c; mAspectRatio := mAspectRatio c;
     mNearClip := mNearClip c; mFarClip := mFarClip c; mU := mU c; mV := a; mW := mW c;
     mProjectionMatrix := mProjectionMatrix c;
     mInverseProjectionMatrix := mInverseProjectionMatrix c;
     mProjectionCached := mProjectionCached c; mViewMatrix := mViewMatrix c;
     mModelViewCached := mModelViewCached c;
     mInverseModelViewMatrix := mInverseModelViewMatrix c;
     mInverseModelViewCached := mInverseModelViewCached c;
     mFrustumLeft := mFrustumLeft c; mFrustumRight := mFrustumRight c;
     mFrustumTop := mFrustumTop c; mFrustumBottom := mFrustumBottom c |}.

Definition set_mW (a : vec3) (c : Camera) : Camera :=
  {| mEyePoint := mEyePoint c; mViewDirection := mViewDirection c;
     mOrientation := mOrientation c; mCenterOfInterest := mCenterOfInterest c;
     mWorldUp := mWorldUp c; mFov := mFov c; mAspectRatio := mAspectRatio c;
     mNearClip := mNearClip c; mFarClip := mFarClip c; mU := mU c; mV := mV c; mW := a;
     mProjectionMatrix := mProjectionMatrix c;
     mInverseProjectionMatrix := mInverseProjectionMatrix c;
     mProjectionCached := mProjectionCached c; mViewMatrix := mViewMatrix c;
     mModelViewCached := mModelViewCached c;
     mInverseModelViewMatrix := mInverseModelViewMatrix c;
     mInverseModelViewCached := mInverseModelViewCached c;
     mFrustumLeft := mFrustumLeft c; mFrustumRight := mFrustumRight c;
     mFrustumTop := mFrustumTop c; mFrustumBottom := mFrustumBottom c |}.

Definition set_mProjectionMatrix (a : mat4) (c : Camera) : Camera :=
  {| mEyePoint := mEyePoint c; mViewDirection := mViewDirection c;
     mOrientation := mOrientation c; mCenterOfInterest := mCenterOfInterest c;
     mWorldUp := mWorldUp c; mFov := mFov c; mAspectRatio := mAspectRatio c;
     mNearClip := mNearClip c; mFarClip := mFarClip c; mU := mU c; mV := mV c;
     mW := mW c; mProjectionMatrix := a;
     mInverseProjectionMatrix := mInverseProjectionMatrix c;
     mProjectionCached := mProjectionCached c; mViewMatrix := mViewMatrix c;
     mModelViewCached := mModelViewCached c;
     mInverseModelViewMatrix := mInverseModelViewMatrix c;
     mInverseModelViewCached := mInverseModelViewCached c;
     mFrustumLeft := mFrustumLeft c; mFrustumRight := mFrustumRight c;
     mFrustumTop := mFrustumTop c; mFrustumBottom := mFrustumBottom c |}.

Definition set_mInverseProjectionMatrix (a : mat4) (c : Camera) : Camera :=
  {| mEyePoint := mEyePoint c; mViewDirection := mViewDirection c;
     mOrientation := mOrientation c; mCenterOfInterest := mCenterOfInterest c;
     mWorldUp := mWorldUp c; mFov := mFov c; mAspectRatio := mAspectRatio c;
     mNearClip := mNearClip c; mFarClip := mFarClip c; mU := mU c; mV := mV c;
     mW := mW c; mProjectionMatrix := mProjectionMatrix c;
     mInverseProjectionMatrix := a; mProjectionCached := mProjectionCached c;
     mViewMatrix := mViewMatrix c; mModelViewCached := mModelViewCached c;
     mInverseModelViewMatrix := mInverseModelViewMatrix c;
     mInverseModelViewCached := mInverseModelViewCached c;
     mFrustumLeft := mFrustumLeft c; mFrustumRight := mFrustumRight c;
     mFrustumTop := mFrustumTop c; mFrustumBottom := mFrustumBottom c |}.

Definition set_mProjectionCached (a : bool) (c : Camera) : Camera :=
  {| mEyePoint := mEyePoint c; mViewDirection := mViewDirection c;
     mOrientation := mOrientation c; mCenterOfInterest := mCenterOfInterest c;
     mWorldUp := mWorldUp c; mFov := mFov c; mAspectRatio := mAspectRatio c;
     mNearClip := mNearClip c; mFarClip := mFarClip c; mU := mU c; mV := mV c;
     mW := mW c; mProjectionMatrix := mProjectionMatrix c;
     mInverseProjectionMatrix := mInverseProjectionMatrix c; mProjectionCached := a;
     mViewMatrix := mViewMatrix c; mModelViewCached := mModelViewCached c;
     mInverseModelViewMatrix := mInverseModelViewMatrix c;
     mInverseModelViewCached := mInverseModelViewCached c;
     mFrustumLeft := mFrustumLeft c; mFrustumRight := mFrustumRight c;
     mFrustumTop := mFrustumTop c; mFrustumBottom := mFrustumBottom c |}.

Definition set_mViewMatrix (a : mat4) (c : Camera) : Camera :=
  {| mEyePoint := mEyePoint c; mViewDirection := mViewDirection c;
     mOrientation := mOrientation c; mCenterOfInterest := mCenterOfInterest c;
     mWorldUp := mWorldUp c; mFov := mFov c; mAspectRatio := mAspectRatio c;
     mNearClip := mNearClip c; mFarClip := mFarClip c; mU := mU c; mV := mV c;
     mW := mW c; mProjectionMatrix := mProjectionMatrix c;
     mInverseProjectionMatrix := mInverseProjectionMatrix c;
     mProjectionCached := mProjectionCached c; mViewMatrix := a;
     mModelViewCached := mModelViewCached c;
     mInverseModelViewMatrix := mInverseModelViewMatrix c;
     mInverseModelViewCached := mInverseModelViewCached c;
     mFrustumLeft := mFrustumLeft c; mFrustumRight := mFrustumRight c;
     mFrustumTop := mFrustumTop c; mFrustumBottom := mFrustumBottom c |}.

Definition set_mModelViewCached (a : bool) (c : Camera) : Camera :=
  {| mEyePoint := mEyePoint c; mViewDirection := mViewDirection c;
     mOrientation := mOrientation c; mCenterOfInterest := mCenterOfInterest c;
     mWorldUp := mWorldUp c; mFov := mFov c; mAspectRatio := mAspectRatio c;
     mNearClip := mNearClip c; mFarClip := mFarClip c; mU := mU c; mV := mV c;
     mW := mW c; mProjectionMatrix := mProjectionMatrix c;
     mInverseProjectionMatrix := mInverseProjectionMatrix c;
     mProjectionCached := mProjectionCached c; mViewMatrix := mViewMatrix c;
     mModelViewCached := a; mInverseModelViewMatrix := mInverseModelViewMatrix c;
     mInverseModelViewCached := mInverseModelViewCached c;
     mFrustumLeft := mFrustumLeft c; mFrustumRight := mFrustumRight c;
     mFrustumTop := mFrustumTop c; mFrustumBottom := mFrustumBottom c |}.

Definition set_mInverseModelViewMatrix (a : mat4) (c : Camera) : Camera :=
  {| mEyePoint := mEyePoint c; mViewDirection := mViewDirection c;
     mOrientation := mOrientation c; mCenterOfInterest := mCenterOfInterest c;
     mWorldUp := mWorldUp c; mFov := mFov c; mAspectRatio := mAspectRatio c;
     mNearClip := mNearClip c; mFarClip := mFarClip c; mU := mU c; mV := mV c;
     mW := mW c; mProjectionMatrix := mProjectionMatrix c;
     mInverseProjectionMatrix := mInverseProjectionMatrix c;
     mProjectionCached := mProjectionCached c; mViewMatrix := mViewMatrix c;
     mModelViewCached := mModelViewCached c; mInverseModelViewMatrix := a;
     mInverseModelViewCached := mInverseModelViewCached c;
     mFrustumLeft := mFrustumLeft c; mFrustumRight := mFrustumRight c;
     mFrustumTop := mFrustumTop c; mFrustumBottom := mFrustumBottom c |}.

Definition set_mInverseModelViewCached (a : bool) (c : Camera) : Camera :=
  {| mEyePoint := mEyePoint c; mViewDirection := mViewDirection c;
     mOrientation := mOrientation c; mCenterOfInterest := mCenterOfInterest c;
     mWorldUp := mWorldUp c; mFov := mFov c; mAspectRatio := mAspectRatio c;
     mNearClip := mNearClip c; mFarClip := mFarClip c; mU := mU c; mV := mV c;
     mW := mW c; mProjectionMatrix := mProjectionMatrix c;
     mInverseProjectionMatrix := mInverseProjectionMatrix c;
     mProjectionCached := mProjectionCached c; mViewMatrix := mViewMatrix c;
     mModelViewCached := mModelViewCached c;
     mInverseModelViewMatrix := mInverseModelViewMatrix c;
     mInverseModelViewCached := a; mFrustumLeft := mFrustumLeft c;
     mFrustumRight := mFrustumRight c; mFrustumTop := mFrustumTop c;
     mFrustumBottom := mFrustumBottom c |}.

Definition set_mFrustumLeft (a : R) (c : Camera) : Camera :=
  {| mEyePoint := mEyePoint c; mViewDirection := mViewDirection c;
     mOrientation := mOrientation c; mCenterOfInterest := mCenterOfInterest c;
     mWorldUp := mWorldUp c; mFov := mFov c; mAspectRatio := mAspectRatio c;
     mNearClip := mNearClip c; mFarClip := mFarClip c; mU := mU c; mV := mV c;
     mW := mW c; mProjectionMatrix := mProjectionMatrix c;
     mInverseProjectionMatrix := mInverseProjectionMatrix c;
     mProjectionCached := mProjectionCached c; mViewMatrix := mViewMatrix c;
     mModelViewCached := mModelViewCached c;
     mInverseModelViewMatrix := mInverseModelViewMatrix c;
     mInverseModelViewCached := mInverseModelViewCached c; mFrustumLeft := a;
     mFrustumRight := mFrustumRight c; mFrustumTop := mFrustumTop c;
     mFrustumBottom := mFrustumBottom c |}.

Definition set_mFrustumRight (a : R) (c : Camera) : Camera :=
  {| mEyePoint := mEyePoint c; mViewDirection := mViewDirection c;
     mOrientation := mOrientation c; mCenterOfInterest := mCenterOfInterest c;
     mWorldUp := mWorldUp c; mFov := mFov c; mAspectRatio := mAspectRatio c;
     mNearClip := mNearClip c; mFarClip := mFarClip c; mU := mU c; mV := mV c;
     mW := mW c; mProjectionMatrix := mProjectionMatrix c;
     mInverseProjectionMatrix := mInverseProjectionMatrix c;
     mProjectionCached := mProjectionCached c; mViewMatrix := mViewMatrix c;
     mModelViewCached := mModelViewCached c;
     mInverseModelViewMatrix := mInverseModelViewMatrix c;
     mInverseModelViewCached := mInverseModelViewCached c;
     mFrustumLeft := mFrustumLeft c; mFrustumRight := a; mFrustumTop := mFrustumTop c;
     mFrustumBottom := mFrustumBottom c |}.

Definition set_mFrustumTop (a : R) (c : Camera) : Camera :=
  {| mEyePoint := mEyePoint c; mViewDirection := mViewDirection c;
     mOrientation := mOrientation c; mCenterOfInterest := mCenterOfInterest c;
     mWorldUp := mWorldUp c; mFov := mFov c; mAspectRatio := mAspectRatio c;
     mNearClip := mNearClip c; mFarClip := mFarClip c; mU := mU c; mV := mV c;
     mW := mW c; mProjectionMatrix := mProjectionMatrix c;
     mInverseProjectionMatrix := mInverseProjectionMatrix c;
     mProjectionCached := mProjectionCached c; mViewMatrix := mViewMatrix c;
     mModelViewCached := mModelViewCached c;
     mInverseModelViewMatrix := mInverseModelViewMatrix c;
     mInverseModelViewCached := mInverseModelViewCached c;
     mFrustumLeft := mFrustumLeft c; mFrustumRight := mFrustumRight c;
     mFrustumTop := a; mFrustumBottom := mFrustumBottom c |}.

Definition set_mFrustumBottom (a : R) (c : Camera) : Camera :=
  {| mEyePoint := mEyePoint c; mViewDirection := mViewDirection c;
     mOrientation := mOrientation c; mCenterOfInterest := mCenterOfInterest c;
     mWorldUp := mWorldUp c; mFov := mFov c; mAspectRatio := mAspectRatio c;
     mNearClip := mNearClip c; mFarClip := mFarClip c; mU := mU c; mV := mV c;
     mW := mW c; mProjectionMatrix := mProjectionMatrix c;
     mInverseProjectionMatrix := mInverseProjectionMatrix c;
     mProjectionCached := mProjectionCached c; mViewMatrix := mViewMatrix c;
     mModelViewCached := mModelViewCached c;
     mInverseModelViewMatrix := mInverseModelViewMatrix c;
     mInverseModelViewCached := mInverseModelViewCached c;
     mFrustumLeft := mFrustumLeft c; mFrustumRight := mFrustumRight c;
     mFrustumTop := mFrustumTop c; mFrustumBottom := a |}.

(** Functions of cinder/Matrix.h and of glm that Camera.cpp calls and whose
    code is not part of the camera source.  They are parameters of the
    development: nothing is assumed about what they compute. *)
Class MatrixLib : Type := {
  alignZAxisWithTarget : vec3 -> vec3 -> mat4;
  toQuat : mat4 -> quat;
  inverse : mat4 -> mat4;
  affineInverse : mat4 -> mat4
}.

(** *** Pose mutators (Camera.cpp, lines 41-102) *)

Definition setEyePoint (aEyePoint : vec3) (c : Camera) : Camera :=
  let c := set_mEyePoint aEyePoint c in
  set_mModelViewCached false c.

Definition setViewDirection (aViewDirection : vec3) (c : Camera) : Camera :=
  let c := set_mViewDirection (glm.normalize aViewDirection) c in
  let c := set_mOrientation (glm.rotation (mViewDirection c) (Vec3 0 0 (-1))) c in
  set_mModelViewCached false c.

Definition setOrientation (aOrientation : quat) (c : Camera) : Camera :=
  let c := set_mOrientation (glm.qnormalize aOrientation) c in
  let c := set_mViewDirection (glm.rotate (mOrientation c) (Vec3 0 0 (-1))) c in
  set_mModelViewCached false c.

(** [Camera::getFocalLength] *)
Definition getFocalLength (c : Camera) : R :=
  1 / (tan (toRadians (mFov c) * 0.5) * 2).

Section PoseFromAlignment.
Context `{MatrixLib}.

Definition setWorldUp (aWorldUp : vec3) (c : Camera) : Camera :=
  let c := set_mWorldUp (glm.normalize aWorldUp) c in
  let c := set_mOrientation
             (toQuat (alignZAxisWithTarget (-^ mViewDirection c) (mWorldUp c))) c in
  set_mModelViewCached false c.

(** [lookAt( target )] *)
Definition lookAt (target : vec3) (c : Camera) : Camera :=
  let c := set_mViewDirection (glm.normalize (target -^ mEyePoint c)) c in
  let c := set_mOrientation
             (toQuat (alignZAxisWithTarget (-^ mViewDirection c) (mWorldUp c))) c in
  set_mModelViewCached false c.

(** [lookAt( aEyePoint, target )] *)
Definition lookAt2 (aEyePoint target : vec3) (c : Camera) : Camera :=
  let c := set_mEyePoint aEyePoint c in
  let c := set_mViewDirection (glm.normalize (target -^ mEyePoint c)) c in
  let c := set_mOrientation
             (toQuat (alignZAxisWithTarget (-^ mViewDirection c) (mWorldUp c))) c in
  set_mModelViewCached false c.

(** [lookAt( aEyePoint, target, aWorldUp )] *)
Definition lookAt3 (aEyePoint target aWorldUp : vec3) (c : Camera) : Camera :=
  let c := set_mEyePoint aEyePoint c in
  let c := set_mWorldUp (glm.normalize aWorldUp) c in
  let c := set_mViewDirection (glm.normalize (target -^ mEyePoint c)) c in
  let c := set_mOrientation
             (toQuat (alignZAxisWithTarget (-^ mViewDirection c) (mWorldUp c))) c in
  set_mModelViewCached false c.

Definition setCenterOfInterestPoint (centerOfInterestPoint : vec3) (c : Camera) : Camera :=
  let c := set_mCenterOfInterest (glm.distance (mEyePoint c) centerOfInterestPoint) c in
  lookAt centerOfInterestPoint c.

End PoseFromAlignment.

(** *** The view matrix (Camera.cpp, lines 197-213) *)

Definition Camera_calcViewMatrix (c : Camera) : Camera :=
  let c := set_mW (-^ glm.normalize (mViewDirection c)) c in
  let c := set_mU (glm.rotate (mOrientation c) (Vec3 1 0 0)) c in
  let c := set_mV (glm.rotate (mOrientation c) (Vec3 0 1 0)) c in
  let d := Vec3 (- glm.dot (mEyePoint c) (mU c))
                (- glm.dot (mEyePoint c) (mV c))
                (- glm.dot (mEyePoint c) (mW c)) in
  let m := mViewMatrix c in
  let m := m.[I0, I0 <- vx (mU c)] in let m := m.[I1, I0 <- vy (mU c)] in
  let m := m.[I2, I0 <- vz (mU c)] in let m := m.[I3, I0 <- vx d] in
  let m := m.[I0, I1 <- vx (mV c)] in let m := m.[I1, I1 <- vy (mV c)] in
  let m := m.[I2, I1 <- vz (mV c)] in let m := m.[I3, I1 <- vy d] in
  let m := m.[I0, I2 <- vx (mW c)] in let m := m.[I1, I2 <- vy (mW c)] in
  let m := m.[I2, I2 <- vz (mW c)] in let m := m.[I3, I2 <- vz d] in
  let m := m.[I0, I3 <- 0] in let m := m.[I1, I3 <- 0] in
  let m := m.[I2, I3 <- 0] in let m := m.[I3, I3 <- 1] in
  let c := set_mViewMatrix m c in
  let c := set_mModelViewCached true c in
  set_mInverseModelViewCached false c.

(** ** Virtual dispatch

    [calcViewMatrix] and [calcProjection] are virtual in [Camera]
    ([calcProjection] is pure virtual); a concrete camera type is an
    instance of [CameraCalc].  [base] reads the [Camera] subobject and
    [with_base] writes it back. *)
Class CameraCalc (C : Type) : Type := {
  base : C -> Camera;
  with_base : Camera -> C -> C;
  calcViewMatrix : C -> C;
  calcProjection : C -> C
}.

(** A method of the base class run on a derived object. *)
Definition inherited {C : Type} `{CameraCalc C} (f : Camera -> Camera) (c : C) : C :=
  with_base (f (base c)) c.

(** [Camera::calcMatrices] (lines 191-195) *)
Definition calcMatrices {C : Type} `{CameraCalc C} (c : C) : C :=
  let c := if negb (mModelViewCached (base c)) then calcViewMatrix c else c in
  if negb (mProjectionCached (base c)) then calcProjection c else c.

(** [Camera::calcInverseView] (lines 215-221), with the virtual call to
    [calcViewMatrix]. *)
Definition Camera_calcInverseView {C : Type} `{MatrixLib} `{CameraCalc C} (c : C) : C :=
  let c := if negb (mModelViewCached (base c)) then calcViewMatrix c else c in
  let b := base c in
  let b := set_mInverseModelViewMatrix (inverse (mViewMatrix b)) b in
  let b := set_mInverseModelViewCached true b in
  with_base b c.

(** Modelled from the spec: the inline accessors of Camera.h, which are
    not in the source (section 3: "a cached matrix is never read without
    first ensuring its flag is set by recomputation"; Camera.cpp, lines
    496-533 show the same pattern in the stereo overrides). *)
Definition Camera_getProjectionMatrix {C : Type} `{CameraCalc C} (c : C) : mat4 * C :=
  let c := if negb (mProjectionCached (base c)) then calcProjection c else c in
  (mProjectionMatrix (base c), c).

(** Modelled from the spec: see [Camera_getProjectionMatrix]. *)
Definition Camera_getViewMatrix {C : Type} `{CameraCalc C} (c : C) : mat4 * C :=
  let c := if negb (mModelViewCached (base c)) then calcViewMatrix c else c in
  (mViewMatrix (base c), c).

(** Modelled from the spec: see [Camera_getProjectionMatrix].  The call to
    the virtual [calcInverseView] goes through the argument. *)
Definition Camera_getInverseViewMatrix {C : Type} `{CameraCalc C}
  (calcInverseView : C -> C) (c : C) : mat4 * C :=
  let c := if negb (mInverseModelViewCached (base c)) then calcInverseView c else c in
  (mInverseModelViewMatrix (base c), c).

(** [calcInverseView] and the three accessors are virtual too;
    [CameraStereo] overrides them. *)
Class CameraVirtual (C : Type) `{CameraCalc C} : Type := {
  calcInverseView : C -> C;
  getProjectionMatrix : C -> mat4 * C;
  getViewMatrix : C -> mat4 * C;
  getInverseViewMatrix : C -> mat4 * C
}.

(** *** Queries of the base class (Camera.cpp, lines 104-183) *)

Record Corners : Type := Build_Corners {
  topLeft : vec3; topRight : vec3; bottomLeft : vec3; bottomRight : vec3
}.

Record FrustumExtents : Type := Build_FrustumExtents {
  out_left : R; out_top : R; out_right : R; out_bottom : R; out_near : R; out_far : R
}.

Record Ray : Type := Build_Ray { ray_origin : vec3; ray_direction : vec3 }.

Record Sphere : Type := Build_Sphere { getCenter : vec3; getRadius : R }.

Section BaseQueries.
Context {C : Type} `{CameraVirtual C}.

Definition getNearClipCoordinates (this : C) : Corners * C :=
  let this := calcMatrices this in
  let c := base this in
  let viewDirection := glm.normalize (mViewDirection c) in
  ({| topLeft := mEyePoint c +^ (mNearClip c *^ viewDirection)
                   +^ (mFrustumTop c *^ mV c) +^ (mFrustumLeft c *^ mU c);
      topRight := mEyePoint c +^ (mNearClip c *^ viewDirection)
                   +^ (mFrustumTop c *^ mV c) +^ (mFrustumRight c *^ mU c);
      bottomLeft := mEyePoint c +^ (mNearClip c *^ viewDirection)
                   +^ (mFrustumBottom c *^ mV c) +^ (mFrustumLeft c *^ mU c);
      bottomRight := mEyePoint c +^ (mNearClip c *^ viewDirection)
                   +^ (mFrustumBottom c *^ mV c) +^ (mFrustumRight c *^ mU c) |},
   this).

Definition getFarClipCoordinates (this : C) : Corners * C :=
  let this := calcMatrices this in
  let c := base this in
  let viewDirection := glm.normalize (mViewDirection c) in
  let ratio := mFarClip c / mNearClip c in
  ({| topLeft := mEyePoint c +^ (mFarClip c *^ viewDirection)
                   +^ (ratio * mFrustumTop c *^ mV c) +^ (ratio * mFrustumLeft c *^ mU c);
      topRight := mEyePoint c +^ (mFarClip c *^ viewDirection)
                   +^ (ratio * mFrustumTop c *^ mV c) +^ (ratio * mFrustumRight c *^ mU c);
      bottomLeft := mEyePoint c +^ (mFarClip c *^ viewDirection)
                   +^ (ratio * mFrustumBottom c *^ mV c) +^ (ratio * mFrustumLeft c *^ mU c);
      bottomRight := mEyePoint c +^ (mFarClip c *^ viewDirection)
                   +^ (ratio * mFrustumBottom c *^ mV c) +^ (ratio * mFrustumRight c *^ mU c) |},
   this).

Definition getFrustum (this : C) : FrustumExtents * C :=
  let this := calcMatrices this in
  let c := base this in
  ({| out_left := mFrustumLeft c; out_top := mFrustumTop c;
      out_right := mFrustumRight c; out_bottom := mFrustumBottom c;
      out_near := mNearClip c; out_far := mFarClip c |}, this).

Definition generateRay (uPos vPos imagePlaneApectRatio : R) (this : C) : Ray * C :=
  let this := calcMatrices this in
  let c := base this in
  let s := (uPos - 0.5) * imagePlaneApectRatio in
  let t := vPos - 0.5 in
  let viewDistance :=
    imagePlaneApectRatio / Rabs (mFrustumRight c - mFrustumLeft c) * mNearClip c in
  ({| ray_origin := mEyePoint c;
      ray_direction :=
        glm.normalize ((mU c ^* s) +^ (mV c ^* t) -^ (mW c ^* viewDistance)) |},
   this).

Definition getBillboardVectors (this : C) : (vec3 * vec3) * C :=
  let (m, this) := getViewMatrix this in
  let right := vec3_of (glm.row m I0) in
  let (m, this) := getViewMatrix this in
  let up := vec3_of (glm.row m I1) in
  ((right, up), this).

Definition worldToScreen (worldCoord : vec3) (screenWidth screenHeight : R) (this : C)
  : vec2 * C :=
  let (view, this) := getViewMatrix this in
  let eyeCoord := vec3_of (glm.mul_m4_v4 view (vec4_of worldCoord 1)) in
  let (proj, this) := getProjectionMatrix this in
  let ndc := glm.mul_m4_v4 proj (vec4_of eyeCoord 1) in
  let ndc_x := x4 ndc / w4 ndc in
  let ndc_y := y4 ndc / w4 ndc in
  (Vec2 ((ndc_x + 1) / 2 * screenWidth) ((1 - (ndc_y + 1) / 2) * screenHeight), this).

Definition worldToEyeDepth (worldCoord : vec3) (this : C) : R * C :=
  let (m, this) := getViewMatrix this in
  (m.[I0, I2] * vx worldCoord + m.[I1, I2] * vy worldCoord
   + m.[I2, I2] * vz worldCoord + m.[I3, I2], this).

Definition worldToNdc (worldCoord : vec3) (this : C) : vec3 * C :=
  let (view, this) := getViewMatrix this in
  let eye := glm.mul_m4_v4 view (vec4_of worldCoord 1) in
  let (proj, this) := getProjectionMatrix this in
  let unproj := glm.mul_m4_v4 proj eye in
  (Vec3 (x4 unproj / w4 unproj) (y4 unproj / w4 unproj) (z4 unproj / w4 unproj), this).

End BaseQueries.

(** Modelled from the spec: the inline [Camera::getFov] and
    [Camera::getFovHorizontal] of Camera.h (section 4.2: "horizontal FOV
    derived from vertical FOV and aspect ratio"). *)
Definition getFov (c : Camera) : R := mFov c.

(** Modelled from the spec: see [getFov]. *)
Definition getFovHorizontal (c : Camera) : R :=
  toDegrees (2 * atan (tan (toRadians (mFov c) * 0.5) * mAspectRatio c)).

(** ** CameraPersp *)

Record CameraPersp : Type := Build_CameraPersp {
  persp_camera : Camera;
  mLensShift : vec2
}.

Definition set_persp_camera (b : Camera) (p : CameraPersp) : CameraPersp :=
  {| persp_camera := b; mLensShift := mLensShift p |}.

Definition set_mLensShift (a : vec2) (p : CameraPersp) : CameraPersp :=
  {| persp_camera := persp_camera p; mLensShift := a |}.

(** [CameraPersp::setPerspective] (lines 267-275) *)
Definition setPerspective (verticalFovDegrees aspectRatio nearPlane farPlane : R)
  (p : CameraPersp) : CameraPersp :=
  let c := persp_camera p in
  let c := set_mFov verticalFovDegrees c in
  let c := set_mAspectRatio aspectRatio c in
  let c := set_mNearClip nearPlane c in
  let c := set_mFarClip farPlane c in
  let c := set_mProjectionCached false c in
  set_persp_camera c p.

(** [CameraPersp::calcProjection] (lines 277-338), in the three blocks of
    the source.  First the frustum extents (lines 279-293): the symmetric
    frustum of the field of view, then the lens shift. *)
Definition calcProjection_frustum (p : CameraPersp) : Camera :=
  let c := persp_camera p in
  let c := set_mFrustumTop (mNearClip c * tan (M_PI / 180 * mFov c * 0.5)) c in
  let c := set_mFrustumBottom (- mFrustumTop c) c in
  let c := set_mFrustumRight (mFrustumTop c * mAspectRatio c) c in
  let c := set_mFrustumLeft (- mFrustumRight c) c in
  (* perform lens shift *)
  let c :=
    if Req_dec_T (y2 (mLensShift p)) 0 then c else
      let c := set_mFrustumTop
                 (lerp 0 (2 * mFrustumTop c) (0.5 + 0.5 * y2 (mLensShift p))) c in
      set_mFrustumBottom
        (lerp (2 * mFrustumBottom c) 0 (0.5 + 0.5 * y2 (mLensShift p))) c in
  if Req_dec_T (x2 (mLensShift p)) 0 then c else
    let c := set_mFrustumRight
               (lerp (2 * mFrustumRight c) 0 (0.5 - 0.5 * x2 (mLensShift p))) c in
    set_mFrustumLeft
      (lerp 0 (2 * mFrustumLeft c) (0.5 - 0.5 * x2 (mLensShift p))) c.

(** The writes through [mat4 &p = mProjectionMatrix] (lines 295-314). *)
Definition calcProjection_matrix (c : Camera) : mat4 :=
  let p := mProjectionMatrix c in
  let p := p.[I0, I0 <- 2 * mNearClip c / (mFrustumRight c - mFrustumLeft c)] in
  let p := p.[I1, I0 <- 0] in
  let p := p.[I2, I0 <- (mFrustumRight c + mFrustumLeft c)
                          / (mFrustumRight c - mFrustumLeft c)] in
  let p := p.[I3, I0 <- 0] in
  let p := p.[I0, I1 <- 0] in
  let p := p.[I1, I1 <- 2 * mNearClip c / (mFrustumTop c - mFrustumBottom c)] in
  let p := p.[I2, I1 <- (mFrustumTop c + mFrustumBottom c)
                          / (mFrustumTop c - mFrustumBottom c)] in
  let p := p.[I3, I1 <- 0] in
  let p := p.[I0, I2 <- 0] in
  let p := p.[I1, I2 <- 0] in
  let p := p.[I2, I2 <- - (mFarClip c + mNearClip c) / (mFarClip c - mNearClip c)] in
  let p := p.[I3, I2 <- -2 * mFarClip c * mNearClip c / (mFarClip c - mNearClip c)] in
  let p := p.[I0, I3 <- 0] in
  let p := p.[I1, I3 <- 0] in
  let p := p.[I2, I3 <- -1] in
  p.[I3, I3 <- 0].

(** The writes through [mat4 &m = mInverseProjectionMatrix] (lines 316-335). *)
Definition calcProjection_inverse (c : Camera) : mat4 :=
  let m := mInverseProjectionMatrix c in
  let m := m.[I0, I0 <- (mFrustumRight c - mFrustumLeft c) / (2 * mNearClip c)] in
  let m := m.[I1, I0 <- 0] in
  let m := m.[I2, I0 <- 0] in
  let m := m.[I3, I0 <- (mFrustumRight c + mFrustumLeft c) / (2 * mNearClip c)] in
  let m := m.[I0, I1 <- 0] in
  let m := m.[I1, I1 <- (mFrustumTop c - mFrustumBottom c) / (2 * mNearClip c)] in
  let m := m.[I2, I1 <- 0] in
  let m := m.[I3, I1 <- (mFrustumTop c + mFrustumBottom c) / (2 * mNearClip c)] in
  let m := m.[I0, I2 <- 0] in
  let m := m.[I1, I2 <- 0] in
  let m := m.[I2, I2 <- 0] in
  let m := m.[I3, I2 <- -1] in
  let m := m.[I0, I3 <- 0] in
  let m := m.[I1, I3 <- 0] in
  let m := m.[I2, I3 <- - (mFarClip c - mNearClip c) / (2 * mFarClip c * mNearClip c)] in
  m.[I3, I3 <- (mFarClip c + mNearClip c) / (2 * mFarClip c * mNearClip c)].

Definition CameraPersp_calcProjection (p : CameraPersp) : CameraPersp :=
  let c := calcProjection_frustum p in
  let c := set_mProjectionMatrix (calcProjection_matrix c) c in
  let c := set_mInverseProjectionMatrix (calcProjection_inverse c) c in
  let c := set_mProjectionCached true c in
  set_persp_camera c p.

(** [CameraPersp::setLensShift] (lines 340-346) *)
Definition setLensShift (horizontal vertical : R) (p : CameraPersp) : CameraPersp :=
  let p := set_mLensShift (Vec2 horizontal (y2 (mLensShift p))) p in
  let p := set_mLensShift (Vec2 (x2 (mLensShift p)) vertical) p in
  set_persp_camera (set_mProjectionCached false (persp_camera p)) p.

(** [CameraPersp::calcFraming] (lines 348-355) *)
Definition calcFraming (worldSpaceSphere : Sphere) (this : CameraPersp) : CameraPersp :=
  let result := this in
  let xDistance :=
    getRadius worldSpaceSphere
    / sin (toRadians (getFovHorizontal (persp_camera this) * 0.5)) in
  let yDistance :=
    getRadius worldSpaceSphere / sin (toRadians (getFov (persp_camera this) * 0.5)) in
  set_persp_camera
    (setEyePoint
       (getCenter worldSpaceSphere
        -^ (mViewDirection (persp_camera result) ^* Rmax xDistance yDistance))
       (persp_camera result))
    result.

#[export] Instance CameraPersp_calc : CameraCalc CameraPersp := {
  base := persp_camera;
  with_base := set_persp_camera;
  calcViewMatrix := fun p => set_persp_camera (Camera_calcViewMatrix (persp_camera p)) p;
  calcProjection := CameraPersp_calcProjection
}.

#[export] Instance CameraPersp_virtual `{MatrixLib} : CameraVirtual CameraPersp := {
  calcInverseView := Camera_calcInverseView;
  getProjectionMatrix := Camera_getProjectionMatrix;
  getViewMatrix := Camera_getViewMatrix;
  getInverseViewMatrix := Camera_getInverseViewMatrix Camera_calcInverseView
}.

(** ** CameraOrtho *)

Record CameraOrtho : Type := Build_CameraOrtho { ortho_camera : Camera }.

Definition set_ortho_camera (b : Camera) (o : CameraOrtho) : CameraOrtho :=
  {| ortho_camera := b |}.

(** [CameraOrtho::setOrtho] (lines 382-392) *)
Definition setOrtho (left right bottom top nearPlane farPlane : R) (o : CameraOrtho)
  : CameraOrtho :=
  let c := ortho_camera o in
  let c := set_mFrustumLeft left c in
  let c := set_mFrustumRight right c in
  let c := set_mFrustumTop top c in
  let c := set_mFrustumBottom bottom c in
  let c := set_mNearClip nearPlane c in
  let c := set_mFarClip farPlane c in
  let c := set_mProjectionCached false c in
  set_ortho_camera c o.

(** [CameraOrtho::calcProjection] (lines 394-439) *)
Definition CameraOrtho_calcProjection (o : CameraOrtho) : CameraOrtho :=
  let c := ortho_camera o in
  let p := mProjectionMatrix c in
  let p := p.[I0, I0 <- 2 / (mFrustumRight c - mFrustumLeft c)] in
  let p := p.[I1, I0 <- 0] in
  let p := p.[I2, I0 <- 0] in
  let p := p.[I3, I0 <- - (mFrustumRight c + mFrustumLeft c)
                          / (mFrustumRight c - mFrustumLeft c)] in
  let p := p.[I0, I1 <- 0] in
  let p := p.[I1, I1 <- 2 / (mFrustumTop c - mFrustumBottom c)] in
  let p := p.[I2, I1 <- 0] in
  let p := p.[I3, I1 <- - (mFrustumTop c + mFrustumBottom c)
                          / (mFrustumTop c - mFrustumBottom c)] in
  let p := p.[I0, I2 <- 0] in
  let p := p.[I1, I2 <- 0] in
  let p := p.[I2, I2 <- -2 / (mFarClip c - mNearClip c)] in
  let p := p.[I3, I2 <- - (mFarClip c + mNearClip c) / (mFarClip c - mNearClip c)] in
  let p := p.[I0, I3 <- 0] in
  let p := p.[I1, I3 <- 0] in
  let p := p.[I2, I3 <- 0] in
  let p := p.[I3, I3 <- 1] in
  let c := set_mProjectionMatrix p c in
  let m := mInverseProjectionMatrix c in
  let m := m.[I0, I0 <- (mFrustumRight c - mFrustumLeft c) * 0.5] in
  let m := m.[I1, I0 <- 0] in
  let m := m.[I2, I0 <- 0] in
  let m := m.[I3, I0 <- (mFrustumRight c + mFrustumLeft c) * 0.5] in
  let m := m.[I0, I1 <- 0] in
  let m := m.[I1, I1 <- (mFrustumTop c - mFrustumBottom c) * 0.5] in
  let m := m.[I2, I1 <- 0] in
  let m := m.[I3, I1 <- (mFrustumTop c + mFrustumBottom c) * 0.5] in
  let m := m.[I0, I2 <- 0] in
  let m := m.[I1, I2 <- 0] in
  let m := m.[I2, I2 <- (mFarClip c - mNearClip c) * 0.5] in
  let m := m.[I3, I2 <- (mNearClip c + mFarClip c) * 0.5] in
  let m := m.[I0, I3 <- 0] in
  let m := m.[I1, I3 <- 0] in
  let m := m.[I2, I3 <- 0] in
  let m := m.[I3, I3 <- 1] in
  let c := set_mInverseProjectionMatrix m c in
  let c := set_mProjectionCached true c in
  set_ortho_camera c o.

#[export] Instance CameraOrtho_calc : CameraCalc CameraOrtho := {
  base := ortho_camera;
  with_base := set_ortho_camera;
  calcViewMatrix := fun o => set_ortho_camera (Camera_calcViewMatrix (ortho_camera o)) o;
  calcProjection := CameraOrtho_calcProjection
}.

#[export] Instance CameraOrtho_virtual `{MatrixLib} : CameraVirtual CameraOrtho := {
  calcInverseView := Camera_calcInverseView;
  getProjectionMatrix := Camera_getProjectionMatrix;
  getViewMatrix := Camera_getViewMatrix;
  getInverseViewMatrix := Camera_getInverseViewMatrix Camera_calcInverseView
}.

(** ** CameraStereo

    [CameraStereo] extends [CameraPersp] with the stereo parameters and a
    left and a right copy of every cached matrix. *)

Record CameraStereo : Type := Build_CameraStereo {
  stereo_persp : CameraPersp;
  mConvergence : R;
  mEyeSeparation : R;
  mIsStereo : bool;
  mIsLeft : bool;
  mProjectionMatrixLeft : mat4;
  mInverseProjectionMatrixLeft : mat4;
  mProjectionMatrixRight : mat4;
  mInverseProjectionMatrixRight : mat4;
  mViewMatrixLeft : mat4;
  mViewMatrixRight : mat4;
  mInverseModelViewMatrixLeft : mat4;
  mInverseModelViewMatrixRight : mat4
}.

Definition set_stereo_persp (a : CameraPersp) (c : CameraStereo) : CameraStereo :=
  {| stereo_persp := a; mConvergence := mConvergence c;
     mEyeSeparation := mEyeSeparation c; mIsStereo := mIsStereo c;
     mIsLeft := mIsLeft c; mProjectionMatrixLeft := mProjectionMatrixLeft c;
     mInverseProjectionMatrixLeft := mInverseProjectionMatrixLeft c;
     mProjectionMatrixRight := mProjectionMatrixRight c;
     mInverseProjectionMatrixRight := mInverseProjectionMatrixRight c;
     mViewMatrixLeft := mViewMatrixLeft c; mViewMatrixRight := mViewMatrixRight c;
     mInverseModelViewMatrixLeft := mInverseModelViewMatrixLeft c;
     mInverseModelViewMatrixRight := mInverseModelViewMatrixRight c |}.

Definition set_mConvergence (a : R) (c : CameraStereo) : CameraStereo :=
  {| stereo_persp := stereo_persp c; mConvergence := a;
     mEyeSeparation := mEyeSeparation c; mIsStereo := mIsStereo c;
     mIsLeft := mIsLeft c; mProjectionMatrixLeft := mProjectionMatrixLeft c;
     mInverseProjectionMatrixLeft := mInverseProjectionMatrixLeft c;
     mProjectionMatrixRight := mProjectionMatrixRight c;
     mInverseProjectionMatrixRight := mInverseProjectionMatrixRight c;
     mViewMatrixLeft := mViewMatrixLeft c; mViewMatrixRight := mViewMatrixRight c;
     mInverseModelViewMatrixLeft := mInverseModelViewMatrixLeft c;
     mInverseModelViewMatrixRight := mInverseModelViewMatrixRight c |}.

Definition set_mEyeSeparation (a : R) (c : CameraStereo) : CameraStereo :=
  {| stereo_persp := stereo_persp c; mConvergence := mConvergence c;
     mEyeSeparation := a; mIsStereo := mIsStereo c; mIsLeft := mIsLeft c;
     mProjectionMatrixLeft := mProjectionMatrixLeft c;
     mInverseProjectionMatrixLeft := mInverseProjectionMatrixLeft c;
     mProjectionMatrixRight := mProjectionMatrixRight c;
     mInverseProjectionMatrixRight := mInverseProjectionMatrixRight c;
     mViewMatrixLeft := mViewMatrixLeft c; mViewMatrixRight := mViewMatrixRight c;
     mInverseModelViewMatrixLeft := mInverseModelViewMatrixLeft c;
     mInverseModelViewMatrixRight := mInverseModelViewMatrixRight c |}.

Definition set_mIsStereo (a : bool) (c : CameraStereo) : CameraStereo :=
  {| stereo_persp := stereo_persp c; mConvergence := mConvergence c;
     mEyeSeparation := mEyeSeparation c; mIsStereo := a; mIsLeft := mIsLeft c;
     mProjectionMatrixLeft := mProjectionMatrixLeft c;
     mInverseProjectionMatrixLeft := mInverseProjectionMatrixLeft c;
     mProjectionMatrixRight := mProjectionMatrixRight c;
     mInverseProjectionMatrixRight := mInverseProjectionMatrixRight c;
     mViewMatrixLeft := mViewMatrixLeft c; mViewMatrixRight := mViewMatrixRight c;
     mInverseModelViewMatrixLeft := mInverseModelViewMatrixLeft c;
     mInverseModelViewMatrixRight := mInverseModelViewMatrixRight c |}.

Definition set_mIsLeft (a : bool) (c : CameraStereo) : CameraStereo :=
  {| stereo_persp := stereo_persp c; mConvergence := mConvergence c;
     mEyeSeparation := mEyeSeparation c; mIsStereo := mIsStereo c; mIsLeft := a;
     mProjectionMatrixLeft := mProjectionMatrixLeft c;
     mInverseProjectionMatrixLeft := mInverseProjectionMatrixLeft c;
     mProjectionMatrixRight := mProjectionMatrixRight c;
     mInverseProjectionMatrixRight := mInverseProjectionMatrixRight c;
     mViewMatrixLeft := mViewMatrixLeft c; mViewMatrixRight := mViewMatrixRight c;
     mInverseModelViewMatrixLeft := mInverseModelViewMatrixLeft c;
     mInverseModelViewMatrixRight := mInverseModelViewMatrixRight c |}.

Definition set_mProjectionMatrixLeft (a : mat4) (c : CameraStereo) : CameraStereo :=
  {| stereo_persp := stereo_persp c; mConvergence := mConvergence c;
     mEyeSeparation := mEyeSeparation c; mIsStereo := mIsStereo c;
     mIsLeft := mIsLeft c; mProjectionMatrixLeft := a;
     mInverseProjectionMatrixLeft := mInverseProjectionMatrixLeft c;
     mProjectionMatrixRight := mProjectionMatrixRight c;
     mInverseProjectionMatrixRight := mInverseProjectionMatrixRight c;
     mViewMatrixLeft := mViewMatrixLeft c; mViewMatrixRight := mViewMatrixRight c;
     mInverseModelViewMatrixLeft := mInverseModelViewMatrixLeft c;
     mInverseModelViewMatrixRight := mInverseModelViewMatrixRight c |}.

Definition set_mInverseProjectionMatrixLeft (a : mat4) (c : CameraStereo) : CameraStereo :=
  {| stereo_persp := stereo_persp c; mConvergence := mConvergence c;
     mEyeSeparation := mEyeSeparation c; mIsStereo := mIsStereo c;
     mIsLeft := mIsLeft c; mProjectionMatrixLeft := mProjectionMatrixLeft c;
     mInverseProjectionMatrixLeft := a;
     mProjectionMatrixRight := mProjectionMatrixRight c;
     mInverseProjectionMatrixRight := mInverseProjectionMatrixRight c;
     mViewMatrixLeft := mViewMatrixLeft c; mViewMatrixRight := mViewMatrixRight c;
     mInverseModelViewMatrixLeft := mInverseModelViewMatrixLeft c;
     mInverseModelViewMatrixRight := mInverseModelViewMatrixRight c |}.

Definition set_mProjectionMatrixRight (a : mat4) (c : CameraStereo) : CameraStereo :=
  {| stereo_persp := stereo_persp c; mConvergence := mConvergence c;
     mEyeSeparation := mEyeSeparation c; mIsStereo := mIsStereo c;
     mIsLeft := mIsLeft c; mProjectionMatrixLeft := mProjectionMatrixLeft c;
     mInverseProjectionMatrixLeft := mInverseProjectionMatrixLeft c;
     mProjectionMatrixRight := a;
     mInverseProjectionMatrixRight := mInverseProjectionMatrixRight c;
     mViewMatrixLeft := mViewMatrixLeft c; mViewMatrixRight := mViewMatrixRight c;
     mInverseModelViewMatrixLeft := mInverseModelViewMatrixLeft c;
     mInverseModelViewMatrixRight := mInverseModelViewMatrixRight c |}.

Definition set_mInverseProjectionMatrixRight (a : mat4) (c : CameraStereo) : CameraStereo :=
  {| stereo_persp := stereo_persp c; mConvergence := mConvergence c;
     mEyeSeparation := mEyeSeparation c; mIsStereo := mIsStereo c;
     mIsLeft := mIsLeft c; mProjectionMatrixLeft := mProjectionMatrixLeft c;
     mInverseProjectionMatrixLeft := mInverseProjectionMatrixLeft c;
     mProjectionMatrixRight := mProjectionMatrixRight c;
     mInverseProjectionMatrixRight := a; mViewMatrixLeft := mViewMatrixLeft c;
     mViewMatrixRight := mViewMatrixRight c;
     mInverseModelViewMatrixLeft := mInverseModelViewMatrixLeft c;
     mInverseModelViewMatrixRight := mInverseModelViewMatrixRight c |}.

Definition set_mViewMatrixLeft (a : mat4) (c : CameraStereo) : CameraStereo :=
  {| stereo_persp := stereo_persp c; mConvergence := mConvergence c;
     mEyeSeparation := mEyeSeparation c; mIsStereo := mIsStereo c;
     mIsLeft := mIsLeft c; mProjectionMatrixLeft := mProjectionMatrixLeft c;
     mInverseProjectionMatrixLeft := mInverseProjectionMatrixLeft c;
     mProjectionMatrixRight := mProjectionMatrixRight c;
     mInverseProjectionMatrixRight := mInverseProjectionMatrixRight c;
     mViewMatrixLeft := a; mViewMatrixRight := mViewMatrixRight c;
     mInverseModelViewMatrixLeft := mInverseModelViewMatrixLeft c;
     mInverseModelViewMatrixRight := mInverseModelViewMatrixRight c |}.

Definition set_mViewMatrixRight (a : mat4) (c : CameraStereo) : CameraStereo :=
  {| stereo_persp := stereo_persp c; mConvergence := mConvergence c;
     mEyeSeparation := mEyeSeparation c; mIsStereo := mIsStereo c;
     mIsLeft := mIsLeft c; mProjectionMatrixLeft := mProjectionMatrixLeft c;
     mInverseProjectionMatrixLeft := mInverseProjectionMatrixLeft c;
     mProjectionMatrixRight := mProjectionMatrixRight c;
     mInverseProjectionMatrixRight := mInverseProjectionMatrixRight c;
     mViewMatrixLeft := mViewMatrixLeft c; mViewMatrixRight := a;
     mInverseModelViewMatrixLeft := mInverseModelViewMatrixLeft c;
     mInverseModelViewMatrixRight := mInverseModelViewMatrixRight c |}.

Definition set_mInverseModelViewMatrixLeft (a : mat4) (c : CameraStereo) : CameraStereo :=
  {| stereo_persp := stereo_persp c; mConvergence := mConvergence c;
     mEyeSeparation := mEyeSeparation c; mIsStereo := mIsStereo c;
     mIsLeft := mIsLeft c; mProjectionMatrixLeft := mProjectionMatrixLeft c;
     mInverseProjectionMatrixLeft := mInverseProjectionMatrixLeft c;
     mProjectionMatrixRight := mProjectionMatrixRight c;
     mInverseProjectionMatrixRight := mInverseProjectionMatrixRight c;
     mViewMatrixLeft := mViewMatrixLeft c; mViewMatrixRight := mViewMatrixRight c;
     mInverseModelViewMatrixLeft := a;
     mInverseModelViewMatrixRight := mInverseModelViewMatrixRight c |}.

Definition set_mInverseModelViewMatrixRight (a : mat4) (c : CameraStereo) : CameraStereo :=
  {| stereo_persp := stereo_persp c; mConvergence := mConvergence c;
     mEyeSeparation := mEyeSeparation c; mIsStereo := mIsStereo c;
     mIsLeft := mIsLeft c; mProjectionMatrixLeft := mProjectionMatrixLeft c;
     mInverseProjectionMatrixLeft := mInverseProjectionMatrixLeft c;
     mProjectionMatrixRight := mProjectionMatrixRight c;
     mInverseProjectionMatrixRight := mInverseProjectionMatrixRight c;
     mViewMatrixLeft := mViewMatrixLeft c; mViewMatrixRight := mViewMatrixRight c;
     mInverseModelViewMatrixLeft := mInverseModelViewMatrixLeft c;
     mInverseModelViewMatrixRight := a |}.

Definition stereo_camera (s : CameraStereo) : Camera := persp_camera (stereo_persp s).

Definition set_stereo_camera (b : Camera) (s : CameraStereo) : CameraStereo :=
  set_stereo_persp (set_persp_camera b (stereo_persp s)) s.

(** [CameraStereo::getEyePointShifted] (lines 444-453) *)
Definition getEyePointShifted (s : CameraStereo) : vec3 :=
  let c := stereo_camera s in
  if negb (mIsStereo s) then mEyePoint c
  else if mIsLeft s then
    mEyePoint c -^ (glm.rotate (mOrientation c) (Vec3 1 0 0) ^* (0.5 * mEyeSeparation s))
  else
    mEyePoint c +^ (glm.rotate (mOrientation c) (Vec3 1 0 0) ^* (0.5 * mEyeSeparation s)).

(** [CameraStereo::calcViewMatrix] (lines 535-557) *)
Definition CameraStereo_calcViewMatrix (s : CameraStereo) : CameraStereo :=
  (* calculate default matrix first *)
  let s := set_stereo_camera (Camera_calcViewMatrix (stereo_camera s)) s in
  let s := set_mViewMatrixLeft (mViewMatrix (stereo_camera s)) s in
  let s := set_mViewMatrixRight (mViewMatrix (stereo_camera s)) s in
  let c := stereo_camera s in
  (* calculate left matrix *)
  let eye :=
    mEyePoint c -^ (glm.rotate (mOrientation c) (Vec3 1 0 0) ^* (0.5 * mEyeSeparation s)) in
  let d := Vec3 (- glm.dot eye (mU c)) (- glm.dot eye (mV c)) (- glm.dot eye (mW c)) in
  let s := set_mViewMatrixLeft
             (mViewMatrixLeft s).[I3, I0 <- vx d].[I3, I1 <- vy d].[I3, I2 <- vz d] s in
  (* calculate right matrix *)
  let eye :=
    mEyePoint c +^ (glm.rotate (mOrientation c) (Vec3 1 0 0) ^* (0.5 * mEyeSeparation s)) in
  let d := Vec3 (- glm.dot eye (mU c)) (- glm.dot eye (mV c)) (- glm.dot eye (mW c)) in
  let s := set_mViewMatrixRight
             (mViewMatrixRight s).[I3, I0 <- vx d].[I3, I1 <- vy d].[I3, I2 <- vz d] s in
  let c := set_mModelViewCached true (stereo_camera s) in
  let c := set_mInverseModelViewCached false c in
  set_stereo_camera c s.

(** [CameraStereo::calcProjection] (lines 569-591) *)
Definition CameraStereo_calcProjection (s : CameraStereo) : CameraStereo :=
  (* calculate default matrices first *)
  let s := set_stereo_persp (CameraPersp_calcProjection (stereo_persp s)) s in
  let c := stereo_camera s in
  let s := set_mProjectionMatrixLeft (mProjectionMatrix c) s in
  let s := set_mInverseProjectionMatrixLeft (mInverseProjectionMatrix c) s in
  let s := set_mProjectionMatrixRight (mProjectionMatrix c) s in
  let s := set_mInverseProjectionMatrixRight (mInverseProjectionMatrix c) s in
  (* calculate left matrices *)
  let s := set_mInverseProjectionMatrixLeft
             (mInverseProjectionMatrixLeft s).[I2, I0 <-
                (mFrustumRight c + mFrustumLeft c
                 + mEyeSeparation s * (mNearClip c / mConvergence s))
                / (mFrustumRight c - mFrustumLeft c)] s in
  let s := set_mInverseProjectionMatrixLeft
             (mInverseProjectionMatrixLeft s).[I3, I0 <-
                (mFrustumRight c + mFrustumLeft c
                 + mEyeSeparation s * (mNearClip c / mConvergence s))
                / (2 * mNearClip c)] s in
  (* calculate right matrices *)
  let s := set_mProjectionMatrixRight
             (mProjectionMatrixRight s).[I2, I0 <-
                (mFrustumRight c + mFrustumLeft c
                 - mEyeSeparation s * (mNearClip c / mConvergence s))
                / (mFrustumRight c - mFrustumLeft c)] s in
  let s := set_mProjectionMatrixRight
             (mProjectionMatrixRight s).[I3, I0 <-
                (mFrustumRight c + mFrustumLeft c
                 - mEyeSeparation s * (mNearClip c / mConvergence s))
                / (2 * mNearClip c)] s in
  set_stereo_camera (set_mProjectionCached true (stereo_camera s)) s.

#[export] Instance CameraStereo_calc : CameraCalc CameraStereo := {
  base := stereo_camera;
  with_base := set_stereo_camera;
  calcViewMatrix := CameraStereo_calcViewMatrix;
  calcProjection := CameraStereo_calcProjection
}.

(** [CameraStereo::calcInverseView] (lines 559-567) *)
Definition CameraStereo_calcInverseView `{MatrixLib} (s : CameraStereo) : CameraStereo :=
  let s := if negb (mModelViewCached (stereo_camera s)) then calcViewMatrix s else s in
  let s := set_stereo_camera
             (set_mInverseModelViewMatrix
                (affineInverse (mViewMatrix (stereo_camera s))) (stereo_camera s)) s in
  let s := set_mInverseModelViewMatrixLeft (affineInverse (mViewMatrixLeft s)) s in
  let s := set_mInverseModelViewMatrixRight (affineInverse (mViewMatrixRight s)) s in
  set_stereo_camera (set_mInverseModelViewCached true (stereo_camera s)) s.

(** [CameraStereo::getProjectionMatrix] (lines 496-507) *)
Definition CameraStereo_getProjectionMatrix (s : CameraStereo) : mat4 * CameraStereo :=
  let s := if negb (mProjectionCached (stereo_camera s)) then calcProjection s else s in
  if negb (mIsStereo s) then (mProjectionMatrix (stereo_camera s), s)
  else if mIsLeft s then (mProjectionMatrixLeft s, s)
  else (mProjectionMatrixRight s, s).

(** [CameraStereo::getViewMatrix] (lines 509-520) *)
Definition CameraStereo_getViewMatrix (s : CameraStereo) : mat4 * CameraStereo :=
  let s := if negb (mModelViewCached (stereo_camera s)) then calcViewMatrix s else s in
  if negb (mIsStereo s) then (mViewMatrix (stereo_camera s), s)
  else if mIsLeft s then (mViewMatrixLeft s, s)
  else (mViewMatrixRight s, s).

(** [CameraStereo::getInverseViewMatrix] (lines 522-533) *)
Definition CameraStereo_getInverseViewMatrix `{MatrixLib} (s : CameraStereo)
  : mat4 * CameraStereo :=
  let s := if negb (mInverseModelViewCached (stereo_camera s))
           then CameraStereo_calcInverseView s else s in
  if negb (mIsStereo s) then (mInverseModelViewMatrix (stereo_camera s), s)
  else if mIsLeft s then (mInverseModelViewMatrixLeft s, s)
  else (mInverseModelViewMatrixRight s, s).

#[export] Instance CameraStereo_virtual `{MatrixLib} : CameraVirtual CameraStereo := {
  calcInverseView := CameraStereo_calcInverseView;
  getProjectionMatrix := CameraStereo_getProjectionMatrix;
  getViewMatrix := CameraStereo_getViewMatrix;
  getInverseViewMatrix := CameraStereo_getInverseViewMatrix
}.

(** [CameraStereo::getNearClipCoordinates] (lines 455-473) *)
Definition CameraStereo_getNearClipCoordinates (s : CameraStereo) : Corners * CameraStereo :=
  let s := calcMatrices s in
  let c := stereo_camera s in
  let viewDirection := glm.normalize (mViewDirection c) in
  let eye := getEyePointShifted s in
  let shift := 0.5 * mEyeSeparation s * (mNearClip c / mConvergence s) in
  let shift := shift * (if mIsStereo s then (if mIsLeft s then 1 else -1) else 0) in
  let left := mFrustumLeft c + shift in
  let right := mFrustumRight c + shift in
  ({| topLeft := eye +^ (mNearClip c *^ viewDirection)
                   +^ (mFrustumTop c *^ mV c) +^ (left *^ mU c);
      topRight := eye +^ (mNearClip c *^ viewDirection)
                   +^ (mFrustumTop c *^ mV c) +^ (right *^ mU c);
      bottomLeft := eye +^ (mNearClip c *^ viewDirection)
                   +^ (mFrustumBottom c *^ mV c) +^ (left *^ mU c);
      bottomRight := eye +^ (mNearClip c *^ viewDirection)
                   +^ (mFrustumBottom c *^ mV c) +^ (right *^ mU c) |},
   s).

(** [CameraStereo::getFarClipCoordinates] (lines 475-494) *)
Definition CameraStereo_getFarClipCoordinates (s : CameraStereo) : Corners * CameraStereo :=
  let s := calcMatrices s in
  let c := stereo_camera s in
  let viewDirection := glm.normalize (mViewDirection c) in
  let ratio := mFarClip c / mNearClip c in
  let eye := getEyePointShifted s in
  let shift := 0.5 * mEyeSeparation s * (mNearClip c / mConvergence s) in
  let shift := shift * (if mIsStereo s then (if mIsLeft s then 1 else -1) else 0) in
  let left := mFrustumLeft c + shift in
  let right := mFrustumRight c + shift in
  ({| topLeft := eye +^ (mFarClip c *^ viewDirection)
                   +^ (ratio * mFrustumTop c *^ mV c) +^ (ratio * left *^ mU c);
      topRight := eye +^ (mFarClip c *^ viewDirection)
                   +^ (ratio * mFrustumTop c *^ mV c) +^ (ratio * right *^ mU c);
      bottomLeft := eye +^ (mFarClip c *^ viewDirection)
                   +^ (ratio * mFrustumBottom c *^ mV c) +^ (ratio * left *^ mU c);
      bottomRight := eye +^ (mFarClip c *^ viewDirection)
                   +^ (ratio * mFrustumBottom c *^ mV c) +^ (ratio * right *^ mU c) |},
   s).

(** ** Sequences of queries

    The public [const] queries of a camera, as values, so that an arbitrary
    sequence of calls can be run on a camera.  [run_query] keeps the camera
    after the call and drops the value returned. *)
Inductive Query : Type :=
| QGetProjectionMatrix
| QGetViewMatrix
| QGetInverseViewMatrix
| QGetFrustum
| QGetNearClipCoordinates
| QGetFarClipCoordinates
| QGenerateRay (uPos vPos imagePlaneApectRatio : R)
| QGetBillboardVectors
| QWorldToScreen (worldCoord : vec3) (screenWidth screenHeight : R)
| QWorldToEyeDepth (worldCoord : vec3)
| QWorldToNdc (worldCoord : vec3).

Definition run_query {C : Type} `{CameraVirtual C} (q : Query) (this : C) : C :=
  match q with
  | QGetProjectionMatrix => snd (getProjectionMatrix this)
  | QGetViewMatrix => snd (getViewMatrix this)
  | QGetInverseViewMatrix => snd (getInverseViewMatrix this)
  | QGetFrustum => snd (getFrustum this)
  | QGetNearClipCoordinates => snd (getNearClipCoordinates this)
  | QGetFarClipCoordinates => snd (getFarClipCoordinates this)
  | QGenerateRay u v a => snd (generateRay u v a this)
  | QGetBillboardVectors => snd (getBillboardVectors this)
  | QWorldToScreen w sw sh => snd (worldToScreen w sw sh this)
  | QWorldToEyeDepth w => snd (worldToEyeDepth w this)
  | QWorldToNdc w => snd (worldToNdc w this)
  end.

Definition run_queries {C : Type} `{CameraVirtual C} (qs : list Query) (this : C) : C :=
  fold_left (fun c q => run_query q c) qs this.

(** The pose mutators of the base class, as values. *)
Inductive PoseMutation : Type :=
| SetEyePoint (aEyePoint : vec3)
| SetCenterOfInterestPoint (centerOfInterestPoint : vec3)
| SetViewDirection (aViewDirection : vec3)
| SetOrientation (aOrientation : quat)
| SetWorldUp (aWorldUp : vec3)
| LookAt (target : vec3)
| LookAt2 (aEyePoint target : vec3)
| LookAt3 (aEyePoint target aWorldUp : vec3).

Definition mutate_pose `{MatrixLib} (m : PoseMutation) (c : Camera) : Camera :=
  match m with
  | SetEyePoint a => setEyePoint a c
  | SetCenterOfInterestPoint t => setCenterOfInterestPoint t c
  | SetViewDirection d => setViewDirection d c
  | SetOrientation q => setOrientation q c
  | SetWorldUp u => setWorldUp u c
  | LookAt t => lookAt t c
  | LookAt2 e t => lookAt2 e t c
  | LookAt3 e t u => lookAt3 e t u c
  end.

(** The six extents a camera stores, in the order of [setOrtho]'s arguments. *)
Definition stored_extents (c : Camera) : R * R * R * R * R * R :=
  (mFrustumLeft c, mFrustumRight c, mFrustumBottom c, mFrustumTop c,
   mNearClip c, mFarClip c).

(** [far] is [near] with its offset from [eye] scaled by [ratio]. *)
Definition scaled_from (eye : vec3) (ratio : R) (near far : vec3) : Prop :=
  far = eye +^ (ratio *^ (near -^ eye)).

Definition corners_scaled_from (eye : vec3) (ratio : R) (near far : Corners) : Prop :=
  scaled_from eye ratio (topLeft near) (topLeft far)
  /\ scaled_from eye ratio (topRight near) (topRight far)
  /\ scaled_from eye ratio (bottomLeft near) (bottomLeft far)
  /\ scaled_from eye ratio (bottomRight near) (bottomRight far).

(** ** Concrete cameras for the examples *)

Definition identity_mat4 : mat4 :=
  Mat4 (Vec4 1 0 0 0) (Vec4 0 1 0 0) (Vec4 0 0 1 0) (Vec4 0 0 0 1).

(** A camera at the origin looking down the negative z axis, with a 90
    degree field of view, nothing cached yet. *)
Definition example_camera : Camera :=
  {| mEyePoint := Vec3 0 0 0; mViewDirection := Vec3 0 0 (-1);
     mOrientation := Quat 1 0 0 0; mCenterOfInterest := 1;
     mWorldUp := Vec3 0 1 0; mFov := 90; mAspectRatio := 1;
     mNearClip := 1; mFarClip := 2;
     mU := Vec3 1 0 0; mV := Vec3 0 1 0; mW := Vec3 0 0 1;
     mProjectionMatrix := identity_mat4; mInverseProjectionMatrix := identity_mat4;
     mProjectionCached := false;
     mViewMatrix := identity_mat4; mModelViewCached := false;
     mInverseModelViewMatrix := identity_mat4; mInverseModelViewCached := false;
     mFrustumLeft := -1; mFrustumRight := 1; mFrustumTop := 1; mFrustumBottom := -1 |}.

Definition example_persp : CameraPersp :=
  {| persp_camera := example_camera; mLensShift := Vec2 0 0 |}.

Definition example_ortho : CameraOrtho := {| ortho_camera := example_camera |}.

Definition example_stereo : CameraStereo :=
  {| stereo_persp := example_persp; mConvergence := 1; mEyeSeparation := 2;
     mIsStereo := true; mIsLeft := true;
     mProjectionMatrixLeft := identity_mat4;
     mInverseProjectionMatrixLeft := identity_mat4;
     mProjectionMatrixRight := identity_mat4;
     mInverseProjectionMatrixRight := identity_mat4;
     mViewMatrixLeft := identity_mat4; mViewMatrixRight := identity_mat4;
     mInverseModelViewMatrixLeft := identity_mat4;
     mInverseModelViewMatrixRight := identity_mat4 |}.

(** ** What the two virtual computations leave alone

    The facts about [calcViewMatrix] and [calcProjection] that the base
    class relies on: each sets its own flag, leaves the other flag, and
    neither moves the eye point or the clip distances.  They are proved for
    the three concrete cameras below. *)
Definition same_eye_and_clip (c c' : Camera) : Prop :=
  mEyePoint c' = mEyePoint c /\ mNearClip c' = mNearClip c /\ mFarClip c' = mFarClip c.

Class CalcFrame (C : Type) `{CameraCalc C} : Prop := {
  calcViewMatrix_cached :
    forall c : C, mModelViewCached (base (calcViewMatrix c)) = true;
  calcViewMatrix_projection_flag :
    forall c : C, mProjectionCached (base (calcViewMatrix c)) = mProjectionCached (base c);
  calcProjection_cached :
    forall c : C, mProjectionCached (base (calcProjection c)) = true;
  calcProjection_view_flag :
    forall c : C, mModelViewCached (base (calcProjection c)) = mModelViewCached (base c);
  calcViewMatrix_eye_clip :
    forall c : C, same_eye_and_clip (base c) (base (calcViewMatrix c));
  calcProjection_eye_clip :
    forall c : C, same_eye_and_clip (base c) (base (calcProjection c))
}.

(** C8 as a property of one camera: the far corners are the near corners
    with their offsets from the eye point scaled by [farClip / nearClip],
    both when the two queries start from the same camera and when the far
    query follows the near query. *)
Definition far_corners_scale_near {C : Type} `{CameraCalc C} (this : C) : Prop :=
  let eye := mEyePoint (base this) in
  let ratio := mFarClip (base this) / mNearClip (base this) in
  let near := getNearClipCoordinates this in
  corners_scaled_from eye ratio (fst near) (fst (getFarClipCoordinates this))
  /\ corners_scaled_from eye ratio (fst near) (fst (getFarClipCoordinates (snd near))).

(** The fields a pose mutator may write, written at once: the eye point,
    the centre of interest, the world up vector, the view direction and the
    orientation, with the view cache marked stale. *)
Definition with_pose (e : vec3) (coi : R) (up vd : vec3) (o : quat) (c : Camera) : Camera :=
  set_mModelViewCached false
    (set_mOrientation o
       (set_mViewDirection vd
          (set_mWorldUp up (set_mCenterOfInterest coi (set_mEyePoint e c))))).

(** [setPerspective] called on a stereo camera, which inherits it. *)
Definition CameraStereo_setPerspective
  (verticalFovDegrees aspectRatio nearPlane farPlane : R) (s : CameraStereo) : CameraStereo :=
  set_stereo_persp
    (setPerspective verticalFovDegrees aspectRatio nearPlane farPlane (stereo_persp s)) s.

(** [f] changes none of the six stored extents of an orthographic camera. *)
Definition keeps_extents (f : CameraOrtho -> CameraOrtho) : Prop :=
  forall o, stored_extents (ortho_camera (f o)) = stored_extents (ortho_camera o).

(** The offset of a stereo eye from the eye point: half the eye separation
    along the rotated x axis (lines 450 and 452). *)
Definition eye_offset (s : CameraStereo) : vec3 :=
  glm.rotate (mOrientation (stereo_camera s)) (Vec3 1 0 0) ^* (0.5 * mEyeSeparation s).

(** The distance [calcFraming] pulls the camera back by: the larger of the
    horizontal and the vertical fitting distance. *)
Definition framing_distance (p : CameraPersp) (sph : Sphere) : R :=
  Rmax (getRadius sph / sin (toRadians (getFovHorizontal (persp_camera p)) / 2))
       (getRadius sph / sin (toRadians (getFov (persp_camera p)) / 2)).

(** [example_persp] with its view matrix marked as cached. *)
Definition example_persp_cached : CameraPersp :=
  set_persp_camera (set_mModelViewCached true example_camera) example_persp.

Definition unit_sphere : Sphere := {| getCenter := Vec3 0 0 0; getRadius := 1 |}.

(** A sphere value whose radius field is negative. *)
Definition negative_sphere : Sphere := {| getCenter := Vec3 0 0 0; getRadius := -1 |}.

(** ** The matrices in closed form

    The matrices below list, column by column, the sixteen entries that the
    computations of the source write one at a time.  The properties section
    proves that the computations produce them. *)

(** The view matrix of a basis [U], [V], [W] and a translation [d]. *)
Definition view_matrix (U V W d : vec3) : mat4 :=
  Mat4 (Vec4 (vx U) (vx V) (vx W) 0)
       (Vec4 (vy U) (vy V) (vy W) 0)
       (Vec4 (vz U) (vz V) (vz W) 0)
       (Vec4 (vx d) (vy d) (vz d) 1).

(** The off-centre perspective matrix of a frustum, and its inverse. *)
Definition frustum_matrix (L R' B T n f : R) : mat4 :=
  Mat4 (Vec4 (2 * n / (R' - L)) 0 0 0)
       (Vec4 0 (2 * n / (T - B)) 0 0)
       (Vec4 ((R' + L) / (R' - L)) ((T + B) / (T - B)) (- (f + n) / (f - n)) (-1))
       (Vec4 0 0 (-2 * f * n / (f - n)) 0).

Definition frustum_inverse (L R' B T n f : R) : mat4 :=
  Mat4 (Vec4 ((R' - L) / (2 * n)) 0 0 0)
       (Vec4 0 ((T - B) / (2 * n)) 0 0)
       (Vec4 0 0 0 (- (f - n) / (2 * f * n)))
       (Vec4 ((R' + L) / (2 * n)) ((T + B) / (2 * n)) (-1) ((f + n) / (2 * f * n))).

(** The orthographic matrix of a box, and its inverse. *)
Definition ortho_matrix (L R' B T n f : R) : mat4 :=
  Mat4 (Vec4 (2 / (R' - L)) 0 0 0)
       (Vec4 0 (2 / (T - B)) 0 0)
       (Vec4 0 0 (-2 / (f - n)) 0)
       (Vec4 (- (R' + L) / (R' - L)) (- (T + B) / (T - B)) (- (f + n) / (f - n)) 1).

Definition ortho_inverse (L R' B T n f : R) : mat4 :=
  Mat4 (Vec4 ((R' - L) * 0.5) 0 0 0)
       (Vec4 0 ((T - B) * 0.5) 0 0)
       (Vec4 0 0 ((f - n) * 0.5) 0)
       (Vec4 ((R' + L) * 0.5) ((T + B) * 0.5) ((n + f) * 0.5) 1).

(** The matrix of a camera's stored extents. *)
Definition frustum_matrix_of (c : Camera) : mat4 :=
  frustum_matrix (mFrustumLeft c) (mFrustumRight c) (mFrustumBottom c) (mFrustumTop c)
    (mNearClip c) (mFarClip c).

Definition frustum_inverse_of (c : Camera) : mat4 :=
  frustum_inverse (mFrustumLeft c) (mFrustumRight c) (mFrustumBottom c) (mFrustumTop c)
    (mNearClip c) (mFarClip c).

Definition ortho_matrix_of (c : Camera) : mat4 :=
  ortho_matrix (mFrustumLeft c) (mFrustumRight c) (mFrustumBottom c) (mFrustumTop c)
    (mNearClip c) (mFarClip c).

Definition ortho_inverse_of (c : Camera) : mat4 :=
  ortho_inverse (mFrustumLeft c) (mFrustumRight c) (mFrustumBottom c) (mFrustumTop c)
    (mNearClip c) (mFarClip c).

(** The basis and the translation that [calcViewMatrix] derives. *)
Definition basis_U (c : Camera) : vec3 := glm.rotate (mOrientation c) (Vec3 1 0 0).
Definition basis_V (c : Camera) : vec3 := glm.rotate (mOrientation c) (Vec3 0 1 0).
Definition basis_W (c : Camera) : vec3 := -^ glm.normalize (mViewDirection c).

Definition eye_translation (eye U V W : vec3) : vec3 :=
  Vec3 (- glm.dot eye U) (- glm.dot eye V) (- glm.dot eye W).

(** The left inverse projection and the right projection of a stereo
    camera: the cyclopean matrix [m] with entries [2][0] and [3][0]
    overwritten (lines 581-588); [k] is [eyeSeparation * (near /
    convergence)], added for the left eye and subtracted for the right. *)
Definition stereo_skewed (m : mat4) (c : Camera) (k : R) : mat4 :=
  m.[I2, I0 <- (mFrustumRight c + mFrustumLeft c + k)
               / (mFrustumRight c - mFrustumLeft c)]
   .[I3, I0 <- (mFrustumRight c + mFrustumLeft c + k) / (2 * mNearClip c)].

(** The fields [setPerspective] writes, written at once. *)
Definition with_lens (fov aspect near far : R) (c : Camera) : Camera :=
  set_mProjectionCached false
    (set_mFarClip far (set_mNearClip near (set_mAspectRatio aspect (set_mFov fov c)))).

(** A function on the [Camera] part, run on each concrete camera. *)
Definition on_persp (f : Camera -> Camera) (p : CameraPersp) : CameraPersp :=
  set_persp_camera (f (persp_camera p)) p.

Definition on_ortho (f : Camera -> Camera) (o : CameraOrtho) : CameraOrtho :=
  set_ortho_camera (f (ortho_camera o)) o.

Definition on_stereo (f : Camera -> Camera) (s : CameraStereo) : CameraStereo :=
  set_stereo_camera (f (stereo_camera s)) s.

(** The view matrix of one stereo eye (lines 543-553): the cyclopean view
    matrix of [c] with its translation column recomputed for the eye point
    moved by [shift] ([vsub] for the left eye, [vadd] for the right) along
    the rotated x axis. *)
Definition stereo_view (shift : vec3 -> vec3 -> vec3) (c : Camera) (eyeSeparation : R)
  : mat4 :=
  let eye :=
    shift (mEyePoint c)
      (glm.rotate (mOrientation c) (Vec3 1 0 0) ^* (0.5 * eyeSeparation)) in
  let d := Vec3 (- glm.dot eye (mU c)) (- glm.dot eye (mV c)) (- glm.dot eye (mW c)) in
  (mViewMatrix c).[I3, I0 <- vx d].[I3, I1 <- vy d].[I3, I2 <- vz d].

(** What [calcMatrices] does to the [CameraPersp] part of a stereo camera;
    the eye separation and the eye selector do not occur in it. *)
Definition stereo_persp_calcMatrices (p : CameraPersp) : CameraPersp :=
  let p :=
    if negb (mModelViewCached (persp_camera p))
    then on_persp (fun c => set_mInverseModelViewCached false
                              (set_mModelViewCached true (Camera_calcViewMatrix c))) p
    else p in
  if negb (mProjectionCached (persp_camera p))
  then on_persp (set_mProjectionCached true) (CameraPersp_calcProjection p)
  else p.

(** ** Notions used by the further properties *)

(** [m'] undoes [m] on every homogeneous vector. *)
Definition undoes (m' m : mat4) : Prop :=
  forall v : vec4, glm.mul_m4_v4 m' (glm.mul_m4_v4 m v) = v.

(** A value of [MatrixLib] for the examples.  The properties hold for
    every value of the class; this one only serves to run them. *)
Definition example_lib : MatrixLib :=
  {| alignZAxisWithTarget := fun _ _ => identity_mat4;
     toQuat := fun _ => Quat 1 0 0 0;
     inverse := fun m => m;
     affineInverse := fun m => m |}.

(** ** Coherence of the caches

    The view matrix that [Camera::calcViewMatrix] computes from the pose of
    [c], and what it means for the view cache of [c] to be coherent: when
    the flag says the cache is valid, the stored matrix and the stored
    basis are the ones of the current pose. *)
Definition view_matrix_of (c : Camera) : mat4 :=
  view_matrix (basis_U c) (basis_V c) (basis_W c)
    (eye_translation (mEyePoint c) (basis_U c) (basis_V c) (basis_W c)).

Definition view_coherent (c : Camera) : Prop :=
  mModelViewCached c = true ->
  mViewMatrix c = view_matrix_of c
  /\ mU c = basis_U c /\ mV c = basis_V c /\ mW c = basis_W c.

(** The extents that [CameraPersp::calcProjection] derives from the lens
    (lines 279-293), in the order of [stored_extents]. *)
Definition lens_extents (p : CameraPersp) : R * R * R * R * R * R :=
  let c := persp_camera p in
  let top := mNearClip c * tan (toRadians (mFov c) / 2) in
  (- (top * mAspectRatio c) * (1 - x2 (mLensShift p)),
   top * mAspectRatio c * (1 + x2 (mLensShift p)),
   - top * (1 - y2 (mLensShift p)),
   top * (1 + y2 (mLensShift p)),
   mNearClip c, mFarClip c).

(** The projection cache of a perspective camera is coherent: when the
    flag says it is valid, the stored extents are those of the lens and
    the two stored matrices are those of the extents. *)
Definition projection_coherent (p : CameraPersp) : Prop :=
  mProjectionCached (persp_camera p) = true ->
  stored_extents (persp_camera p) = lens_extents p
  /\ mProjectionMatrix (persp_camera p) = frustum_matrix_of (persp_camera p)
  /\ mInverseProjectionMatrix (persp_camera p) = frustum_inverse_of (persp_camera p).

Definition coherent (p : CameraPersp) : Prop :=
  view_coherent (persp_camera p) /\ projection_coherent p.




(** The perspective matrix of six extents, in the order of
    [stored_extents]. *)
Definition frustum_matrix_of_extents (e : R * R * R * R * R * R) : mat4 :=
  let '(L, R', B, T, n, f) := e in frustum_matrix L R' B T n f.

(** What the user sets on a perspective camera: the pose and the lens. *)
Definition pose_and_lens (p : CameraPersp)
  : vec3 * vec3 * quat * (R * R * R * R) * vec2 :=
  let c := persp_camera p in
  (mEyePoint c, mViewDirection c, mOrientation c,
   (mFov c, mAspectRatio c, mNearClip c, mFarClip c), mLensShift p).

(** The cameras that use the base class view matrix as it is: their
    [getViewMatrix] is the accessor of [Camera] and their [calcViewMatrix]
    is [Camera::calcViewMatrix].  [CameraPersp] and [CameraOrtho] are such
    cameras; [CameraStereo] overrides both. *)
Class PlainView (C : Type) `{CameraVirtual C} : Prop := {
  plain_getViewMatrix : forall c : C, getViewMatrix c = Camera_getViewMatrix c;
  plain_calcViewMatrix :
    forall c : C, base (calcViewMatrix c) = Camera_calcViewMatrix (base c)
}.

(** The pixel position of a point given in normalized device coordinates
    (lines 164-165): x grows to the right, y grows downwards. *)
Definition ndc_to_screen (ndc : vec3) (screenWidth screenHeight : R) : vec2 :=
  Vec2 ((vx ndc + 1) / 2 * screenWidth) ((1 - (vy ndc + 1) / 2) * screenHeight).

(** ** Constructors

    The constructors of Camera.cpp start from the object that the default
    constructor [Camera()] and the member initialisers of Camera.h leave;
    these are not part of the source, so that object is the argument
    [init], about which nothing is assumed. *)

(** [CameraPersp::CameraPersp( int pixelWidth, int pixelHeight, float
    fovDegrees )] (lines 226-240) *)
Definition CameraPersp_of_pixels `{MatrixLib} (init : CameraPersp)
  (pixelWidth pixelHeight : Z) (fovDegrees : R) : CameraPersp :=
  let eyeX := IZR pixelWidth / 2 in
  let eyeY := IZR pixelHeight / 2 in
  let halfFov := 3.14159 * fovDegrees / 360 in
  let theTan := tan halfFov in
  let dist := eyeY / theTan in
  let nearDist := dist / 10 in
  let farDist := dist * 10 in
  let aspect := IZR pixelWidth / IZR pixelHeight in
  let this := setPerspective fovDegrees aspect nearDist farDist init in
  inherited (lookAt2 (Vec3 eyeX eyeY dist) (Vec3 eyeX eyeY 0)) this.

(** [CameraPersp::CameraPersp( int pixelWidth, int pixelHeight, float
    fovDegrees, float nearPlane, float farPlane )] (lines 242-255) *)
Definition CameraPersp_of_pixels_clip `{MatrixLib} (init : CameraPersp)
  (pixelWidth pixelHeight : Z) (fovDegrees nearPlane farPlane : R) : CameraPersp :=
  let eyeX := IZR pixelWidth / 2 in
  let eyeY := IZR pixelHeight / 2 in
  let halfFov := 3.14159 * fovDegrees / 360 in
  let theTan := tan halfFov in
  let dist := eyeY / theTan in
  let aspect := IZR pixelWidth / IZR pixelHeight in
  let this := setPerspective fovDegrees aspect nearPlane farPlane init in
  inherited (lookAt2 (Vec3 eyeX eyeY dist) (Vec3 eyeX eyeY 0)) this.

(** [CameraOrtho::CameraOrtho( float left, float right, float bottom,
    float top, float nearPlane, float farPlane )] (lines 368-380) *)
Definition CameraOrtho_of_extents (init : CameraOrtho)
  (left right bottom top nearPlane farPlane : R) : CameraOrtho :=
  let c := ortho_camera init in
  let c := set_mFrustumLeft left c in
  let c := set_mFrustumRight right c in
  let c := set_mFrustumTop top c in
  let c := set_mFrustumBottom bottom c in
  let c := set_mNearClip nearPlane c in
  let c := set_mFarClip farPlane c in
  let c := set_mProjectionCached false c in
  let c := set_mModelViewCached true c in
  let c := set_mInverseModelViewCached true c in
  set_ortho_camera c init.

(** The view state that the queries of a camera read: the view matrix, its
    inverse and the basis. *)
Definition view_state (c : Camera) : mat4 * mat4 * (vec3 * vec3 * vec3) :=
  (mViewMatrix c, mInverseModelViewMatrix c, (mU c, mV c, mW c)).

(** The inverse view matrix that [CameraStereo::getInverseViewMatrix]
    selects (lines 527-532). *)
Definition selected_inverse_view (s : CameraStereo) : mat4 :=
  if negb (mIsStereo s) then mInverseModelViewMatrix (stereo_camera s)
  else if mIsLeft s then mInverseModelViewMatrixLeft s
  else mInverseModelViewMatrixRight s.

(** Both view flags of an orthographic camera are set and its view state
    is [st]. *)
Definition view_frozen (st : mat4 * mat4 * (vec3 * vec3 * vec3)) (o : CameraOrtho) : Prop :=
  mModelViewCached (ortho_camera o) = true
  /\ mInverseModelViewCached (ortho_camera o) = true
  /\ view_state (ortho_camera o) = st.

(** The homogeneous divide of [worldToNdc] (line 182). *)
Definition perspective_divide (v : vec4) : vec3 :=
  Vec3 (x4 v / w4 v) (y4 v / w4 v) (z4 v / w4 v).

(** The view and the projection matrix that the selector accessors of a
    stereo camera return (lines 501-506 and 514-519). *)
Definition selected_view (s : CameraStereo) : mat4 :=
  if negb (mIsStereo s) then mViewMatrix (stereo_camera s)
  else if mIsLeft s then mViewMatrixLeft s else mViewMatrixRight s.

Definition selected_projection (s : CameraStereo) : mat4 :=
  if negb (mIsStereo s) then mProjectionMatrix (stereo_camera s)
  else if mIsLeft s then mProjectionMatrixLeft s else mProjectionMatrixRight s.

(** * Properties *)

(** Reduction of record reads and writes, and of nothing else: the field
    projections, the field setters and the matrix subscripts, in the goal
    and in the hypotheses. *)
Ltac fields :=
  lazy beta iota zeta delta [
    x2 y2 vx vy vz x4 y4 z4 w4 qw qx qy qz col0 col1 col2 col3 mEyePoint
    mViewDirection mOrientation mCenterOfInterest mWorldUp mFov mAspectRatio
    mNearClip mFarClip mU mV mW mProjectionMatrix mInverseProjectionMatrix
    mProjectionCached mViewMatrix mModelViewCached mInverseModelViewMatrix
    mInverseModelViewCached mFrustumLeft mFrustumRight mFrustumTop mFrustumBottom
    topLeft topRight bottomLeft bottomRight out_left out_top out_right out_bottom
    out_near out_far ray_origin ray_direction getCenter getRadius persp_camera
    mLensShift ortho_camera stereo_persp mConvergence mEyeSeparation mIsStereo
    mIsLeft mProjectionMatrixLeft mInverseProjectionMatrixLeft mProjectionMatrixRight
    mInverseProjectionMatrixRight mViewMatrixLeft mViewMatrixRight
    mInverseModelViewMatrixLeft mInverseModelViewMatrixRight set_mEyePoint
    set_mViewDirection set_mOrientation set_mCenterOfInterest set_mWorldUp set_mFov
    set_mAspectRatio set_mNearClip set_mFarClip set_mU set_mV set_mW
    set_mProjectionMatrix set_mInverseProjectionMatrix set_mProjectionCached
    set_mViewMatrix set_mModelViewCached set_mInverseModelViewMatrix
    set_mInverseModelViewCached set_mFrustumLeft set_mFrustumRight set_mFrustumTop
    set_mFrustumBottom set_persp_camera set_mLensShift set_ortho_camera
    set_stereo_persp set_mConvergence set_mEyeSeparation set_mIsStereo set_mIsLeft
    set_mProjectionMatrixLeft set_mInverseProjectionMatrixLeft
    set_mProjectionMatrixRight set_mInverseProjectionMatrixRight set_mViewMatrixLeft
    set_mViewMatrixRight set_mInverseModelViewMatrixLeft
    set_mInverseModelViewMatrixRight set_stereo_camera mget mset mcol vget vset fst
    snd negb ] in *.

(** Case analysis of a camera into its fields, so that every field read
    computes. *)
Ltac break_camera c := destruct c as [? ? ? ? ? ? ? ? ? ? ? ? ? ? ? ? ? ? ? ? ? ? ?].
Ltac break_persp p :=
  let c := fresh "c" in let l := fresh "l" in
  destruct p as [c l]; break_camera c; destruct l as [? ?].
Ltac break_ortho o :=
  let c := fresh "c" in destruct o as [c]; break_camera c.
(** Resolution of the virtual calls of a concrete camera. *)
Ltac open_class :=
  cbv beta iota delta [calcProjection calcViewMatrix base with_base
                       calcInverseView getProjectionMatrix getViewMatrix
                       getInverseViewMatrix
                       CameraPersp_calc CameraOrtho_calc CameraStereo_calc
                       CameraPersp_virtual CameraOrtho_virtual CameraStereo_virtual].

(** The two tests of the lens shift against zero. *)
Ltac lens_shift_cases :=
  repeat match goal with
         | |- context [Req_dec_T ?a 0] => destruct (Req_dec_T a 0)
         end.

(** ** Reading the matrices back *)

Lemma mget_mset (m : mat4) (c r c' r' : idx) (a : R) :
  (m.[c, r <- a]).[c', r'] = if idx_eqb c c' && idx_eqb r r' then a else m.[c', r'].
Proof. destruct c, c', r, r'; reflexivity. Qed.

(** ** The view matrix *)

(** [Camera::calcViewMatrix] in one step: the basis, the matrix of the
    basis and of the eye translation, and the two flags. *)
Lemma Camera_calcViewMatrix_closed (c : Camera) :
  Camera_calcViewMatrix c
  = set_mInverseModelViewCached false
      (set_mModelViewCached true
         (set_mViewMatrix
            (view_matrix (basis_U c) (basis_V c) (basis_W c)
               (eye_translation (mEyePoint c) (basis_U c) (basis_V c) (basis_W c)))
            (set_mV (basis_V c) (set_mU (basis_U c) (set_mW (basis_W c) c))))).
Proof.
  break_camera c.
  cbv delta [Camera_calcViewMatrix basis_U basis_V basis_W view_matrix
             eye_translation glm.dot]; cbv beta.
  fields.
  generalize (glm.rotate mOrientation0 (Vec3 1 0 0)) as U.
  generalize (glm.rotate mOrientation0 (Vec3 0 1 0)) as V.
  generalize (-^ glm.normalize mViewDirection0) as W.
  intros W V U. destruct U, V, W, mEyePoint0. reflexivity.
Qed.

(** C2.  The view matrix that [Camera::calcViewMatrix] stores sends the
    homogeneous eye point [(eyePoint, 1)] to [(0, 0, 0, 1)]: each of the
    first three components is [dot(eye, axis) - dot(eye, axis)], which is
    zero in exact arithmetic, whatever the eye point and the orientation. *)
Theorem calcViewMatrix_eye_to_origin (c : Camera) :
  glm.mul_m4_v4 (mViewMatrix (Camera_calcViewMatrix c)) (vec4_of (mEyePoint c) 1)
  = Vec4 0 0 0 1.
Proof.
  rewrite Camera_calcViewMatrix_closed.
  generalize (basis_U c) (basis_V c) (basis_W c) (mEyePoint c).
  intros U V W e.
  cbn [mViewMatrix set_mInverseModelViewCached set_mModelViewCached set_mViewMatrix].
  unfold view_matrix, eye_translation, glm.dot, glm.mul_m4_v4, vec4_of, mget.
  cbn [mcol vget col0 col1 col2 col3 x4 y4 z4 w4 vx vy vz].
  f_equal; ring.
Qed.

(** ** Projection matrices *)

Lemma half_eq : 0.5 = / 2.
Proof. lra. Qed.

(** The frustum block in closed form: the four extents are the symmetric
    ones, each scaled by one plus or minus the shift; no other field
    changes. *)
Lemma calcProjection_frustum_closed (p : CameraPersp) :
  let c := persp_camera p in
  let top := mNearClip c * tan (toRadians (mFov c) / 2) in
  let sx := x2 (mLensShift p) in
  let sy := y2 (mLensShift p) in
  calcProjection_frustum p
  = set_mFrustumLeft (- (top * mAspectRatio c) * (1 - sx))
      (set_mFrustumRight (top * mAspectRatio c * (1 + sx))
         (set_mFrustumBottom (- top * (1 - sy))
            (set_mFrustumTop (top * (1 + sy)) c))).
Proof.
  intros c top sx sy. subst c top sx sy.
  assert (A : forall x, M_PI / 180 * x * 0.5 = toRadians x / 2)
    by (intros x; unfold M_PI, toRadians; lra).
  break_persp p. cbv delta [calcProjection_frustum]; cbv beta. fields.
  lens_shift_cases; subst; fields; unfold lerp; rewrite !A, ?half_eq;
    f_equal; field.
Qed.

(** The two matrix blocks write all sixteen entries: what was stored
    before does not matter. *)
Lemma calcProjection_matrix_closed (c : Camera) :
  calcProjection_matrix c = frustum_matrix_of c.
Proof.
  break_camera c.
  cbv delta [calcProjection_matrix frustum_matrix_of frustum_matrix]; cbv beta.
  fields. reflexivity.
Qed.

Lemma calcProjection_inverse_closed (c : Camera) :
  calcProjection_inverse c = frustum_inverse_of c.
Proof.
  break_camera c.
  cbv delta [calcProjection_inverse frustum_inverse_of frustum_inverse]; cbv beta.
  fields. reflexivity.
Qed.

(** What [CameraPersp::calcProjection] leaves in the camera: the frustum
    block, then the two matrices computed from it, then the flag. *)
Lemma CameraPersp_calcProjection_eq (p : CameraPersp) :
  CameraPersp_calcProjection p
  = set_persp_camera
      (set_mProjectionCached true
         (set_mInverseProjectionMatrix
            (calcProjection_inverse (calcProjection_frustum p))
            (set_mProjectionMatrix
               (calcProjection_matrix (calcProjection_frustum p))
               (calcProjection_frustum p)))) p.
Proof. reflexivity. Qed.

Lemma CameraPersp_calcProjection_closed (p : CameraPersp) :
  CameraPersp_calcProjection p
  = set_persp_camera
      (set_mProjectionCached true
         (set_mInverseProjectionMatrix (frustum_inverse_of (calcProjection_frustum p))
            (set_mProjectionMatrix (frustum_matrix_of (calcProjection_frustum p))
               (calcProjection_frustum p)))) p.
Proof.
  rewrite CameraPersp_calcProjection_eq.
  rewrite calcProjection_matrix_closed, calcProjection_inverse_closed.
  reflexivity.
Qed.

(** The fields of the camera after [CameraPersp::calcProjection]. *)
Lemma calcProjection_extents (p : CameraPersp) :
  let c := persp_camera p in
  let c' := persp_camera (CameraPersp_calcProjection p) in
  let top := mNearClip c * tan (toRadians (mFov c) / 2) in
  let sx := x2 (mLensShift p) in
  let sy := y2 (mLensShift p) in
  mFrustumTop c' = top * (1 + sy)
  /\ mFrustumBottom c' = - top * (1 - sy)
  /\ mFrustumRight c' = top * mAspectRatio c * (1 + sx)
  /\ mFrustumLeft c' = - (top * mAspectRatio c) * (1 - sx).
Proof.
  intros c c' top sx sy. subst c'.
  rewrite CameraPersp_calcProjection_eq.
  generalize (calcProjection_matrix (calcProjection_frustum p)).
  generalize (calcProjection_inverse (calcProjection_frustum p)).
  intros m m'.
  pose proof (calcProjection_frustum_closed p) as F. cbv zeta in F. rewrite F.
  repeat split.
Qed.

(** C5.  The lens shift of [CameraPersp::calcProjection] moves the frustum
    about the optical axis without changing its size: whatever the shift,
    the field of view, the aspect ratio and the near clip, the stored
    extents satisfy [top - bottom = 2 near tan(radians(fov)/2)] and
    [right - left = 2 near tan(radians(fov)/2) aspect], which are the
    totals of the same camera with the shift set to zero. *)
Theorem calcProjection_lens_shift_extent (p : CameraPersp) :
  let c := persp_camera p in
  let c' := persp_camera (CameraPersp_calcProjection p) in
  let c0 := persp_camera (CameraPersp_calcProjection (setLensShift 0 0 p)) in
  mFrustumTop c' - mFrustumBottom c'
    = 2 * mNearClip c * tan (toRadians (mFov c) / 2)
  /\ mFrustumRight c' - mFrustumLeft c'
    = 2 * mNearClip c * tan (toRadians (mFov c) / 2) * mAspectRatio c
  /\ mFrustumTop c' - mFrustumBottom c' = mFrustumTop c0 - mFrustumBottom c0
  /\ mFrustumRight c' - mFrustumLeft c' = mFrustumRight c0 - mFrustumLeft c0.
Proof.
  intros c c' c0. subst c c' c0.
  pose proof (calcProjection_extents p) as E.
  pose proof (calcProjection_extents (setLensShift 0 0 p)) as E0.
  cbv zeta in E, E0.
  change (mLensShift (setLensShift 0 0 p)) with (Vec2 0 0) in E0.
  change (mNearClip (persp_camera (setLensShift 0 0 p)))
    with (mNearClip (persp_camera p)) in E0.
  change (mFov (persp_camera (setLensShift 0 0 p)))
    with (mFov (persp_camera p)) in E0.
  change (mAspectRatio (persp_camera (setLensShift 0 0 p)))
    with (mAspectRatio (persp_camera p)) in E0.
  cbn [x2 y2] in E0.
  destruct E as (T & B & R & L), E0 as (T0 & B0 & R0 & L0).
  rewrite T, B, R, L, T0, B0, R0, L0.
  repeat split; ring.
Qed.
(** [CameraStereo::calcProjection] in one step: the perspective
    computation, the four copies, the four overwritten entries, the flag. *)
Lemma CameraStereo_calcProjection_closed (s : CameraStereo) (q : CameraPersp) :
  q = CameraPersp_calcProjection (stereo_persp s) ->
  CameraStereo_calcProjection s
  = set_stereo_persp
      (set_persp_camera (set_mProjectionCached true (persp_camera q)) q)
      (set_mProjectionMatrixRight
         (stereo_skewed (mProjectionMatrix (persp_camera q)) (persp_camera q)
            (- (mEyeSeparation s * (mNearClip (persp_camera q) / mConvergence s))))
         (set_mInverseProjectionMatrixLeft
            (stereo_skewed (mInverseProjectionMatrix (persp_camera q)) (persp_camera q)
               (mEyeSeparation s * (mNearClip (persp_camera q) / mConvergence s)))
            (set_mInverseProjectionMatrixRight (mInverseProjectionMatrix (persp_camera q))
               (set_mProjectionMatrixRight (mProjectionMatrix (persp_camera q))
                  (set_mInverseProjectionMatrixLeft
                     (mInverseProjectionMatrix (persp_camera q))
                     (set_mProjectionMatrixLeft (mProjectionMatrix (persp_camera q))
                        s)))))).
Proof.
  intros E.
  cbv delta [CameraStereo_calcProjection stereo_camera set_stereo_camera]; cbv beta.
  rewrite <- E. clear E.
  destruct s; destruct q as [c l]; break_camera c.
  cbv delta [stereo_skewed]; cbv beta. fields.
  destruct mProjectionMatrix0 as [[? ? ? ?] [? ? ? ?] [? ? ? ?] [? ? ? ?]].
  destruct mInverseProjectionMatrix0 as [[? ? ? ?] [? ? ? ?] [? ? ? ?] [? ? ? ?]].
  fields. unfold Rminus. rewrite ?Ropp_involutive. reflexivity.
Qed.

(** C3.  [CameraStereo::calcProjection] copies the projection and the
    inverse projection of the perspective base into the left and right
    matrices and then overwrites four entries: [2][0] and [3][0] of the
    left inverse projection (with [+ eyeSeparation * (near/convergence)])
    and [2][0] and [3][0] of the right projection (with [-]).  Every other
    entry is the cyclopean one; the left projection and the right inverse
    projection are the cyclopean matrices themselves. *)
Theorem stereo_calcProjection_entries (s : CameraStereo) :
  let s' := CameraStereo_calcProjection s in
  let cyclopean := persp_camera (CameraPersp_calcProjection (stereo_persp s)) in
  let R' := mFrustumRight (stereo_camera s') in
  let L' := mFrustumLeft (stereo_camera s') in
  let near := mNearClip (stereo_camera s') in
  let k := mEyeSeparation s' * (near / mConvergence s') in
  mProjectionMatrix (stereo_camera s') = mProjectionMatrix cyclopean
  /\ mInverseProjectionMatrix (stereo_camera s') = mInverseProjectionMatrix cyclopean
  /\ mProjectionMatrixLeft s' = mProjectionMatrix cyclopean
  /\ mInverseProjectionMatrixRight s' = mInverseProjectionMatrix cyclopean
  /\ (forall c r,
        (mInverseProjectionMatrixLeft s').[c, r] =
          match c, r with
          | I2, I0 => (R' + L' + k) / (R' - L')
          | I3, I0 => (R' + L' + k) / (2 * near)
          | _, _ => (mInverseProjectionMatrix cyclopean).[c, r]
          end)
  /\ (forall c r,
        (mProjectionMatrixRight s').[c, r] =
          match c, r with
          | I2, I0 => (R' + L' - k) / (R' - L')
          | I3, I0 => (R' + L' - k) / (2 * near)
          | _, _ => (mProjectionMatrix cyclopean).[c, r]
          end).
Proof.
  intros s' cyclopean R' L' near k. subst s' cyclopean R' L' near k.
  rewrite (CameraStereo_calcProjection_closed s _ eq_refl).
  generalize (CameraPersp_calcProjection (stereo_persp s)); intros q.
  unfold stereo_camera, stereo_skewed.
  cbn [stereo_persp set_stereo_persp persp_camera set_persp_camera
       set_mProjectionMatrixLeft set_mProjectionMatrixRight
       set_mInverseProjectionMatrixLeft set_mInverseProjectionMatrixRight
       mProjectionMatrixLeft mProjectionMatrixRight
       mInverseProjectionMatrixLeft mInverseProjectionMatrixRight
       mEyeSeparation mConvergence].
  generalize (persp_camera q); intros c.
  cbn [set_mProjectionCached mProjectionMatrix mInverseProjectionMatrix
       mFrustumRight mFrustumLeft mNearClip].
  repeat split; intros i j; rewrite !mget_mset; destruct i, j; cbn [idx_eqb andb];
    try reflexivity; unfold Rminus; reflexivity.
Qed.
(** [CameraOrtho::calcProjection] in one step. *)
Lemma CameraOrtho_calcProjection_closed (o : CameraOrtho) :
  CameraOrtho_calcProjection o
  = set_ortho_camera
      (set_mProjectionCached true
         (set_mInverseProjectionMatrix (ortho_inverse_of (ortho_camera o))
            (set_mProjectionMatrix (ortho_matrix_of (ortho_camera o))
               (ortho_camera o)))) o.
Proof.
  break_ortho o.
  cbv delta [CameraOrtho_calcProjection ortho_inverse_of ortho_matrix_of
             ortho_matrix ortho_inverse]; cbv beta.
  fields. reflexivity.
Qed.

(** C6.  After [setOrtho(L, R, B, T, near, far)] with [R <> L], [T <> B]
    and [far <> near], the orthographic projection matrix sends the
    eye-space point [(L, B, -near)] to [(-1, -1, -1)] and [(R, T, -far)] to
    [(1, 1, 1)]; the fourth component is 1 in both cases, so the
    homogeneous divide changes nothing. *)
Theorem ortho_projection_corners (o : CameraOrtho) (L R' B T near far : R) :
  R' <> L -> T <> B -> far <> near ->
  let proj := fst (Camera_getProjectionMatrix (setOrtho L R' B T near far o)) in
  glm.mul_m4_v4 proj (Vec4 L B (- near) 1) = Vec4 (-1) (-1) (-1) 1
  /\ glm.mul_m4_v4 proj (Vec4 R' T (- far) 1) = Vec4 1 1 1 1.
Proof.
  intros HRL HTB Hfn proj. subst proj.
  assert (R' - L <> 0) by lra.
  assert (T - B <> 0) by lra.
  assert (far - near <> 0) by lra.
  cbv delta [Camera_getProjectionMatrix]; cbv beta. open_class.
  change (mProjectionCached (ortho_camera (setOrtho L R' B T near far o))) with false.
  cbn [negb fst].
  rewrite CameraOrtho_calcProjection_closed.
  generalize (ortho_camera o); intros c.
  unfold ortho_matrix_of, ortho_matrix, setOrtho, glm.mul_m4_v4, mget.
  cbn [ortho_camera set_ortho_camera mProjectionMatrix set_mProjectionCached
       set_mInverseProjectionMatrix set_mProjectionMatrix
       set_mFarClip set_mNearClip set_mFrustumBottom set_mFrustumTop
       set_mFrustumRight set_mFrustumLeft
       mFrustumLeft mFrustumRight mFrustumBottom mFrustumTop mNearClip mFarClip
       mcol vget col0 col1 col2 col3 x4 y4 z4 w4].
  split; f_equal; field; assumption.
Qed.

Lemma ortho_projection_corners_witness :
  glm.mul_m4_v4
    (fst (Camera_getProjectionMatrix (setOrtho (-2) 2 (-1) 1 1 10 example_ortho)))
    (Vec4 (-2) (-1) (- 1) 1) = Vec4 (-1) (-1) (-1) 1
  /\ glm.mul_m4_v4
    (fst (Camera_getProjectionMatrix (setOrtho (-2) 2 (-1) 1 1 10 example_ortho)))
    (Vec4 2 1 (- 10) 1) = Vec4 1 1 1 1.
Proof.
  apply (ortho_projection_corners example_ortho (-2) 2 (-1) 1 1 10); lra.
Defined.

(** ** Frame lemmas for the three cameras *)

Lemma Camera_calcViewMatrix_frame (c : Camera) :
  same_eye_and_clip c (Camera_calcViewMatrix c)
  /\ mProjectionCached (Camera_calcViewMatrix c) = mProjectionCached c
  /\ mModelViewCached (Camera_calcViewMatrix c) = true.
Proof. repeat split. Qed.

Lemma CameraPersp_calcProjection_frame (p : CameraPersp) :
  same_eye_and_clip (persp_camera p) (persp_camera (CameraPersp_calcProjection p))
  /\ mModelViewCached (persp_camera (CameraPersp_calcProjection p))
     = mModelViewCached (persp_camera p)
  /\ mProjectionCached (persp_camera (CameraPersp_calcProjection p)) = true.
Proof.
  rewrite CameraPersp_calcProjection_eq.
  generalize (calcProjection_matrix (calcProjection_frustum p)).
  generalize (calcProjection_inverse (calcProjection_frustum p)).
  intros m m'.
  pose proof (calcProjection_frustum_closed p) as F. cbv zeta in F. rewrite F.
  repeat split.
Qed.

Lemma CameraOrtho_calcProjection_frame (o : CameraOrtho) :
  same_eye_and_clip (ortho_camera o) (ortho_camera (CameraOrtho_calcProjection o))
  /\ mModelViewCached (ortho_camera (CameraOrtho_calcProjection o))
     = mModelViewCached (ortho_camera o)
  /\ mProjectionCached (ortho_camera (CameraOrtho_calcProjection o)) = true.
Proof. repeat split. Qed.

(** The [Camera] part of a stereo camera after its two computations. *)
Lemma CameraStereo_calcProjection_base (s : CameraStereo) :
  stereo_camera (CameraStereo_calcProjection s)
  = set_mProjectionCached true
      (persp_camera (CameraPersp_calcProjection (stereo_persp s))).
Proof.
  cbv delta [CameraStereo_calcProjection stereo_camera set_stereo_camera]; cbv beta.
  generalize (CameraPersp_calcProjection (stereo_persp s)); intros q.
  destruct s; destruct q; reflexivity.
Qed.

Lemma CameraStereo_calcViewMatrix_base (s : CameraStereo) :
  stereo_camera (CameraStereo_calcViewMatrix s)
  = set_mInverseModelViewCached false
      (set_mModelViewCached true (Camera_calcViewMatrix (stereo_camera s))).
Proof.
  cbv delta [CameraStereo_calcViewMatrix stereo_camera set_stereo_camera]; cbv beta.
  generalize (Camera_calcViewMatrix (persp_camera (stereo_persp s))); intros q.
  destruct s as [p ? ? ? ? ? ? ? ? ? ? ? ?]; destruct p; reflexivity.
Qed.

(** [frame_facts F Z] names the big camera [Z] that the frame lemma [F]
    speaks about and splits [F]; what remains is reading fields through
    setters of a variable. *)
Ltac frame_facts F Z :=
  let H := fresh "F" in
  pose proof F as H;
  generalize dependent Z;
  let z := fresh "z" in
  intros z H; destruct H as (? & ? & ?);
  unfold same_eye_and_clip in *.

#[export] Instance CameraPersp_frame : CalcFrame CameraPersp.
Proof.
  split; intros p; open_class.
  - frame_facts (Camera_calcViewMatrix_frame (persp_camera p))
      (Camera_calcViewMatrix (persp_camera p)); assumption.
  - frame_facts (Camera_calcViewMatrix_frame (persp_camera p))
      (Camera_calcViewMatrix (persp_camera p)); assumption.
  - frame_facts (CameraPersp_calcProjection_frame p)
      (CameraPersp_calcProjection p); assumption.
  - frame_facts (CameraPersp_calcProjection_frame p)
      (CameraPersp_calcProjection p); assumption.
  - frame_facts (Camera_calcViewMatrix_frame (persp_camera p))
      (Camera_calcViewMatrix (persp_camera p)); assumption.
  - frame_facts (CameraPersp_calcProjection_frame p)
      (CameraPersp_calcProjection p); assumption.
Qed.

#[export] Instance CameraOrtho_frame : CalcFrame CameraOrtho.
Proof.
  split; intros o; open_class.
  - frame_facts (Camera_calcViewMatrix_frame (ortho_camera o))
      (Camera_calcViewMatrix (ortho_camera o)); assumption.
  - frame_facts (Camera_calcViewMatrix_frame (ortho_camera o))
      (Camera_calcViewMatrix (ortho_camera o)); assumption.
  - frame_facts (CameraOrtho_calcProjection_frame o)
      (CameraOrtho_calcProjection o); assumption.
  - frame_facts (CameraOrtho_calcProjection_frame o)
      (CameraOrtho_calcProjection o); assumption.
  - frame_facts (Camera_calcViewMatrix_frame (ortho_camera o))
      (Camera_calcViewMatrix (ortho_camera o)); assumption.
  - frame_facts (CameraOrtho_calcProjection_frame o)
      (CameraOrtho_calcProjection o); assumption.
Qed.

#[export] Instance CameraStereo_frame : CalcFrame CameraStereo.
Proof.
  split; intros s; open_class;
    rewrite ?CameraStereo_calcProjection_base, ?CameraStereo_calcViewMatrix_base.
  - reflexivity.
  - frame_facts (Camera_calcViewMatrix_frame (stereo_camera s))
      (Camera_calcViewMatrix (stereo_camera s)); assumption.
  - reflexivity.
  - frame_facts (CameraPersp_calcProjection_frame (stereo_persp s))
      (CameraPersp_calcProjection (stereo_persp s)); assumption.
  - frame_facts (Camera_calcViewMatrix_frame (stereo_camera s))
      (Camera_calcViewMatrix (stereo_camera s)); assumption.
  - frame_facts (CameraPersp_calcProjection_frame (stereo_persp s))
      (CameraPersp_calcProjection (stereo_persp s)); assumption.
Qed.

Section CalcMatrices.
Context {C : Type} `{CalcFrame C}.

Lemma calcMatrices_eye_clip (this : C) :
  same_eye_and_clip (base this) (base (calcMatrices this)).
Proof.
  unfold calcMatrices.
  destruct (mModelViewCached (base this)); cbn [negb].
  - destruct (mProjectionCached (base this)); cbn [negb].
    + repeat split.
    + apply calcProjection_eye_clip.
  - rewrite calcViewMatrix_projection_flag.
    destruct (calcViewMatrix_eye_clip this) as (E1 & E2 & E3).
    destruct (mProjectionCached (base this)); cbn [negb].
    + repeat split; assumption.
    + destruct (calcProjection_eye_clip (calcViewMatrix this)) as (F1 & F2 & F3).
      repeat split; congruence.
Qed.

Lemma calcMatrices_flags (this : C) :
  mModelViewCached (base (calcMatrices this)) = true
  /\ mProjectionCached (base (calcMatrices this)) = true.
Proof.
  unfold calcMatrices.
  destruct (mModelViewCached (base this)) eqn:V; cbn [negb].
  - destruct (mProjectionCached (base this)) eqn:P; cbn [negb].
    + split; assumption.
    + rewrite calcProjection_cached, calcProjection_view_flag. split; auto.
  - rewrite calcViewMatrix_projection_flag.
    destruct (mProjectionCached (base this)) eqn:P; cbn [negb].
    + rewrite calcViewMatrix_cached, calcViewMatrix_projection_flag. split; auto.
    + rewrite calcProjection_cached, calcProjection_view_flag, calcViewMatrix_cached.
      split; reflexivity.
Qed.

Lemma calcMatrices_idempotent (this : C) :
  calcMatrices (calcMatrices this) = calcMatrices this.
Proof.
  destruct (calcMatrices_flags this) as [V P].
  unfold calcMatrices at 1. rewrite V. cbn [negb]. rewrite P. reflexivity.
Qed.

Lemma scaled_corner (eye vd v u : vec3) (near far a b : R) :
  near <> 0 ->
  scaled_from eye (far / near)
    (eye +^ (near *^ vd) +^ (a *^ v) +^ (b *^ u))
    (eye +^ (far *^ vd) +^ (far / near * a *^ v) +^ (far / near * b *^ u)).
Proof.
  intros N. unfold scaled_from, vadd, vsub, vscale. cbn [vx vy vz].
  f_equal; field; exact N.
Qed.

Lemma far_corners_scale_near_holds (this : C) :
  mNearClip (base this) <> 0 -> far_corners_scale_near this.
Proof.
  intros N. unfold far_corners_scale_near.
  unfold getNearClipCoordinates, getFarClipCoordinates. cbn [fst snd].
  rewrite calcMatrices_idempotent.
  destruct (calcMatrices_eye_clip this) as (E & Nr & Fr).
  rewrite E, Nr, Fr.
  unfold corners_scaled_from. cbn [topLeft topRight bottomLeft bottomRight].
  repeat split; apply scaled_corner; exact N.
Qed.

End CalcMatrices.

(** C8.  For a camera whose near clip distance is not zero, each far-plane
    corner of [Camera::getFarClipCoordinates] is the matching near-plane
    corner of [Camera::getNearClipCoordinates] with its offset from the eye
    point multiplied by [farClip / nearClip].  The two functions are the
    ones of the base class; the statement holds for the perspective, the
    orthographic and the stereo camera state alike. *)
Theorem far_corners_scale_near_corners :
  (forall p : CameraPersp, mNearClip (persp_camera p) <> 0 -> far_corners_scale_near p)
  /\ (forall o : CameraOrtho, mNearClip (ortho_camera o) <> 0 -> far_corners_scale_near o)
  /\ (forall s : CameraStereo, mNearClip (stereo_camera s) <> 0 -> far_corners_scale_near s).
Proof.
  split; [ | split ]; intros c N; apply far_corners_scale_near_holds; exact N.
Qed.

Lemma far_corners_scale_near_corners_witness :
  mNearClip (ortho_camera example_ortho) <> 0
  /\ far_corners_scale_near example_ortho.
Proof.
  assert (N : mNearClip (ortho_camera example_ortho) <> 0) by (simpl; lra).
  split; [ exact N | ].
  exact (proj1 (proj2 far_corners_scale_near_corners) example_ortho N).
Defined.

(** ** Pose and lens do not share a cache *)

(** Every pose mutator writes pose fields and the view flag only. *)
Lemma mutate_pose_with_pose `{MatrixLib} (m : PoseMutation) (c : Camera) :
  exists e coi up vd o, mutate_pose m c = with_pose e coi up vd o c.
Proof.
  destruct m; cbv delta [mutate_pose setEyePoint setCenterOfInterestPoint
    setViewDirection setOrientation setWorldUp lookAt lookAt2 lookAt3 with_pose];
    cbv beta iota;
    generalize alignZAxisWithTarget toQuat; intros al tq;
    break_camera c; fields; do 5 eexists; reflexivity.
Qed.

(** The accessors, with their virtual calls resolved. *)
Lemma persp_getProjectionMatrix `{MatrixLib} (p : CameraPersp) :
  fst (getProjectionMatrix p)
  = if mProjectionCached (persp_camera p) then mProjectionMatrix (persp_camera p)
    else mProjectionMatrix (persp_camera (CameraPersp_calcProjection p)).
Proof.
  open_class. cbv delta [Camera_getProjectionMatrix]; cbv beta. open_class.
  destruct (mProjectionCached (persp_camera p)); reflexivity.
Qed.

Lemma ortho_getProjectionMatrix `{MatrixLib} (o : CameraOrtho) :
  fst (getProjectionMatrix o)
  = if mProjectionCached (ortho_camera o) then mProjectionMatrix (ortho_camera o)
    else mProjectionMatrix (ortho_camera (CameraOrtho_calcProjection o)).
Proof.
  open_class. cbv delta [Camera_getProjectionMatrix]; cbv beta. open_class.
  destruct (mProjectionCached (ortho_camera o)); reflexivity.
Qed.

Lemma stereo_getProjectionMatrix `{MatrixLib} (s : CameraStereo) :
  fst (getProjectionMatrix s)
  = if mProjectionCached (stereo_camera s)
    then (if negb (mIsStereo s) then mProjectionMatrix (stereo_camera s)
          else if mIsLeft s then mProjectionMatrixLeft s
               else mProjectionMatrixRight s)
    else (if negb (mIsStereo (CameraStereo_calcProjection s))
          then mProjectionMatrix (stereo_camera (CameraStereo_calcProjection s))
          else if mIsLeft (CameraStereo_calcProjection s)
               then mProjectionMatrixLeft (CameraStereo_calcProjection s)
               else mProjectionMatrixRight (CameraStereo_calcProjection s)).
Proof.
  open_class. cbv delta [CameraStereo_getProjectionMatrix]; cbv beta. open_class.
  destruct (mProjectionCached (stereo_camera s)); cbn [negb].
  - destruct (negb (mIsStereo s)), (mIsLeft s); reflexivity.
  - generalize (CameraStereo_calcProjection s); intros s'.
    destruct (negb (mIsStereo s')), (mIsLeft s'); reflexivity.
Qed.

Lemma persp_getViewMatrix `{MatrixLib} (p : CameraPersp) :
  fst (getViewMatrix p)
  = if mModelViewCached (persp_camera p) then mViewMatrix (persp_camera p)
    else mViewMatrix (Camera_calcViewMatrix (persp_camera p)).
Proof.
  open_class. cbv delta [Camera_getViewMatrix]; cbv beta. open_class.
  destruct (mModelViewCached (persp_camera p)); reflexivity.
Qed.

Lemma stereo_getViewMatrix `{MatrixLib} (s : CameraStereo) :
  fst (getViewMatrix s)
  = if mModelViewCached (stereo_camera s)
    then (if negb (mIsStereo s) then mViewMatrix (stereo_camera s)
          else if mIsLeft s then mViewMatrixLeft s else mViewMatrixRight s)
    else (if negb (mIsStereo (CameraStereo_calcViewMatrix s))
          then mViewMatrix (stereo_camera (CameraStereo_calcViewMatrix s))
          else if mIsLeft (CameraStereo_calcViewMatrix s)
               then mViewMatrixLeft (CameraStereo_calcViewMatrix s)
               else mViewMatrixRight (CameraStereo_calcViewMatrix s)).
Proof.
  open_class. cbv delta [CameraStereo_getViewMatrix]; cbv beta. open_class.
  destruct (mModelViewCached (stereo_camera s)); cbn [negb].
  - destruct (negb (mIsStereo s)), (mIsLeft s); reflexivity.
  - generalize (CameraStereo_calcViewMatrix s); intros s'.
    destruct (negb (mIsStereo s')), (mIsLeft s'); reflexivity.
Qed.

(** A pose mutation and the projection computation commute: the
    projection computation reads no pose field and writes none. *)
Lemma calcProjection_frustum_pose e coi up vd o (p : CameraPersp) :
  calcProjection_frustum (on_persp (with_pose e coi up vd o) p)
  = with_pose e coi up vd o (calcProjection_frustum p).
Proof.
  pose proof (calcProjection_frustum_closed p) as F.
  pose proof (calcProjection_frustum_closed (on_persp (with_pose e coi up vd o) p)) as F'.
  cbv zeta in F, F'. rewrite F, F'. clear F F'.
  destruct p as [c l]; break_camera c; destruct l.
  cbv delta [on_persp with_pose]; cbv beta. fields. reflexivity.
Qed.

Lemma CameraPersp_calcProjection_pose e coi up vd o (p : CameraPersp) :
  CameraPersp_calcProjection (on_persp (with_pose e coi up vd o) p)
  = on_persp (with_pose e coi up vd o) (CameraPersp_calcProjection p).
Proof.
  rewrite !CameraPersp_calcProjection_closed, calcProjection_frustum_pose.
  generalize (calcProjection_frustum p); intros c.
  destruct p as [c0 l]; break_camera c.
  cbv delta [on_persp with_pose frustum_matrix_of frustum_inverse_of]; cbv beta.
  fields. reflexivity.
Qed.

Lemma CameraOrtho_calcProjection_pose e coi up vd o (c : CameraOrtho) :
  CameraOrtho_calcProjection (on_ortho (with_pose e coi up vd o) c)
  = on_ortho (with_pose e coi up vd o) (CameraOrtho_calcProjection c).
Proof.
  rewrite !CameraOrtho_calcProjection_closed.
  break_ortho c.
  cbv delta [on_ortho with_pose ortho_matrix_of ortho_inverse_of]; cbv beta.
  fields. reflexivity.
Qed.

Lemma stereo_persp_on_stereo (f : Camera -> Camera) (s : CameraStereo) :
  stereo_persp (on_stereo f s) = on_persp f (stereo_persp s).
Proof. destruct s; reflexivity. Qed.

Lemma CameraStereo_calcProjection_pose e coi up vd o (s : CameraStereo) :
  CameraStereo_calcProjection (on_stereo (with_pose e coi up vd o) s)
  = on_stereo (with_pose e coi up vd o) (CameraStereo_calcProjection s).
Proof.
  rewrite (CameraStereo_calcProjection_closed s _ eq_refl).
  rewrite (CameraStereo_calcProjection_closed
             (on_stereo (with_pose e coi up vd o) s)
             (on_persp (with_pose e coi up vd o)
                (CameraPersp_calcProjection (stereo_persp s)))).
  - generalize (CameraPersp_calcProjection (stereo_persp s)); intros q.
    destruct s as [p ? ? ? ? ? ? ? ? ? ? ? ?]; destruct p as [c0 l0].
    destruct q as [c l]; break_camera c.
    cbv delta [on_stereo on_persp with_pose stereo_skewed stereo_camera
               set_stereo_camera]; cbv beta.
    fields. reflexivity.
  - rewrite stereo_persp_on_stereo. symmetry. apply CameraPersp_calcProjection_pose.
Qed.

(** Setting the lens and computing the view matrix commute as well. *)
Lemma Camera_calcViewMatrix_lens fov aspect near far (c : Camera) :
  Camera_calcViewMatrix (with_lens fov aspect near far c)
  = with_lens fov aspect near far (Camera_calcViewMatrix c).
Proof.
  rewrite !Camera_calcViewMatrix_closed.
  break_camera c.
  cbv delta [with_lens basis_U basis_V basis_W]; cbv beta.
  fields. reflexivity.
Qed.

(** [CameraStereo::calcViewMatrix] in one step, from the cyclopean
    computation [z]. *)
Lemma CameraStereo_calcViewMatrix_closed (s : CameraStereo) (z : Camera) :
  z = Camera_calcViewMatrix (stereo_camera s) ->
  CameraStereo_calcViewMatrix s
  = set_stereo_camera
      (set_mInverseModelViewCached false (set_mModelViewCached true z))
      (set_mViewMatrixRight (stereo_view vadd z (mEyeSeparation s))
         (set_mViewMatrixLeft (stereo_view vsub z (mEyeSeparation s)) s)).
Proof.
  intros E.
  cbv delta [CameraStereo_calcViewMatrix]; cbv beta.
  rewrite <- E. clear E.
  destruct s as [p ? ? ? ? ? ? ? ? ? ? ? ?]; destruct p as [c0 l0].
  break_camera z.
  cbv delta [stereo_view stereo_camera set_stereo_camera]; cbv beta.
  fields. reflexivity.
Qed.

Lemma CameraStereo_calcViewMatrix_lens fov aspect near far (s : CameraStereo) :
  CameraStereo_calcViewMatrix (on_stereo (with_lens fov aspect near far) s)
  = on_stereo (with_lens fov aspect near far) (CameraStereo_calcViewMatrix s).
Proof.
  rewrite (CameraStereo_calcViewMatrix_closed s _ eq_refl).
  rewrite (CameraStereo_calcViewMatrix_closed
             (on_stereo (with_lens fov aspect near far) s)
             (with_lens fov aspect near far (Camera_calcViewMatrix (stereo_camera s)))).
  - generalize (Camera_calcViewMatrix (stereo_camera s)); intros z.
    destruct s as [p ? ? ? ? ? ? ? ? ? ? ? ?]; destruct p as [c0 l0].
    break_camera z.
    cbv delta [on_stereo with_lens stereo_view stereo_camera set_stereo_camera];
      cbv beta.
    fields. reflexivity.
  - replace (stereo_camera (on_stereo (with_lens fov aspect near far) s))
      with (with_lens fov aspect near far (stereo_camera s))
      by (destruct s as [p ? ? ? ? ? ? ? ? ? ? ? ?]; destruct p; reflexivity).
    symmetry. apply Camera_calcViewMatrix_lens.
Qed.

Lemma inherited_persp (f : Camera -> Camera) (p : CameraPersp) :
  inherited f p = on_persp f p.
Proof. reflexivity. Qed.

Lemma inherited_ortho (f : Camera -> Camera) (o : CameraOrtho) :
  inherited f o = on_ortho f o.
Proof. reflexivity. Qed.

Lemma inherited_stereo (f : Camera -> Camera) (s : CameraStereo) :
  inherited f s = on_stereo f s.
Proof. reflexivity. Qed.

Lemma setPerspective_on_persp fov aspect near far (p : CameraPersp) :
  setPerspective fov aspect near far p = on_persp (with_lens fov aspect near far) p.
Proof. reflexivity. Qed.

Lemma setPerspective_on_stereo fov aspect near far (s : CameraStereo) :
  CameraStereo_setPerspective fov aspect near far s
  = on_stereo (with_lens fov aspect near far) s.
Proof. reflexivity. Qed.

Ltac break_stereo_pair s s' :=
  let p := fresh "p" in let c := fresh "c" in
  destruct s as [p ? ? ? ? ? ? ? ? ? ? ? ?]; destruct p as [c ?]; break_camera c;
  let p' := fresh "p" in let c' := fresh "c" in
  destruct s' as [p' ? ? ? ? ? ? ? ? ? ? ? ?]; destruct p' as [c' ?]; break_camera c'.

Lemma setPerspective_view_persp `{MatrixLib} fov aspect near far (p : CameraPersp) :
  fst (getViewMatrix (setPerspective fov aspect near far p)) = fst (getViewMatrix p)
  /\ mModelViewCached (base (setPerspective fov aspect near far p))
     = mModelViewCached (base p).
Proof.
  split; [ | reflexivity ].
  rewrite setPerspective_on_persp, !persp_getViewMatrix.
  unfold on_persp. cbn [persp_camera set_persp_camera].
  rewrite Camera_calcViewMatrix_lens.
  generalize (Camera_calcViewMatrix (persp_camera p)); intros z.
  generalize (persp_camera p); intros c.
  break_camera c; break_camera z. cbv delta [with_lens]; cbv beta. fields.
  reflexivity.
Qed.

Lemma setPerspective_view_stereo `{MatrixLib} fov aspect near far (s : CameraStereo) :
  fst (getViewMatrix (CameraStereo_setPerspective fov aspect near far s))
  = fst (getViewMatrix s)
  /\ mModelViewCached (base (CameraStereo_setPerspective fov aspect near far s))
     = mModelViewCached (base s).
Proof.
  split.
  - rewrite setPerspective_on_stereo, !stereo_getViewMatrix.
    rewrite CameraStereo_calcViewMatrix_lens.
    generalize (CameraStereo_calcViewMatrix s); intros s'.
    break_stereo_pair s s'.
    cbv delta [on_stereo with_lens stereo_camera set_stereo_camera]; cbv beta.
    fields. reflexivity.
  - rewrite setPerspective_on_stereo. open_class.
    destruct s as [p ? ? ? ? ? ? ? ? ? ? ? ?]; destruct p as [c ?]. reflexivity.
Qed.

Lemma with_pose_projection_persp `{MatrixLib} e coi up vd o (p : CameraPersp) :
  fst (getProjectionMatrix (on_persp (with_pose e coi up vd o) p))
  = fst (getProjectionMatrix p)
  /\ mProjectionCached (persp_camera (on_persp (with_pose e coi up vd o) p))
     = mProjectionCached (persp_camera p).
Proof.
  split; [ | reflexivity ].
  rewrite !persp_getProjectionMatrix, CameraPersp_calcProjection_pose.
  generalize (CameraPersp_calcProjection p); intros q.
  destruct p as [c ?], q as [c' ?]; break_camera c; break_camera c'.
  cbv delta [on_persp with_pose]; cbv beta. fields. reflexivity.
Qed.

Lemma with_pose_projection_ortho `{MatrixLib} e coi up vd o (c : CameraOrtho) :
  fst (getProjectionMatrix (on_ortho (with_pose e coi up vd o) c))
  = fst (getProjectionMatrix c)
  /\ mProjectionCached (ortho_camera (on_ortho (with_pose e coi up vd o) c))
     = mProjectionCached (ortho_camera c).
Proof.
  split; [ | reflexivity ].
  rewrite !ortho_getProjectionMatrix, CameraOrtho_calcProjection_pose.
  generalize (CameraOrtho_calcProjection c); intros q.
  destruct c as [c], q as [c']; break_camera c; break_camera c'.
  cbv delta [on_ortho with_pose]; cbv beta. fields. reflexivity.
Qed.

Lemma with_pose_projection_stereo `{MatrixLib} e coi up vd o (s : CameraStereo) :
  fst (getProjectionMatrix (on_stereo (with_pose e coi up vd o) s))
  = fst (getProjectionMatrix s)
  /\ mProjectionCached (stereo_camera (on_stereo (with_pose e coi up vd o) s))
     = mProjectionCached (stereo_camera s).
Proof.
  split.
  - rewrite !stereo_getProjectionMatrix, CameraStereo_calcProjection_pose.
    generalize (CameraStereo_calcProjection s); intros s'.
    break_stereo_pair s s'.
    cbv delta [on_stereo with_pose stereo_camera set_stereo_camera]; cbv beta.
    fields. reflexivity.
  - destruct s as [p ? ? ? ? ? ? ? ? ? ? ? ?]; destruct p as [c ?]. reflexivity.
Qed.

(** C4.  Pose and lens are cached apart.  [setPerspective] changes neither
    the matrix that [getViewMatrix] returns nor the view-matrix flag, on a
    perspective camera and on a stereo camera (which inherits it).  Every
    pose mutator of the base class ([setEyePoint],
    [setCenterOfInterestPoint], [setViewDirection], [setOrientation],
    [setWorldUp] and the three [lookAt]) changes neither the matrix that
    [getProjectionMatrix] returns nor the projection flag, on each of the
    three cameras. *)
Theorem pose_and_lens_caches_separate `{MatrixLib} :
  (forall fov aspect near far (p : CameraPersp),
      fst (getViewMatrix (setPerspective fov aspect near far p)) = fst (getViewMatrix p)
      /\ mModelViewCached (base (setPerspective fov aspect near far p))
         = mModelViewCached (base p))
  /\ (forall fov aspect near far (s : CameraStereo),
      fst (getViewMatrix (CameraStereo_setPerspective fov aspect near far s))
      = fst (getViewMatrix s)
      /\ mModelViewCached (base (CameraStereo_setPerspective fov aspect near far s))
         = mModelViewCached (base s))
  /\ (forall (m : PoseMutation) (p : CameraPersp),
      fst (getProjectionMatrix (inherited (mutate_pose m) p))
      = fst (getProjectionMatrix p)
      /\ mProjectionCached (base (inherited (mutate_pose m) p))
         = mProjectionCached (base p))
  /\ (forall (m : PoseMutation) (o : CameraOrtho),
      fst (getProjectionMatrix (inherited (mutate_pose m) o))
      = fst (getProjectionMatrix o)
      /\ mProjectionCached (base (inherited (mutate_pose m) o))
         = mProjectionCached (base o))
  /\ (forall (m : PoseMutation) (s : CameraStereo),
      fst (getProjectionMatrix (inherited (mutate_pose m) s))
      = fst (getProjectionMatrix s)
      /\ mProjectionCached (base (inherited (mutate_pose m) s))
         = mProjectionCached (base s)).
Proof.
  split; [ intros; apply setPerspective_view_persp | ].
  split; [ intros; apply setPerspective_view_stereo | ].
  split; [ | split ]; intros m c.
  - rewrite inherited_persp. unfold on_persp.
    destruct (mutate_pose_with_pose m (persp_camera c)) as (e & coi & up & vd & o & E).
    rewrite E. apply with_pose_projection_persp.
  - rewrite inherited_ortho. unfold on_ortho.
    destruct (mutate_pose_with_pose m (ortho_camera c)) as (e & coi & up & vd & o & E).
    rewrite E. apply with_pose_projection_ortho.
  - rewrite inherited_stereo. unfold on_stereo.
    destruct (mutate_pose_with_pose m (stereo_camera c)) as (e & coi & up & vd & o & E).
    rewrite E. apply with_pose_projection_stereo.
Qed.

(** ** The orthographic extents *)

Section OrthoExtents.
Context `{MatrixLib}.

(** Reading the six extents through setters of other fields. *)
Ltac extents_setters :=
  unfold stored_extents;
  cbn [ortho_camera set_ortho_camera
       mFrustumLeft mFrustumRight mFrustumBottom mFrustumTop mNearClip mFarClip
       set_mInverseModelViewCached set_mModelViewCached set_mViewMatrix
       set_mU set_mV set_mW set_mProjectionCached set_mProjectionMatrix
       set_mInverseProjectionMatrix set_mInverseModelViewMatrix].

Lemma ortho_calcViewMatrix_extents : keeps_extents calcViewMatrix.
Proof.
  intros o. open_class. rewrite Camera_calcViewMatrix_closed.
  extents_setters. reflexivity.
Qed.

Lemma ortho_calcProjection_extents : keeps_extents calcProjection.
Proof.
  intros o. open_class. rewrite CameraOrtho_calcProjection_closed.
  extents_setters. reflexivity.
Qed.

Lemma keeps_extents_when (b : bool) (f : CameraOrtho -> CameraOrtho) (o : CameraOrtho) :
  keeps_extents f ->
  stored_extents (ortho_camera (if b then f o else o)) = stored_extents (ortho_camera o).
Proof. intros K. destruct b; [ apply K | reflexivity ]. Qed.

Lemma ortho_calcMatrices_extents : keeps_extents calcMatrices.
Proof.
  intros o. cbv delta [calcMatrices]; cbv beta zeta.
  rewrite keeps_extents_when by exact ortho_calcProjection_extents.
  apply keeps_extents_when. exact ortho_calcViewMatrix_extents.
Qed.

Lemma ortho_calcInverseView_extents : keeps_extents calcInverseView.
Proof.
  intros o. open_class. cbv delta [Camera_calcInverseView]; cbv beta zeta.
  open_class.
  rewrite <- (keeps_extents_when (negb (mModelViewCached (ortho_camera o)))
                calcViewMatrix o ortho_calcViewMatrix_extents).
  open_class.
  generalize (if negb (mModelViewCached (ortho_camera o))
              then set_ortho_camera (Camera_calcViewMatrix (ortho_camera o)) o
              else o).
  intros o'. extents_setters. reflexivity.
Qed.

Lemma ortho_getProjectionMatrix_extents :
  keeps_extents (fun o => snd (getProjectionMatrix o)).
Proof.
  intros o. open_class. cbv delta [Camera_getProjectionMatrix]; cbv beta zeta.
  cbn [snd]. apply keeps_extents_when. exact ortho_calcProjection_extents.
Qed.

Lemma ortho_getViewMatrix_extents : keeps_extents (fun o => snd (getViewMatrix o)).
Proof.
  intros o. open_class. cbv delta [Camera_getViewMatrix]; cbv beta zeta.
  cbn [snd]. apply keeps_extents_when. exact ortho_calcViewMatrix_extents.
Qed.

Lemma ortho_getInverseViewMatrix_extents :
  keeps_extents (fun o => snd (getInverseViewMatrix o)).
Proof.
  intros o. open_class. cbv delta [Camera_getInverseViewMatrix]; cbv beta zeta.
  cbn [snd]. apply keeps_extents_when. exact ortho_calcInverseView_extents.
Qed.

Lemma run_query_extents (q : Query) : keeps_extents (run_query q).
Proof.
  intros o.
  pose proof ortho_getProjectionMatrix_extents as KP.
  pose proof ortho_getViewMatrix_extents as KV.
  unfold keeps_extents in KP, KV.
  destruct q; cbn [run_query].
  - apply ortho_getProjectionMatrix_extents.
  - apply ortho_getViewMatrix_extents.
  - apply ortho_getInverseViewMatrix_extents.
  - apply ortho_calcMatrices_extents.
  - apply ortho_calcMatrices_extents.
  - apply ortho_calcMatrices_extents.
  - apply ortho_calcMatrices_extents.
  - unfold getBillboardVectors.
    destruct (getViewMatrix o) as [m1 o1] eqn:E1.
    destruct (getViewMatrix o1) as [m2 o2] eqn:E2. cbn [snd].
    specialize (KV o) as K1. specialize (KV o1) as K2.
    rewrite E1 in K1. rewrite E2 in K2. cbn [snd] in K1, K2. congruence.
  - unfold worldToScreen.
    destruct (getViewMatrix o) as [m1 o1] eqn:E1.
    destruct (getProjectionMatrix o1) as [m2 o2] eqn:E2. cbn [snd].
    specialize (KV o) as K1. specialize (KP o1) as K2.
    rewrite E1 in K1. rewrite E2 in K2. cbn [snd] in K1, K2. congruence.
  - unfold worldToEyeDepth.
    destruct (getViewMatrix o) as [m1 o1] eqn:E1. cbn [snd].
    specialize (KV o) as K1. rewrite E1 in K1. exact K1.
  - unfold worldToNdc.
    destruct (getViewMatrix o) as [m1 o1] eqn:E1.
    destruct (getProjectionMatrix o1) as [m2 o2] eqn:E2. cbn [snd].
    specialize (KV o) as K1. specialize (KP o1) as K2.
    rewrite E1 in K1. rewrite E2 in K2. cbn [snd] in K1, K2. congruence.
Qed.

Lemma run_queries_extents (qs : list Query) : keeps_extents (run_queries qs).
Proof.
  unfold run_queries.
  induction qs as [ | q qs IH ]; intros o; cbn [fold_left].
  - reflexivity.
  - rewrite IH. apply run_query_extents.
Qed.

End OrthoExtents.

(** C10.  The orthographic camera never recomputes its frustum.  After
    [setOrtho(L, R, B, T, near, far)], whatever sequence of queries is run
    ([getProjectionMatrix], [getViewMatrix], [getInverseViewMatrix],
    [getFrustum], the clip corner queries, [generateRay],
    [getBillboardVectors] and the three world conversions), the six stored
    extents are the six arguments, [getFrustum] reports them, and
    [CameraOrtho::calcProjection] run once more still leaves them. *)
Theorem ortho_extents_never_recomputed `{MatrixLib}
  (o : CameraOrtho) (L R' B T near far : R) (qs : list Query) :
  let o' := run_queries qs (setOrtho L R' B T near far o) in
  stored_extents (ortho_camera o') = (L, R', B, T, near, far)
  /\ fst (getFrustum o')
     = {| out_left := L; out_top := T; out_right := R'; out_bottom := B;
          out_near := near; out_far := far |}
  /\ stored_extents (ortho_camera (CameraOrtho_calcProjection o'))
     = (L, R', B, T, near, far).
Proof.
  intros o'.
  assert (E : stored_extents (ortho_camera o') = (L, R', B, T, near, far)).
  { subst o'. rewrite run_queries_extents. reflexivity. }
  split; [ exact E | split ].
  - pose proof (ortho_calcMatrices_extents o') as K. rewrite E in K.
    unfold getFrustum. cbn [fst]. unfold stored_extents in K.
    cbn [base CameraOrtho_calc] in *. injection K as -> -> -> -> -> ->.
    reflexivity.
  - exact E.
Qed.

(** ** Rays of a stereo camera *)

Lemma stereo_persp_calcViewMatrix (s : CameraStereo) :
  stereo_persp (CameraStereo_calcViewMatrix s)
  = on_persp (fun c => set_mInverseModelViewCached false
                         (set_mModelViewCached true (Camera_calcViewMatrix c)))
      (stereo_persp s).
Proof.
  rewrite (CameraStereo_calcViewMatrix_closed s _ eq_refl).
  unfold on_persp, stereo_camera.
  generalize (Camera_calcViewMatrix (persp_camera (stereo_persp s))); intros z.
  destruct s as [p ? ? ? ? ? ? ? ? ? ? ? ?]; destruct p. reflexivity.
Qed.

Lemma stereo_persp_calcProjection (s : CameraStereo) :
  stereo_persp (CameraStereo_calcProjection s)
  = on_persp (set_mProjectionCached true) (CameraPersp_calcProjection (stereo_persp s)).
Proof.
  rewrite (CameraStereo_calcProjection_closed s _ eq_refl).
  generalize (CameraPersp_calcProjection (stereo_persp s)); intros q.
  destruct s; destruct q. reflexivity.
Qed.

Lemma stereo_persp_calcMatrices_eq (s : CameraStereo) :
  stereo_persp (calcMatrices s) = stereo_persp_calcMatrices (stereo_persp s).
Proof.
  cbv delta [calcMatrices stereo_persp_calcMatrices]; cbv beta zeta. open_class.
  unfold stereo_camera.
  destruct (negb (mModelViewCached (persp_camera (stereo_persp s)))).
  - rewrite stereo_persp_calcViewMatrix.
    match goal with
    | |- context [negb ?b] => destruct (negb b)
    end.
    + rewrite stereo_persp_calcProjection, stereo_persp_calcViewMatrix. reflexivity.
    + apply stereo_persp_calcViewMatrix.
  - destruct (negb (mProjectionCached (persp_camera (stereo_persp s)))).
    + apply stereo_persp_calcProjection.
    + reflexivity.
Qed.

Lemma stereo_calcMatrices_base_ignores_eye (s : CameraStereo) (sep : R) (left : bool) :
  base (calcMatrices (set_mEyeSeparation sep (set_mIsLeft left s)))
  = base (calcMatrices s).
Proof.
  open_class. unfold stereo_camera.
  rewrite !stereo_persp_calcMatrices_eq. reflexivity.
Qed.

Lemma vsub_self_offset (e d : vec3) : e = e -^ d -> d = Vec3 0 0 0.
Proof.
  destruct e as [e1 e2 e3], d as [d1 d2 d3]. unfold vsub. cbn [vx vy vz].
  intros E. injection E as E1 E2 E3. f_equal; lra.
Qed.

Lemma vadd_self_offset (e d : vec3) : e = e +^ d -> d = Vec3 0 0 0.
Proof.
  destruct e as [e1 e2 e3], d as [d1 d2 d3]. unfold vadd. cbn [vx vy vz].
  intros E. injection E as E1 E2 E3. f_equal; lra.
Qed.

(** C9.  [generateRay] is the base class function also on a stereo camera.
    With [isStereo] set, the origin of the ray is the plain eye point,
    while [getEyePointShifted] is the eye point minus (left eye) or plus
    (right eye) the eye offset; so the two differ whenever that offset is
    not the zero vector.  The whole ray is the same for every eye
    separation and for either eye. *)
Theorem generateRay_not_stereo_aware (s : CameraStereo) (uPos vPos aspect : R) :
  mIsStereo s = true ->
  let origin := ray_origin (fst (generateRay uPos vPos aspect s)) in
  origin = mEyePoint (stereo_camera s)
  /\ getEyePointShifted s
     = (if mIsLeft s then mEyePoint (stereo_camera s) -^ eye_offset s
        else mEyePoint (stereo_camera s) +^ eye_offset s)
  /\ (eye_offset s <> Vec3 0 0 0 -> origin <> getEyePointShifted s)
  /\ (forall (sep : R) (left : bool),
        fst (generateRay uPos vPos aspect (set_mEyeSeparation sep (set_mIsLeft left s)))
        = fst (generateRay uPos vPos aspect s)).
Proof.
  intros St origin.
  assert (O : origin = mEyePoint (stereo_camera s)).
  { subst origin. cbv delta [generateRay]; cbv beta zeta. cbn [fst ray_origin].
    exact (proj1 (calcMatrices_eye_clip s)). }
  assert (Sh : getEyePointShifted s
               = (if mIsLeft s then mEyePoint (stereo_camera s) -^ eye_offset s
                  else mEyePoint (stereo_camera s) +^ eye_offset s)).
  { unfold getEyePointShifted, eye_offset. rewrite St. reflexivity. }
  split; [ exact O | split; [ exact Sh | split ] ].
  - intros NZ E. apply NZ. rewrite O, Sh in E.
    destruct (mIsLeft s).
    + exact (vsub_self_offset _ _ E).
    + exact (vadd_self_offset _ _ E).
  - intros sep left. cbv delta [generateRay]; cbv beta zeta. cbn [fst].
    rewrite stereo_calcMatrices_base_ignores_eye. reflexivity.
Qed.

Lemma generateRay_not_stereo_aware_witness :
  mIsStereo example_stereo = true
  /\ ray_origin (fst (generateRay 0.5 0.5 1 example_stereo))
     = mEyePoint (stereo_camera example_stereo).
Proof.
  split.
  - reflexivity.
  - exact (proj1 (generateRay_not_stereo_aware example_stereo 0.5 0.5 1 eq_refl)).
Defined.

(** ** Framing a sphere *)

Lemma length_vmuls (v : vec3) (d : R) :
  glm.length (v ^* d) = Rabs d * glm.length v.
Proof.
  unfold glm.length, glm.dot, vmuls. cbn [vx vy vz].
  replace (vx v * d * (vx v * d) + vy v * d * (vy v * d) + vz v * d * (vz v * d))
    with (Rsqr d * (vx v * vx v + vy v * vy v + vz v * vz v)) by (unfold Rsqr; ring).
  rewrite sqrt_mult.
  - rewrite sqrt_Rsqr_abs. reflexivity.
  - apply Rle_0_sqr.
  - pose proof (Rle_0_sqr (vx v)); pose proof (Rle_0_sqr (vy v));
      pose proof (Rle_0_sqr (vz v)). unfold Rsqr in *. lra.
Qed.

Lemma vsub_vsub_cancel (c v : vec3) : c -^ (c -^ v) = v.
Proof.
  destruct c, v. unfold vsub. cbn [vx vy vz]. f_equal; ring.
Qed.

Lemma calcFraming_distance_arg (p : CameraPersp) (sph : Sphere) :
  Rmax (getRadius sph / sin (toRadians (getFovHorizontal (persp_camera p) * 0.5)))
       (getRadius sph / sin (toRadians (getFov (persp_camera p) * 0.5)))
  = framing_distance p sph.
Proof.
  unfold framing_distance, toRadians.
  replace (getFovHorizontal (persp_camera p) * 0.5 * (PI / 180))
    with (getFovHorizontal (persp_camera p) * (PI / 180) / 2)
    by (rewrite half_eq; field).
  replace (getFov (persp_camera p) * 0.5 * (PI / 180))
    with (getFov (persp_camera p) * (PI / 180) / 2)
    by (rewrite half_eq; field).
  reflexivity.
Qed.

(** C7, as the code has it.  For a perspective camera with a unit view
    direction, [calcFraming] returns the camera with two fields changed:
    the eye point, now [center - viewDirection * d] for
    [d = max(r / sin(radians(hFov)/2), r / sin(radians(vFov)/2))], and the
    view-matrix flag, cleared by [setEyePoint].  The new eye point is at
    distance [|d|] from the centre, which is [d] when [d] is not negative;
    the view direction and every other field are the original's. *)
Theorem calcFraming_result (p : CameraPersp) (sph : Sphere) :
  glm.length (mViewDirection (persp_camera p)) = 1 ->
  let d := framing_distance p sph in
  let result := calcFraming sph p in
  glm.distance (mEyePoint (persp_camera result)) (getCenter sph) = Rabs d
  /\ (0 <= d -> glm.distance (mEyePoint (persp_camera result)) (getCenter sph) = d)
  /\ mViewDirection (persp_camera result) = mViewDirection (persp_camera p)
  /\ result
     = set_persp_camera
         (set_mModelViewCached false
            (set_mEyePoint (getCenter sph -^ (mViewDirection (persp_camera p) ^* d))
               (persp_camera p))) p.
Proof.
  intros U d result.
  assert (R0 : result
     = set_persp_camera
         (set_mModelViewCached false
            (set_mEyePoint (getCenter sph -^ (mViewDirection (persp_camera p) ^* d))
               (persp_camera p))) p).
  { subst result d. unfold calcFraming, setEyePoint.
    rewrite calcFraming_distance_arg. reflexivity. }
  assert (D : glm.distance (mEyePoint (persp_camera result)) (getCenter sph) = Rabs d).
  { rewrite R0. cbn [persp_camera set_persp_camera set_mModelViewCached set_mEyePoint
                     mEyePoint].
    unfold glm.distance. rewrite vsub_vsub_cancel, length_vmuls, U. ring. }
  split; [ exact D | split; [ | split ] ].
  - intros Pos. rewrite D. apply Rabs_right. lra.
  - rewrite R0. reflexivity.
  - exact R0.
Qed.

Lemma example_view_direction_unit : glm.length (Vec3 0 0 (-1)) = 1.
Proof.
  unfold glm.length, glm.dot. cbn [vx vy vz].
  replace (0 * 0 + 0 * 0 + -1 * -1) with 1 by ring. apply sqrt_1.
Qed.

Lemma calcFraming_result_witness :
  glm.length (mViewDirection (persp_camera example_persp)) = 1
  /\ glm.distance (mEyePoint (persp_camera (calcFraming unit_sphere example_persp)))
       (getCenter unit_sphere)
     = Rabs (framing_distance example_persp unit_sphere).
Proof.
  split.
  - exact example_view_direction_unit.
  - exact (proj1 (calcFraming_result example_persp unit_sphere
                    example_view_direction_unit)).
Defined.

Lemma example_fov_horizontal : getFovHorizontal example_camera = 90.
Proof.
  unfold getFovHorizontal, toDegrees, toRadians. cbn [mFov mAspectRatio example_camera].
  replace (90 * (PI / 180) * 0.5) with (PI / 4) by lra.
  rewrite tan_PI4, Rmult_1_r, atan_1. field. apply PI_neq0.
Qed.

Lemma framing_distance_negative :
  framing_distance example_persp_cached negative_sphere < 0.
Proof.
  unfold framing_distance.
  cbn [example_persp_cached set_persp_camera persp_camera].
  change (getFovHorizontal (set_mModelViewCached true example_camera))
    with (getFovHorizontal example_camera).
  rewrite example_fov_horizontal.
  unfold getFov, toRadians. cbn [mFov set_mModelViewCached example_camera
                                 getRadius negative_sphere].
  replace (90 * (PI / 180) / 2) with (PI / 4) by lra.
  assert (S : 0 < sin (PI / 4)).
  { apply sin_gt_0; pose proof PI_RGT_0; lra. }
  assert (N : -1 / sin (PI / 4) < 0).
  { unfold Rdiv. apply Rmult_neg_pos; [ lra | apply Rinv_0_lt_compat; exact S ]. }
  apply Rmax_lub_lt; exact N.
Qed.

(** C7 as stated fails on two counts.  A [Sphere] value with radius [-1]
    gives a negative [max(...)], which no distance equals; and on a camera
    whose view matrix is cached the result differs from the original in
    the view-matrix flag as well as in the eye point. *)
Lemma calcFraming_claim_fails :
  let p := example_persp_cached in
  let result := calcFraming negative_sphere p in
  glm.length (mViewDirection (persp_camera p)) = 1
  /\ glm.distance (mEyePoint (persp_camera result)) (getCenter negative_sphere)
     <> framing_distance p negative_sphere
  /\ result
     <> set_persp_camera (set_mEyePoint (mEyePoint (persp_camera result)) (persp_camera p)) p.
Proof.
  intros p result. split; [ exact example_view_direction_unit | split ].
  - pose proof framing_distance_negative as N. fold p in N.
    assert (0 <= glm.distance (mEyePoint (persp_camera result))
                   (getCenter negative_sphere))
      by (unfold glm.distance, glm.length; apply sqrt_pos).
    lra.
  - intros E. apply (f_equal (fun q => mModelViewCached (persp_camera q))) in E.
    cbn in E. discriminate E.
Qed.

(** ** The two pose representations *)

(** [setOrientation] stores the normalized quaternion and derives the view
    direction from it, so that [viewDirection = rotate(orientation, (0,0,-1))]
    holds afterwards for every quaternion. *)
Lemma setOrientation_consistent (q : quat) (c : Camera) :
  let c' := setOrientation q c in
  mOrientation c' = glm.qnormalize q
  /\ mViewDirection c' = glm.rotate (glm.qnormalize q) (Vec3 0 0 (-1))
  /\ mViewDirection c' = glm.rotate (mOrientation c') (Vec3 0 0 (-1)).
Proof. repeat split. Qed.

Lemma normalize_x_axis : glm.normalize (Vec3 1 0 0) = Vec3 1 0 0.
Proof.
  unfold glm.normalize, glm.dot, vmuls. cbn [vx vy vz].
  replace (1 * 1 + 0 * 0 + 0 * 0) with 1 by ring.
  rewrite sqrt_1, Rinv_1. f_equal; ring.
Qed.

Lemma rotation_x_axis_to_minus_z :
  glm.rotation (Vec3 1 0 0) (Vec3 0 0 (-1)) = Quat (sqrt 2 * 0.5) 0 (1 / sqrt 2) 0.
Proof.
  unfold glm.rotation, glm.dot, glm.cross, glm.epsilon. cbn [vx vy vz].
  destruct (Rge_dec (1 * 0 + 0 * 0 + 0 * -1) (1 - / 8388608)) as [G | _]; [ lra | ].
  destruct (Rlt_dec (1 * 0 + 0 * 0 + 0 * -1) (-1 + / 8388608)) as [L | _]; [ lra | ].
  replace ((1 + (1 * 0 + 0 * 0 + 0 * -1)) * 2) with 2 by ring.
  f_equal; ring.
Qed.

Lemma sqrt2_facts : sqrt 2 * sqrt 2 = 2 /\ sqrt 2 * (1 / sqrt 2) = 1.
Proof.
  assert (P : 0 < sqrt 2) by (apply sqrt_lt_R0; lra).
  split.
  - apply sqrt_sqrt. lra.
  - field. lra.
Qed.

Lemma rotate_quarter_turn_about_y :
  let q := Quat (sqrt 2 * 0.5) 0 (1 / sqrt 2) 0 in
  glm.rotate q (Vec3 0 0 (-1)) = Vec3 (-1) 0 0
  /\ glm.rotate q (Vec3 1 0 0) = Vec3 0 0 (-1)
  /\ glm.rotate q (Vec3 0 1 0) = Vec3 0 1 0.
Proof.
  intros q. subst q.
  destruct sqrt2_facts as [S T].
  set (s := sqrt 2) in *. set (t := 1 / s) in *.
  assert (TT : t * t = / 2) by nra.
  unfold glm.rotate, glm.cross, vadd, vmuls. cbn [vx vy vz qw qx qy qz].
  repeat split; f_equal; nra.
Qed.

(** The case of [rotation( u, (0,0,-1) )] for a unit [u = (a, b, c)] that
    is not within epsilon of the z axis: the quaternion is
    [(s/2, -b/s, a/s, 0)] with [s * s = 2 (1 - c)]. *)
Lemma rotation_generic_case (a b c : R) :
  glm.dot (Vec3 a b c) (Vec3 0 0 (-1)) < 1 - glm.epsilon ->
  -1 + glm.epsilon <= glm.dot (Vec3 a b c) (Vec3 0 0 (-1)) ->
  exists s : R,
    0 < s /\ s * s = 2 * (1 - c)
    /\ glm.rotation (Vec3 a b c) (Vec3 0 0 (-1)) = Quat (s * / 2) (- b / s) (a / s) 0.
Proof.
  unfold glm.dot, glm.epsilon. cbn [vx vy vz]. intros Hi Lo.
  exists (sqrt (2 * (1 - c))).
  assert (P : 0 < 2 * (1 - c)) by lra.
  assert (Sp : 0 < sqrt (2 * (1 - c))) by (apply sqrt_lt_R0; exact P).
  split; [ exact Sp | split; [ apply sqrt_sqrt; lra | ] ].
  unfold glm.rotation, glm.dot, glm.cross, glm.epsilon. cbn [vx vy vz].
  destruct (Rge_dec (a * 0 + b * 0 + c * -1) (1 - / 8388608)) as [G | _]; [ lra | ].
  destruct (Rlt_dec (a * 0 + b * 0 + c * -1) (-1 + / 8388608)) as [L | _]; [ lra | ].
  replace ((1 + (a * 0 + b * 0 + c * -1)) * 2) with (2 * (1 - c)) by ring.
  rewrite half_eq. f_equal; field; lra.
Qed.

(** glm's [rotation( orig, (0,0,-1) )] outside its two special cases: it
    takes the unit vector [orig] to [(0,0,-1)], and it takes [(0,0,-1)] to
    the mirror image [(-x, -y, z)] of [orig]. *)
Lemma rotation_takes_orig_to_minus_z (u : vec3) :
  glm.dot u u = 1 ->
  glm.dot u (Vec3 0 0 (-1)) < 1 - glm.epsilon ->
  -1 + glm.epsilon <= glm.dot u (Vec3 0 0 (-1)) ->
  glm.rotate (glm.rotation u (Vec3 0 0 (-1))) u = Vec3 0 0 (-1).
Proof.
  destruct u as [a b c]. intros U Hi Lo.
  destruct (rotation_generic_case a b c Hi Lo) as (s & Sp & S & Q). rewrite Q.
  unfold glm.dot in U. cbn [vx vy vz] in U.
  assert (N : s <> 0) by lra.
  assert (S2 : s ^ 2 = 2 * (1 - c)) by (rewrite <- S; ring).
  assert (Ua : a * (a * a + b * b + c * c) = a) by (rewrite U; ring).
  assert (Ub : b * (a * a + b * b + c * c) = b) by (rewrite U; ring).
  assert (Uc : c * (a * a + b * b + c * c) = c) by (rewrite U; ring).
  unfold glm.rotate, glm.cross, vadd, vmuls. cbn [vx vy vz qw qx qy qz].
  f_equal; field_simplify_eq; try exact N; rewrite ?S2; nra.
Qed.

Lemma rotation_takes_minus_z_to_mirror (u : vec3) :
  glm.dot u u = 1 ->
  glm.dot u (Vec3 0 0 (-1)) < 1 - glm.epsilon ->
  -1 + glm.epsilon <= glm.dot u (Vec3 0 0 (-1)) ->
  glm.rotate (glm.rotation u (Vec3 0 0 (-1))) (Vec3 0 0 (-1))
  = Vec3 (- vx u) (- vy u) (vz u).
Proof.
  destruct u as [a b c]. intros U Hi Lo.
  destruct (rotation_generic_case a b c Hi Lo) as (s & Sp & S & Q). rewrite Q.
  unfold glm.dot in U. cbn [vx vy vz] in U.
  assert (N : s <> 0) by lra.
  assert (S2 : s ^ 2 = 2 * (1 - c)) by (rewrite <- S; ring).
  assert (Ua : a * (a * a + b * b + c * c) = a) by (rewrite U; ring).
  assert (Ub : b * (a * a + b * b + c * c) = b) by (rewrite U; ring).
  assert (Uc : c * (a * a + b * b + c * c) = c) by (rewrite U; ring).
  unfold glm.rotate, glm.cross, vadd, vmuls. cbn [vx vy vz qw qx qy qz].
  f_equal; field_simplify_eq; try exact N; rewrite ?S2; nra.
Qed.

Lemma normalize_unit (d : vec3) :
  0 < glm.dot d d -> glm.dot (glm.normalize d) (glm.normalize d) = 1.
Proof.
  intros P. unfold glm.normalize.
  assert (S : sqrt (glm.dot d d) * sqrt (glm.dot d d) = glm.dot d d)
    by (apply sqrt_sqrt; lra).
  assert (Sp : 0 < sqrt (glm.dot d d)) by (apply sqrt_lt_R0; exact P).
  revert S Sp. generalize (sqrt (glm.dot d d)). intros s S Sp.
  destruct d as [a b c]. unfold glm.dot, vmuls in *. cbn [vx vy vz] in *.
  assert (N : s <> 0) by lra.
  replace (a * / s * (a * / s) + b * / s * (b * / s) + c * / s * (c * / s))
    with ((a * a + b * b + c * c) / (s * s)) by (field; exact N).
  rewrite S. field. lra.
Qed.

(** What [setViewDirection] stores, for every non-zero [d] whose direction
    is not within glm's epsilon of the z axis: the orientation takes the
    view direction to [(0,0,-1)]; it takes [(0,0,-1)] to the mirror image
    of the view direction, which is the view direction only if that lies on
    the z axis. *)
Lemma setViewDirection_orientation (d : vec3) (c : Camera) :
  0 < glm.dot d d ->
  glm.dot (glm.normalize d) (Vec3 0 0 (-1)) < 1 - glm.epsilon ->
  -1 + glm.epsilon <= glm.dot (glm.normalize d) (Vec3 0 0 (-1)) ->
  mViewDirection (setViewDirection d c) = glm.normalize d
  /\ glm.rotate (mOrientation (setViewDirection d c))
       (mViewDirection (setViewDirection d c)) = Vec3 0 0 (-1)
  /\ glm.rotate (mOrientation (setViewDirection d c)) (Vec3 0 0 (-1))
     = Vec3 (- vx (glm.normalize d)) (- vy (glm.normalize d)) (vz (glm.normalize d))
  /\ (glm.rotate (mOrientation (setViewDirection d c)) (Vec3 0 0 (-1))
      = glm.normalize d
      -> vx (glm.normalize d) = 0 /\ vy (glm.normalize d) = 0).
Proof.
  intros P Hi Lo.
  pose proof (normalize_unit d P) as U.
  change (mViewDirection (setViewDirection d c)) with (glm.normalize d).
  change (mOrientation (setViewDirection d c))
    with (glm.rotation (glm.normalize d) (Vec3 0 0 (-1))).
  rewrite (rotation_takes_orig_to_minus_z _ U Hi Lo).
  rewrite (rotation_takes_minus_z_to_mirror _ U Hi Lo).
  split; [ reflexivity | ]. split; [ reflexivity | ]. split; [ reflexivity | ].
  intros E. destruct (glm.normalize d) as [a b z]. cbn [vx vy vz] in *.
  injection E as Ha Hb. split; lra.
Qed.

(** C1 at the input [(1, 0, 0)].  After [setViewDirection((1,0,0))] the
    stored view direction is [(1,0,0)], but rotating [(0,0,-1)] by the
    stored orientation gives [(-1,0,0)]: the orientation is the rotation
    that takes the view direction to [(0,0,-1)], the inverse of the one
    that [setOrientation] and [calcViewMatrix] work with.  The basis that
    [calcViewMatrix] then derives is [U = (0,0,-1)], [V = (0,1,0)],
    [W = (-1,0,0)], for which [cross(U, V) = -W]. *)
Theorem setViewDirection_x_axis (c : Camera) :
  let c' := setViewDirection (Vec3 1 0 0) c in
  mViewDirection c' = glm.normalize (Vec3 1 0 0)
  /\ mViewDirection c' = Vec3 1 0 0
  /\ glm.rotate (mOrientation c') (Vec3 0 0 (-1)) = Vec3 (-1) 0 0
  /\ glm.rotate (mOrientation c') (Vec3 0 0 (-1)) <> glm.normalize (Vec3 1 0 0)
  /\ glm.rotate (mOrientation c') (mViewDirection c') = Vec3 0 0 (-1)
  /\ glm.cross (mU (Camera_calcViewMatrix c')) (mV (Camera_calcViewMatrix c'))
     = -^ mW (Camera_calcViewMatrix c').
Proof.
  intros c'.
  destruct rotate_quarter_turn_about_y as (Rz & Rx & Ry).
  assert (V : mViewDirection c' = Vec3 1 0 0) by apply normalize_x_axis.
  assert (O : mOrientation c' = Quat (sqrt 2 * 0.5) 0 (1 / sqrt 2) 0).
  { subst c'. unfold setViewDirection.
    cbn [mOrientation mViewDirection set_mModelViewCached set_mOrientation
         set_mViewDirection].
    rewrite normalize_x_axis. apply rotation_x_axis_to_minus_z. }
  split; [ reflexivity | split; [ exact V | ] ].
  rewrite O, V, normalize_x_axis.
  split; [ exact Rz | split; [ | split; [ exact Rx | ] ] ].
  - rewrite Rz. intros E. injection E as E. lra.
  - unfold Camera_calcViewMatrix.
    cbn [mU mV mW set_mInverseModelViewCached set_mModelViewCached set_mViewMatrix
         set_mW set_mU set_mV mOrientation mViewDirection].
    rewrite O, V, Rx, Ry, normalize_x_axis.
    unfold glm.cross, vneg. cbn [vx vy vz]. f_equal; ring.
Qed.
(** ** Rotation by a unit quaternion *)

Lemma rotate_x_axis (q : quat) :
  glm.rotate q (Vec3 1 0 0)
  = Vec3 (1 - 2 * (qy q * qy q + qz q * qz q))
         (2 * (qx q * qy q + qw q * qz q))
         (2 * (qx q * qz q - qw q * qy q)).
Proof.
  destruct q as [w x y z].
  unfold glm.rotate, glm.cross, vadd, vmuls. cbn [vx vy vz qw qx qy qz].
  f_equal; ring.
Qed.

Lemma rotate_y_axis (q : quat) :
  glm.rotate q (Vec3 0 1 0)
  = Vec3 (2 * (qx q * qy q - qw q * qz q))
         (1 - 2 * (qx q * qx q + qz q * qz q))
         (2 * (qy q * qz q + qw q * qx q)).
Proof.
  destruct q as [w x y z].
  unfold glm.rotate, glm.cross, vadd, vmuls. cbn [vx vy vz qw qx qy qz].
  f_equal; ring.
Qed.

Lemma rotate_minus_z_axis (q : quat) :
  glm.rotate q (Vec3 0 0 (-1))
  = Vec3 (- (2 * (qx q * qz q + qw q * qy q)))
         (- (2 * (qy q * qz q - qw q * qx q)))
         (- (1 - 2 * (qx q * qx q + qy q * qy q))).
Proof.
  destruct q as [w x y z].
  unfold glm.rotate, glm.cross, vadd, vmuls. cbn [vx vy vz qw qx qy qz].
  f_equal; ring.
Qed.

Lemma unit_quat_basis (q : quat) :
  glm.qdot q q = 1 ->
  let U := glm.rotate q (Vec3 1 0 0) in
  let V := glm.rotate q (Vec3 0 1 0) in
  let D := glm.rotate q (Vec3 0 0 (-1)) in
  glm.dot U U = 1 /\ glm.dot V V = 1 /\ glm.dot D D = 1
  /\ glm.dot U V = 0 /\ glm.dot U D = 0 /\ glm.dot V D = 0
  /\ glm.cross U V = -^ D.
Proof.
  intros N U V D. subst U V D.
  rewrite rotate_x_axis, rotate_y_axis, rotate_minus_z_axis.
  destruct q as [w x y z]. unfold glm.qdot in N.
  unfold glm.dot, glm.cross, vneg. cbn [vx vy vz qw qx qy qz] in *.
  assert (M : forall k, k * (w * w + x * x + y * y + z * z) = k * 1)
    by (intros k; rewrite N; reflexivity).
  pose proof (M (x * x)). pose proof (M (y * y)). pose proof (M (z * z)).
  pose proof (M (x * y)). pose proof (M (x * z)). pose proof (M (y * z)).
  pose proof (M (w * x)). pose proof (M (w * y)). pose proof (M (w * z)).
  repeat split; try lra; f_equal; lra.
Qed.

(** ** The stored inverse projections *)

Lemma frustum_inverse_undoes (L R' B T n f : R) :
  R' - L <> 0 -> T - B <> 0 -> n <> 0 -> f <> 0 -> f - n <> 0 ->
  undoes (frustum_inverse L R' B T n f) (frustum_matrix L R' B T n f)
  /\ undoes (frustum_matrix L R' B T n f) (frustum_inverse L R' B T n f).
Proof.
  intros HRL HTB Hn Hf Hfn.
  split; intros [x y z w];
    unfold frustum_inverse, frustum_matrix, glm.mul_m4_v4, mget;
    cbn [mcol vget col0 col1 col2 col3 x4 y4 z4 w4];
    f_equal; field; repeat split; assumption.
Qed.

(** The orthographic pair: the depth entries [2][2] and [3][2] of the
    stored inverse are [(far - near) / 2] and [(near + far) / 2], those of
    the inverse matrix with the sign changed, so the composition negates
    the third component. *)
Lemma ortho_inverse_flips_depth (L R' B T n f : R) (v : vec4) :
  R' - L <> 0 -> T - B <> 0 -> f - n <> 0 ->
  glm.mul_m4_v4 (ortho_inverse L R' B T n f) (glm.mul_m4_v4 (ortho_matrix L R' B T n f) v)
  = Vec4 (x4 v) (y4 v) (- z4 v) (w4 v).
Proof.
  intros HRL HTB Hfn. destruct v as [x y z w].
  unfold ortho_inverse, ortho_matrix, glm.mul_m4_v4, mget.
  cbn [mcol vget col0 col1 col2 col3 x4 y4 z4 w4].
  rewrite ?half_eq. f_equal; field; repeat split; assumption.
Qed.

(** The fields of the camera after [CameraPersp::calcProjection], one by
    one: the extents of the lens, the two matrices of those extents, and
    the clip distances it was given. *)
Lemma CameraPersp_calcProjection_fields (p : CameraPersp) :
  let c := persp_camera p in
  let c' := persp_camera (CameraPersp_calcProjection p) in
  let top := mNearClip c * tan (toRadians (mFov c) / 2) in
  let sx := x2 (mLensShift p) in
  let sy := y2 (mLensShift p) in
  mProjectionMatrix c'
  = frustum_matrix (- (top * mAspectRatio c) * (1 - sx)) (top * mAspectRatio c * (1 + sx))
      (- top * (1 - sy)) (top * (1 + sy)) (mNearClip c) (mFarClip c)
  /\ mInverseProjectionMatrix c'
  = frustum_inverse (- (top * mAspectRatio c) * (1 - sx)) (top * mAspectRatio c * (1 + sx))
      (- top * (1 - sy)) (top * (1 + sy)) (mNearClip c) (mFarClip c).
Proof.
  intros c c' top sx sy. subst c c' top sx sy.
  rewrite CameraPersp_calcProjection_closed.
  pose proof (calcProjection_frustum_closed p) as F. cbv zeta in F. rewrite F.
  split; reflexivity.
Qed.

(** X1.  The matrix that [CameraPersp::calcProjection] stores as the
    inverse projection is the inverse of the projection matrix it stores:
    applying one after the other, in either order, returns every
    homogeneous vector unchanged.  This needs a frustum that is not
    degenerate: near and far clip distances non-zero and different, and a
    field of view and an aspect ratio that give the frustum a width and a
    height. *)
Theorem persp_inverse_projection_undoes_projection (p : CameraPersp) :
  mNearClip (persp_camera p) <> 0 ->
  mFarClip (persp_camera p) <> 0 ->
  mFarClip (persp_camera p) <> mNearClip (persp_camera p) ->
  tan (toRadians (mFov (persp_camera p)) / 2) <> 0 ->
  mAspectRatio (persp_camera p) <> 0 ->
  undoes (mInverseProjectionMatrix (persp_camera (CameraPersp_calcProjection p)))
         (mProjectionMatrix (persp_camera (CameraPersp_calcProjection p)))
  /\ undoes (mProjectionMatrix (persp_camera (CameraPersp_calcProjection p)))
            (mInverseProjectionMatrix (persp_camera (CameraPersp_calcProjection p))).
Proof.
  intros Hn Hf Hfn Ht Ha.
  destruct (CameraPersp_calcProjection_fields p) as [P I]. cbv zeta in P, I.
  rewrite P, I.
  assert (Htop : mNearClip (persp_camera p) * tan (toRadians (mFov (persp_camera p)) / 2)
                 <> 0) by (apply Rmult_integral_contrapositive; split; assumption).
  revert Htop.
  generalize (mNearClip (persp_camera p) * tan (toRadians (mFov (persp_camera p)) / 2)).
  intros top Htop.
  assert (Hta : top * mAspectRatio (persp_camera p) <> 0)
    by (apply Rmult_integral_contrapositive; split; assumption).
  apply frustum_inverse_undoes; try assumption.
  - replace (top * mAspectRatio (persp_camera p) * (1 + x2 (mLensShift p))
             - - (top * mAspectRatio (persp_camera p)) * (1 - x2 (mLensShift p)))
      with (2 * (top * mAspectRatio (persp_camera p))) by ring.
    lra.
  - replace (top * (1 + y2 (mLensShift p)) - - top * (1 - y2 (mLensShift p)))
      with (2 * top) by ring.
    lra.
  - lra.
Qed.

Lemma example_half_fov : tan (toRadians (mFov example_camera) / 2) = 1.
Proof.
  unfold toRadians. cbn [mFov example_camera].
  replace (90 * (PI / 180) / 2) with (PI / 4) by field.
  exact tan_PI4.
Qed.

Lemma persp_inverse_projection_undoes_projection_witness :
  undoes (mInverseProjectionMatrix (persp_camera (CameraPersp_calcProjection example_persp)))
         (mProjectionMatrix (persp_camera (CameraPersp_calcProjection example_persp))).
Proof.
  apply (persp_inverse_projection_undoes_projection example_persp).
  - cbn; lra.
  - cbn; lra.
  - cbn; lra.
  - change (persp_camera example_persp) with example_camera.
    rewrite example_half_fov. lra.
  - cbn; lra.
Defined.

(** X2.  [CameraOrtho::calcProjection] stores an inverse projection that
    is not the inverse of the projection it stores.  For a box with a
    width, a height and a depth, applying the projection and then the
    stored inverse returns [(x, y, -z, w)]: the first, second and fourth
    components come back, the third comes back negated: the depth entries
    [2][2] and [3][2] of the stored inverse are [(far - near) / 2] and
    [(near + far) / 2], where the inverse matrix has [-(far - near) / 2]
    and [-(near + far) / 2]. *)
Theorem ortho_inverse_projection_negates_depth (o : CameraOrtho) :
  mFrustumRight (ortho_camera o) <> mFrustumLeft (ortho_camera o) ->
  mFrustumTop (ortho_camera o) <> mFrustumBottom (ortho_camera o) ->
  mFarClip (ortho_camera o) <> mNearClip (ortho_camera o) ->
  (forall v : vec4,
      glm.mul_m4_v4 (mInverseProjectionMatrix (ortho_camera (CameraOrtho_calcProjection o)))
        (glm.mul_m4_v4 (mProjectionMatrix (ortho_camera (CameraOrtho_calcProjection o))) v)
      = Vec4 (x4 v) (y4 v) (- z4 v) (w4 v))
  /\ ~ undoes (mInverseProjectionMatrix (ortho_camera (CameraOrtho_calcProjection o)))
              (mProjectionMatrix (ortho_camera (CameraOrtho_calcProjection o))).
Proof.
  intros HRL HTB Hfn.
  rewrite CameraOrtho_calcProjection_closed.
  cbn [ortho_camera set_ortho_camera mProjectionMatrix mInverseProjectionMatrix
       set_mProjectionCached set_mInverseProjectionMatrix set_mProjectionMatrix].
  assert (A : forall v : vec4,
             glm.mul_m4_v4 (ortho_inverse_of (ortho_camera o))
               (glm.mul_m4_v4 (ortho_matrix_of (ortho_camera o)) v)
             = Vec4 (x4 v) (y4 v) (- z4 v) (w4 v)).
  { intros v. apply ortho_inverse_flips_depth; lra. }
  split; [ exact A | ].
  intros U. specialize (U (Vec4 0 0 1 0)). rewrite A in U.
  cbn [x4 y4 z4 w4] in U. injection U as U. lra.
Qed.

Lemma ortho_inverse_projection_negates_depth_witness :
  ~ undoes (mInverseProjectionMatrix (ortho_camera (CameraOrtho_calcProjection example_ortho)))
           (mProjectionMatrix (ortho_camera (CameraOrtho_calcProjection example_ortho))).
Proof.
  apply (ortho_inverse_projection_negates_depth example_ortho); cbn; lra.
Defined.

(** ** The perspective matrix in terms of the lens *)

(** X3.  After [setPerspective( fov, aspect, near, far )] and
    [setLensShift( h, v )], the projection matrix that
    [getProjectionMatrix] returns is determined by the lens alone, whatever
    was cached before: its diagonal holds [2 * focalLength / aspect] and
    [2 * focalLength] (with [getFocalLength] of the same camera), its third
    column holds the lens shift [(h, v)] itself and the two depth entries,
    and the near clip distance cancels from the first two columns. *)
Theorem persp_projection_from_lens (p : CameraPersp) (fov a n f h v : R) :
  n <> 0 -> tan (toRadians fov / 2) <> 0 -> a <> 0 ->
  fst (Camera_getProjectionMatrix (setLensShift h v (setPerspective fov a n f p)))
  = Mat4
      (Vec4 (2 * getFocalLength
                   (persp_camera (setLensShift h v (setPerspective fov a n f p))) / a)
            0 0 0)
      (Vec4 0
            (2 * getFocalLength
                   (persp_camera (setLensShift h v (setPerspective fov a n f p))))
            0 0)
      (Vec4 h v (- (f + n) / (f - n)) (-1))
      (Vec4 0 0 (-2 * f * n / (f - n)) 0).
Proof.
  intros Hn Ht Ha.
  cbv delta [Camera_getProjectionMatrix]; cbv beta. open_class.
  destruct (CameraPersp_calcProjection_fields
              (setLensShift h v (setPerspective fov a n f p))) as [P _].
  cbv zeta in P. revert P.
  generalize (CameraPersp_calcProjection (setLensShift h v (setPerspective fov a n f p))).
  intros q P.
  unfold getFocalLength.
  replace (mProjectionCached (persp_camera (setLensShift h v (setPerspective fov a n f p))))
    with false by (destruct p; reflexivity).
  cbn [negb fst]. rewrite P. clear P q.
  replace (mNearClip (persp_camera (setLensShift h v (setPerspective fov a n f p))))
    with n by (destruct p; reflexivity).
  replace (mFarClip (persp_camera (setLensShift h v (setPerspective fov a n f p))))
    with f by (destruct p; reflexivity).
  replace (mFov (persp_camera (setLensShift h v (setPerspective fov a n f p))))
    with fov by (destruct p; reflexivity).
  replace (mAspectRatio (persp_camera (setLensShift h v (setPerspective fov a n f p))))
    with a by (destruct p; reflexivity).
  replace (mLensShift (setLensShift h v (setPerspective fov a n f p)))
    with (Vec2 h v) by (destruct p; reflexivity).
  cbn [x2 y2].
  replace (toRadians fov * 0.5) with (toRadians fov / 2) by lra.
  revert Ht. generalize (tan (toRadians fov / 2)). intros t Ht.
  assert (Hnt : n * t <> 0) by (apply Rmult_integral_contrapositive; split; assumption).
  assert (Hnta : n * t * a <> 0)
    by (apply Rmult_integral_contrapositive; split; assumption).
  assert (Hw : n * t * a * (1 + h) - - (n * t * a) * (1 - h) <> 0)
    by (replace (n * t * a * (1 + h) - - (n * t * a) * (1 - h))
          with (2 * (n * t * a)) by ring; lra).
  assert (Hh : n * t * (1 + v) - - (n * t) * (1 - v) <> 0)
    by (replace (n * t * (1 + v) - - (n * t) * (1 - v)) with (2 * (n * t)) by ring; lra).
  unfold frustum_matrix.
  f_equal; f_equal; try reflexivity; field; repeat split; assumption.
Qed.

Lemma persp_projection_from_lens_witness :
  fst (Camera_getProjectionMatrix (setLensShift 0 0 (setPerspective 90 1 1 2 example_persp)))
  = Mat4
      (Vec4 (2 * getFocalLength
                   (persp_camera (setLensShift 0 0 (setPerspective 90 1 1 2 example_persp)))
             / 1) 0 0 0)
      (Vec4 0
            (2 * getFocalLength
                   (persp_camera (setLensShift 0 0 (setPerspective 90 1 1 2 example_persp))))
            0 0)
      (Vec4 0 0 (- (2 + 1) / (2 - 1)) (-1))
      (Vec4 0 0 (-2 * 2 * 1 / (2 - 1)) 0).
Proof.
  apply (persp_projection_from_lens example_persp 90 1 1 2 0 0).
  - lra.
  - pose proof example_half_fov as E. cbn [mFov example_camera] in E. rewrite E. lra.
  - lra.
Defined.

(** ** The pose after [setOrientation] and after the [lookAt] family *)

Lemma qnormalize_unit (q : quat) :
  glm.qdot (glm.qnormalize q) (glm.qnormalize q) = 1.
Proof.
  unfold glm.qnormalize.
  destruct (Rle_dec (sqrt (glm.qdot q q)) 0) as [Z | P].
  - unfold glm.qdot. cbn [qw qx qy qz]. ring.
  - assert (Pos : 0 < sqrt (glm.qdot q q)) by lra.
    assert (Q : 0 <= glm.qdot q q).
    { destruct q as [w x y z]. unfold glm.qdot. cbn [qw qx qy qz]. nra. }
    pose proof (sqrt_sqrt _ Q) as S.
    revert Pos S. generalize (sqrt (glm.qdot q q)). intros s Pos S.
    destruct q as [w x y z]. unfold glm.qdot in *. cbn [qw qx qy qz] in *.
    replace (w * (1 / s) * (w * (1 / s)) + x * (1 / s) * (x * (1 / s))
             + y * (1 / s) * (y * (1 / s)) + z * (1 / s) * (z * (1 / s)))
      with ((w * w + x * x + y * y + z * z) / (s * s)) by (field; lra).
    rewrite <- S. field. lra.
Qed.

Lemma normalize_of_unit (d : vec3) : glm.dot d d = 1 -> glm.normalize d = d.
Proof.
  intros U. unfold glm.normalize. rewrite U, sqrt_1, Rinv_1.
  destruct d. unfold vmuls. cbn [vx vy vz]. f_equal; ring.
Qed.

(** X4.  After [setOrientation( q )], for every quaternion [q] (the zero
    quaternion included, which glm's [normalize] replaces by the
    identity), the view direction is a unit vector, and the basis that
    [Camera::calcViewMatrix] then stores is orthonormal and right-handed:
    [mU], [mV], [mW] are unit vectors, pairwise perpendicular, with
    [cross( mU, mV ) = mW], and [mW] is the opposite of the view
    direction. *)
Theorem setOrientation_orthonormal_basis (q : quat) (c : Camera) :
  let c' := Camera_calcViewMatrix (setOrientation q c) in
  glm.dot (mViewDirection c') (mViewDirection c') = 1
  /\ mW c' = -^ mViewDirection c'
  /\ glm.dot (mU c') (mU c') = 1
  /\ glm.dot (mV c') (mV c') = 1
  /\ glm.dot (mW c') (mW c') = 1
  /\ glm.dot (mU c') (mV c') = 0
  /\ glm.dot (mU c') (mW c') = 0
  /\ glm.dot (mV c') (mW c') = 0
  /\ glm.cross (mU c') (mV c') = mW c'.
Proof.
  intros c'. subst c'. rewrite Camera_calcViewMatrix_closed.
  cbn [mViewDirection mU mV mW set_mInverseModelViewCached set_mModelViewCached
       set_mViewMatrix set_mU set_mV set_mW].
  unfold basis_U, basis_V, basis_W.
  change (mViewDirection (setOrientation q c))
    with (glm.rotate (glm.qnormalize q) (Vec3 0 0 (-1))).
  change (mOrientation (setOrientation q c)) with (glm.qnormalize q).
  destruct (unit_quat_basis (glm.qnormalize q) (qnormalize_unit q))
    as (UU & VV & DD & UV & UD & VD & X).
  rewrite (normalize_of_unit _ DD).
  revert UU VV DD UV UD VD X.
  generalize (glm.rotate (glm.qnormalize q) (Vec3 1 0 0)).
  generalize (glm.rotate (glm.qnormalize q) (Vec3 0 1 0)).
  generalize (glm.rotate (glm.qnormalize q) (Vec3 0 0 (-1))).
  intros [d1 d2 d3] [v1 v2 v3] [u1 u2 u3].
  unfold glm.dot, vneg. cbn [vx vy vz]. intros UU VV DD UV UD VD X.
  repeat split; try assumption; lra.
Qed.

(** X5.  The overloads of [lookAt] are compositions of the simpler
    mutators: [lookAt( eye, target )] is [setEyePoint( eye )] followed by
    [lookAt( target )], and [lookAt( eye, target, up )] is
    [setEyePoint( eye )], then [setWorldUp( up )], then
    [lookAt( target )]; the orientation that [setWorldUp] computes from
    the old view direction is overwritten.  The camera states are equal
    field by field. *)
Theorem lookAt_overloads_compose `{MatrixLib} (e t u : vec3) (c : Camera) :
  lookAt2 e t c = lookAt t (setEyePoint e c)
  /\ lookAt3 e t u c = lookAt t (setWorldUp u (setEyePoint e c)).
Proof.
  cbv delta [lookAt lookAt2 lookAt3 setEyePoint setWorldUp]; cbv beta.
  generalize alignZAxisWithTarget toQuat; intros al tq.
  break_camera c. fields. split; reflexivity.
Qed.

Lemma approach_target (e t : vec3) :
  0 < glm.dot (t -^ e) (t -^ e) ->
  e +^ (glm.distance e t *^ glm.normalize (t -^ e)) = t.
Proof.
  intros P. unfold glm.distance, glm.length, glm.normalize.
  assert (Sp : 0 < sqrt (glm.dot (t -^ e) (t -^ e))) by (apply sqrt_lt_R0; exact P).
  revert Sp. generalize (sqrt (glm.dot (t -^ e) (t -^ e))). intros s Sp.
  destruct e, t. unfold vadd, vsub, vscale, vmuls. cbn [vx vy vz].
  f_equal; field; lra.
Qed.

(** X6.  [setCenterOfInterestPoint( target )] with a target that is not
    the eye point leaves the camera aimed at the target: the view
    direction is a unit vector, the stored centre of interest is the
    distance from the eye to the target, and walking that distance from
    the eye point along the view direction arrives at the target.  The eye
    point does not move and the view cache is marked stale. *)
Theorem setCenterOfInterestPoint_reaches_target `{MatrixLib} (t : vec3) (c : Camera) :
  0 < glm.distance (mEyePoint c) t ->
  mEyePoint (setCenterOfInterestPoint t c) = mEyePoint c
  /\ mCenterOfInterest (setCenterOfInterestPoint t c) = glm.distance (mEyePoint c) t
  /\ glm.length (mViewDirection (setCenterOfInterestPoint t c)) = 1
  /\ mEyePoint (setCenterOfInterestPoint t c)
     +^ (mCenterOfInterest (setCenterOfInterestPoint t c)
         *^ mViewDirection (setCenterOfInterestPoint t c)) = t
  /\ mModelViewCached (setCenterOfInterestPoint t c) = false.
Proof.
  intros D.
  assert (P : 0 < glm.dot (t -^ mEyePoint c) (t -^ mEyePoint c)).
  { unfold glm.distance, glm.length in D.
    destruct (Rle_or_lt (glm.dot (t -^ mEyePoint c) (t -^ mEyePoint c)) 0) as [Z | Z].
    - rewrite (sqrt_neg_0 _ Z) in D. lra.
    - exact Z. }
  change (mEyePoint (setCenterOfInterestPoint t c)) with (mEyePoint c).
  change (mCenterOfInterest (setCenterOfInterestPoint t c))
    with (glm.distance (mEyePoint c) t).
  change (mViewDirection (setCenterOfInterestPoint t c))
    with (glm.normalize (t -^ mEyePoint c)).
  repeat split.
  - unfold glm.length. rewrite (normalize_unit _ P). apply sqrt_1.
  - apply approach_target. exact P.
Qed.

Lemma setCenterOfInterestPoint_reaches_target_witness :
  mEyePoint (@setCenterOfInterestPoint example_lib (Vec3 0 0 (-3)) example_camera)
  +^ (mCenterOfInterest (@setCenterOfInterestPoint example_lib (Vec3 0 0 (-3)) example_camera)
      *^ mViewDirection (@setCenterOfInterestPoint example_lib (Vec3 0 0 (-3)) example_camera))
  = Vec3 0 0 (-3).
Proof.
  apply (@setCenterOfInterestPoint_reaches_target example_lib (Vec3 0 0 (-3)) example_camera).
  unfold glm.distance, glm.length, glm.dot, vsub. cbn [mEyePoint example_camera vx vy vz].
  apply sqrt_lt_R0. lra.
Defined.

(** ** Invariants of the queries *)

Section QueryInvariant.
Context {C : Type} `{CameraVirtual C} (Inv : C -> Prop).
Hypothesis Inv_calcMatrices : forall c, Inv c -> Inv (calcMatrices c).
Hypothesis Inv_getProjectionMatrix : forall c, Inv c -> Inv (snd (getProjectionMatrix c)).
Hypothesis Inv_getViewMatrix : forall c, Inv c -> Inv (snd (getViewMatrix c)).
Hypothesis Inv_getInverseViewMatrix :
  forall c, Inv c -> Inv (snd (getInverseViewMatrix c)).

(** An invariant of the three accessors and of [calcMatrices] is an
    invariant of every query. *)
Lemma run_query_invariant (q : Query) (c : C) : Inv c -> Inv (run_query q c).
Proof.
  intros I.
  destruct q; cbn [run_query].
  - apply Inv_getProjectionMatrix, I.
  - apply Inv_getViewMatrix, I.
  - apply Inv_getInverseViewMatrix, I.
  - apply (Inv_calcMatrices c I).
  - apply (Inv_calcMatrices c I).
  - apply (Inv_calcMatrices c I).
  - apply (Inv_calcMatrices c I).
  - unfold getBillboardVectors.
    pose proof (Inv_getViewMatrix c I) as I1.
    destruct (getViewMatrix c) as [m1 c1]. cbn [snd] in I1.
    pose proof (Inv_getViewMatrix c1 I1) as I2.
    destruct (getViewMatrix c1) as [m2 c2]. exact I2.
  - unfold worldToScreen.
    pose proof (Inv_getViewMatrix c I) as I1.
    destruct (getViewMatrix c) as [m1 c1]. cbn [snd] in I1.
    pose proof (Inv_getProjectionMatrix c1 I1) as I2.
    destruct (getProjectionMatrix c1) as [m2 c2]. exact I2.
  - unfold worldToEyeDepth.
    pose proof (Inv_getViewMatrix c I) as I1.
    destruct (getViewMatrix c) as [m1 c1]. exact I1.
  - unfold worldToNdc.
    pose proof (Inv_getViewMatrix c I) as I1.
    destruct (getViewMatrix c) as [m1 c1]. cbn [snd] in I1.
    pose proof (Inv_getProjectionMatrix c1 I1) as I2.
    destruct (getProjectionMatrix c1) as [m2 c2]. exact I2.
Qed.

Lemma run_queries_invariant (qs : list Query) (c : C) : Inv c -> Inv (run_queries qs c).
Proof.
  unfold run_queries. revert c.
  induction qs as [ | q qs IH ]; intros c I; cbn [fold_left].
  - exact I.
  - apply IH. apply run_query_invariant. exact I.
Qed.

End QueryInvariant.

(** ** The caches of a perspective camera stay coherent *)

Ltac open_coherent :=
  cbv delta [coherent view_coherent projection_coherent view_matrix_of basis_U basis_V
             basis_W stored_extents lens_extents frustum_matrix_of frustum_inverse_of
             on_persp with_pose with_lens] in *;
  cbv beta in *.

Lemma coherent_calcViewMatrix (p : CameraPersp) :
  coherent p -> coherent (on_persp Camera_calcViewMatrix p).
Proof.
  intros [V P]. unfold on_persp. rewrite Camera_calcViewMatrix_closed.
  break_persp p. open_coherent. fields.
  split; [ intros _; repeat split | exact P ].
Qed.

Lemma coherent_calcProjection (p : CameraPersp) :
  coherent p -> coherent (CameraPersp_calcProjection p).
Proof.
  intros [V P]. rewrite CameraPersp_calcProjection_closed.
  pose proof (calcProjection_frustum_closed p) as F. cbv zeta in F. rewrite F. clear F.
  break_persp p. open_coherent. fields.
  split; [ exact V | intros _; repeat split ].
Qed.




Lemma coherent_calcFraming sph (p : CameraPersp) :
  coherent p -> coherent (calcFraming sph p).
Proof.
  intros [V P]. cbv delta [calcFraming setEyePoint]; cbv beta.
  generalize (Rmax
    (getRadius sph / sin (toRadians (getFovHorizontal (persp_camera p) * 0.5)))
    (getRadius sph / sin (toRadians (getFov (persp_camera p) * 0.5)))).
  intros d.
  break_persp p. open_coherent. fields.
  split; [ intros F; discriminate F | exact P ].
Qed.


Lemma coherent_when (b : bool) (f : CameraPersp -> CameraPersp) (p : CameraPersp) :
  (forall p, coherent p -> coherent (f p)) ->
  coherent p -> coherent (if b then f p else p).
Proof. intros F I. destruct b; [ apply F, I | exact I ]. Qed.

Section PerspCoherent.
Context `{MatrixLib}.



Lemma coherent_getViewMatrix (p : CameraPersp) :
  coherent p -> coherent (snd (getViewMatrix p)).
Proof.
  intros I. open_class. cbv delta [Camera_getViewMatrix]; cbv beta zeta.
  cbn [snd]. apply coherent_when; [ exact coherent_calcViewMatrix | exact I ].
Qed.





End PerspCoherent.

(** The lazy computations write caches only: pose and lens stay. *)
Lemma pose_and_lens_calcViewMatrix (p : CameraPersp) :
  pose_and_lens (on_persp Camera_calcViewMatrix p) = pose_and_lens p.
Proof.
  unfold on_persp. rewrite Camera_calcViewMatrix_closed.
  destruct p as [c l]. reflexivity.
Qed.

Lemma pose_and_lens_calcProjection (p : CameraPersp) :
  pose_and_lens (CameraPersp_calcProjection p) = pose_and_lens p.
Proof.
  rewrite CameraPersp_calcProjection_closed.
  pose proof (calcProjection_frustum_closed p) as F. cbv zeta in F. rewrite F. clear F.
  destruct p as [c l]. reflexivity.
Qed.

Lemma pose_and_lens_calcMatrices (p : CameraPersp) :
  pose_and_lens (calcMatrices p) = pose_and_lens p.
Proof.
  cbv delta [calcMatrices]; cbv beta zeta. open_class.
  destruct (negb (mModelViewCached (persp_camera p))).
  - match goal with |- context [negb ?b] => destruct (negb b) end.
    + rewrite pose_and_lens_calcProjection. apply pose_and_lens_calcViewMatrix.
    + apply pose_and_lens_calcViewMatrix.
  - destruct (negb (mProjectionCached (persp_camera p))).
    + apply pose_and_lens_calcProjection.
    + reflexivity.
Qed.

(** After [calcMatrices] on a coherent camera, every cached field is the
    one of the pose and of the lens the camera had. *)
Lemma calcMatrices_settled (p : CameraPersp) :
  coherent p ->
  let c := persp_camera p in
  let c' := persp_camera (calcMatrices p) in
  mEyePoint c' = mEyePoint c
  /\ mViewDirection c' = mViewDirection c
  /\ mViewMatrix c' = view_matrix_of c
  /\ mU c' = basis_U c /\ mV c' = basis_V c /\ mW c' = basis_W c
  /\ stored_extents c' = lens_extents p
  /\ mProjectionMatrix c' = frustum_matrix_of_extents (lens_extents p)
  /\ mInverseProjectionMatrix c' = frustum_inverse_of c'.
Proof.
  intros I c c'. subst c c'.
  assert (I' : coherent (calcMatrices p)).
  { cbv delta [calcMatrices]; cbv beta zeta.
    apply coherent_when; [ exact coherent_calcProjection | ].
    apply coherent_when; [ exact coherent_calcViewMatrix | exact I ]. }
  destruct (calcMatrices_flags p) as [FV FP].
  pose proof (pose_and_lens_calcMatrices p) as K.
  revert I' FV FP K. generalize (calcMatrices p). intros p' [V P] FV FP K.
  cbn [base CameraPersp_calc] in FV, FP.
  specialize (V FV). specialize (P FP).
  destruct V as (Vm & VU & VV & VW). destruct P as (Pe & Pm & Pi).
  unfold pose_and_lens in K. injection K as K1 K2 K3 K4 K5 K6 K7 K8.
  assert (BU : basis_U (persp_camera p') = basis_U (persp_camera p))
    by (unfold basis_U; rewrite K3; reflexivity).
  assert (BV : basis_V (persp_camera p') = basis_V (persp_camera p))
    by (unfold basis_V; rewrite K3; reflexivity).
  assert (BW : basis_W (persp_camera p') = basis_W (persp_camera p))
    by (unfold basis_W; rewrite K2; reflexivity).
  assert (LE : lens_extents p' = lens_extents p)
    by (unfold lens_extents; rewrite K4, K5, K6, K7, K8; reflexivity).
  repeat split; try congruence.
  - rewrite Vm. unfold view_matrix_of. rewrite BU, BV, BW, K1. reflexivity.
  - rewrite Pm, <- LE, <- Pe. reflexivity.
Qed.

Lemma coherent_accessors `{MatrixLib} (p : CameraPersp) :
  coherent p ->
  fst (getViewMatrix p) = view_matrix_of (persp_camera p)
  /\ fst (getProjectionMatrix p) = frustum_matrix_of_extents (lens_extents p).
Proof.
  intros [V P]. split.
  - rewrite persp_getViewMatrix.
    destruct (mModelViewCached (persp_camera p)) eqn:F.
    + apply (V F).
    + rewrite Camera_calcViewMatrix_closed. reflexivity.
  - rewrite persp_getProjectionMatrix.
    destruct (mProjectionCached (persp_camera p)) eqn:F.
    + destruct (P F) as (Pe & Pm & _). rewrite Pm, <- Pe. reflexivity.
    + destruct (CameraPersp_calcProjection_fields p) as [Q _]. cbv zeta in Q.
      rewrite Q. reflexivity.
Qed.

Lemma example_persp_coherent : coherent example_persp.
Proof. split; intros F; discriminate F. Qed.



(** ** Queries through the view matrix *)

#[export] Instance CameraPersp_plain `{MatrixLib} : PlainView CameraPersp.
Proof. split; reflexivity. Qed.

#[export] Instance CameraOrtho_plain `{MatrixLib} : PlainView CameraOrtho.
Proof. split; reflexivity. Qed.

Lemma view_matrix_row3 (U V W d : vec3) (w : vec3) :
  glm.mul_m4_v4 (view_matrix U V W d) (vec4_of w 1)
  = Vec4 (glm.dot U w + vx d) (glm.dot V w + vy d) (glm.dot W w + vz d) 1.
Proof.
  unfold view_matrix, glm.mul_m4_v4, glm.dot, vec4_of, mget.
  cbn [mcol vget col0 col1 col2 col3 x4 y4 z4 w4 vx vy vz].
  f_equal; ring.
Qed.

Section PlainViewQueries.
Context {C : Type} `{PlainView C}.

(** What [getViewMatrix] returns and leaves, for a coherent view cache. *)
Lemma plain_getViewMatrix_coherent (c : C) :
  view_coherent (base c) ->
  fst (getViewMatrix c) = view_matrix_of (base c)
  /\ mModelViewCached (base (snd (getViewMatrix c))) = true
  /\ mViewMatrix (base (snd (getViewMatrix c))) = view_matrix_of (base c).
Proof.
  intros V. rewrite plain_getViewMatrix.
  cbv delta [Camera_getViewMatrix]; cbv beta zeta. cbn [fst snd].
  destruct (mModelViewCached (base c)) eqn:F; cbn [negb].
  - destruct (V F) as (Vm & _). repeat split; assumption.
  - rewrite plain_calcViewMatrix, Camera_calcViewMatrix_closed. repeat split.
Qed.

Lemma plain_getViewMatrix_twice (c : C) :
  getViewMatrix (snd (getViewMatrix c)) = getViewMatrix c.
Proof.
  rewrite !plain_getViewMatrix.
  cbv delta [Camera_getViewMatrix]; cbv beta zeta. cbn [fst snd].
  destruct (mModelViewCached (base c)) eqn:F; cbn [negb].
  - rewrite F. reflexivity.
  - rewrite plain_calcViewMatrix.
    replace (mModelViewCached (Camera_calcViewMatrix (base c))) with true by reflexivity.
    cbn [negb]. rewrite plain_calcViewMatrix. reflexivity.
Qed.

Lemma plain_worldToEyeDepth (w : vec3) (c : C) :
  view_coherent (base c) ->
  fst (worldToEyeDepth w c)
  = - glm.dot (w -^ mEyePoint (base c)) (glm.normalize (mViewDirection (base c))).
Proof.
  intros V. destruct (plain_getViewMatrix_coherent c V) as (M & _).
  unfold worldToEyeDepth. destruct (getViewMatrix c) as [m c1]. cbn [fst] in *.
  subst m. unfold view_matrix_of, basis_W.
  generalize (basis_U (base c)) (basis_V (base c)) (mEyePoint (base c))
             (glm.normalize (mViewDirection (base c))).
  intros U0 V0 e n.
  unfold view_matrix, eye_translation, glm.dot, vsub, vneg, mget.
  cbn [mcol vget col0 col1 col2 col3 x4 y4 z4 w4 vx vy vz]. ring.
Qed.

Lemma plain_getBillboardVectors (c : C) :
  view_coherent (base c) ->
  fst (getBillboardVectors c) = (basis_U (base c), basis_V (base c)).
Proof.
  intros V. destruct (plain_getViewMatrix_coherent c V) as (M & _).
  unfold getBillboardVectors.
  pose proof (plain_getViewMatrix_twice c) as T.
  destruct (getViewMatrix c) as [m c1]. cbn [fst snd] in *.
  rewrite T. subst m. cbn [fst].
  unfold view_matrix_of.
  generalize (eye_translation (mEyePoint (base c)) (basis_U (base c))
                (basis_V (base c)) (basis_W (base c))).
  generalize (basis_U (base c)) (basis_V (base c)) (basis_W (base c)).
  intros [u1 u2 u3] [v1 v2 v3] [w1 w2 w3] [d1 d2 d3]. reflexivity.
Qed.

End PlainViewQueries.

(** X8.  [worldToEyeDepth] measures the distance along the view direction,
    with the sign changed.  For a camera that uses the view matrix of the
    base class ([CameraPersp], [CameraOrtho]) and whose view cache is
    coherent, the depth of a world point [w] is
    [- dot( w - eyePoint, normalize( viewDirection ) )]; so for a view
    direction that is not the zero vector, the point [t] units in front of
    the eye has depth [-t], and the eye point itself has depth 0. *)
Theorem worldToEyeDepth_along_view {C : Type} `{PlainView C} (w : vec3) (t : R) (c : C) :
  view_coherent (base c) ->
  0 < glm.dot (mViewDirection (base c)) (mViewDirection (base c)) ->
  fst (worldToEyeDepth w c)
  = - glm.dot (w -^ mEyePoint (base c)) (glm.normalize (mViewDirection (base c)))
  /\ fst (worldToEyeDepth
            (mEyePoint (base c) +^ (t *^ glm.normalize (mViewDirection (base c)))) c)
     = - t
  /\ fst (worldToEyeDepth (mEyePoint (base c)) c) = 0.
Proof.
  intros V P.
  split; [ apply plain_worldToEyeDepth; exact V | ].
  rewrite !plain_worldToEyeDepth by exact V.
  pose proof (normalize_unit _ P) as N. revert N.
  generalize (glm.normalize (mViewDirection (base c))) (mEyePoint (base c)).
  intros [n1 n2 n3] [e1 e2 e3].
  unfold glm.dot, vadd, vsub, vscale. cbn [vx vy vz]. intros N.
  split.
  - replace ((e1 + t * n1 - e1) * n1 + (e2 + t * n2 - e2) * n2 + (e3 + t * n3 - e3) * n3)
      with (t * (n1 * n1 + n2 * n2 + n3 * n3)) by ring.
    rewrite N. ring.
  - ring.
Qed.

Lemma example_view_coherent : view_coherent example_camera.
Proof. intros F; discriminate F. Qed.

Lemma worldToEyeDepth_along_view_witness :
  fst (@worldToEyeDepth CameraPersp CameraPersp_calc (@CameraPersp_virtual example_lib)
         (mEyePoint example_camera
          +^ (5 *^ glm.normalize (mViewDirection example_camera))) example_persp)
  = - 5.
Proof.
  apply (@worldToEyeDepth_along_view CameraPersp CameraPersp_calc
           (@CameraPersp_virtual example_lib) (@CameraPersp_plain example_lib)
           (Vec3 0 0 0) 5 example_persp).
  - exact example_view_coherent.
  - unfold glm.dot. cbn. lra.
Defined.

(** X9.  [worldToScreen] is [worldToNdc] followed by the pixel mapping.
    For a camera that uses the view matrix of the base class and whose view
    cache is coherent, the two functions compute the same clip coordinates
    (the eye coordinates that [worldToScreen] truncates to three components
    and extends again by 1 already have fourth component 1), so the pixel
    position is [((ndc.x + 1) / 2 * width, (1 - (ndc.y + 1) / 2) * height)]
    for the [ndc] that [worldToNdc] returns, and both leave the camera in
    the same state. *)
Theorem worldToScreen_from_worldToNdc {C : Type} `{PlainView C}
  (w : vec3) (screenWidth screenHeight : R) (c : C) :
  view_coherent (base c) ->
  worldToScreen w screenWidth screenHeight c
  = (ndc_to_screen (fst (worldToNdc w c)) screenWidth screenHeight,
     snd (worldToNdc w c)).
Proof.
  intros V. destruct (plain_getViewMatrix_coherent c V) as (M & _).
  unfold worldToScreen, worldToNdc.
  destruct (getViewMatrix c) as [m c1]. cbn [fst] in M. subst m.
  unfold view_matrix_of. rewrite view_matrix_row3.
  unfold vec3_of, vec4_of. cbn [x4 y4 z4 w4 vx vy vz].
  destruct (getProjectionMatrix c1) as [proj c2]. cbn [fst snd].
  unfold ndc_to_screen. cbn [vx vy vz]. reflexivity.
Qed.

Lemma worldToScreen_from_worldToNdc_witness :
  @worldToScreen CameraOrtho CameraOrtho_calc (@CameraOrtho_virtual example_lib)
    (Vec3 1 2 3) 640 480 example_ortho
  = (ndc_to_screen
       (fst (@worldToNdc CameraOrtho CameraOrtho_calc (@CameraOrtho_virtual example_lib)
               (Vec3 1 2 3) example_ortho)) 640 480,
     snd (@worldToNdc CameraOrtho CameraOrtho_calc (@CameraOrtho_virtual example_lib)
            (Vec3 1 2 3) example_ortho)).
Proof.
  apply (@worldToScreen_from_worldToNdc CameraOrtho CameraOrtho_calc
           (@CameraOrtho_virtual example_lib) (@CameraOrtho_plain example_lib)).
  exact example_view_coherent.
Defined.

(** X10.  [getBillboardVectors] returns the camera's right and up axes.
    For a camera that uses the view matrix of the base class and whose view
    cache is coherent, the two vectors are the x axis and the y axis
    rotated by the orientation; when the orientation is a unit quaternion
    they are unit vectors perpendicular to each other. *)
Theorem getBillboardVectors_orthonormal {C : Type} `{PlainView C} (c : C) :
  view_coherent (base c) ->
  glm.qdot (mOrientation (base c)) (mOrientation (base c)) = 1 ->
  fst (getBillboardVectors c)
  = (glm.rotate (mOrientation (base c)) (Vec3 1 0 0),
     glm.rotate (mOrientation (base c)) (Vec3 0 1 0))
  /\ glm.dot (fst (fst (getBillboardVectors c))) (fst (fst (getBillboardVectors c))) = 1
  /\ glm.dot (snd (fst (getBillboardVectors c))) (snd (fst (getBillboardVectors c))) = 1
  /\ glm.dot (fst (fst (getBillboardVectors c))) (snd (fst (getBillboardVectors c))) = 0.
Proof.
  intros V N. rewrite (plain_getBillboardVectors c V). unfold basis_U, basis_V.
  cbn [fst snd].
  destruct (unit_quat_basis _ N) as (UU & VV & _ & UV & _).
  repeat split; assumption.
Qed.

Lemma getBillboardVectors_orthonormal_witness :
  fst (@getBillboardVectors CameraPersp CameraPersp_calc (@CameraPersp_virtual example_lib)
         example_persp)
  = (glm.rotate (Quat 1 0 0 0) (Vec3 1 0 0), glm.rotate (Quat 1 0 0 0) (Vec3 0 1 0)).
Proof.
  apply (@getBillboardVectors_orthonormal CameraPersp CameraPersp_calc
           (@CameraPersp_virtual example_lib) (@CameraPersp_plain example_lib)
           example_persp).
  - exact example_view_coherent.
  - unfold glm.qdot. cbn. lra.
Defined.

(** ** Rays and frustum corners of a perspective camera *)

Lemma normalize_scaled_unit (n : vec3) (d : R) :
  glm.dot n n = 1 -> 0 < d -> glm.normalize (n ^* d) = n.
Proof.
  intros N D. unfold glm.normalize.
  change (sqrt (glm.dot (n ^* d) (n ^* d))) with (glm.length (n ^* d)).
  rewrite length_vmuls. unfold glm.length. rewrite N, sqrt_1, Rabs_pos_eq by lra.
  destruct n. unfold vmuls. cbn [vx vy vz]. f_equal; field; lra.
Qed.

(** The ray of [generateRay] on a coherent perspective camera, for an image
    plane with the camera's aspect ratio. *)
Lemma generateRay_direction (p : CameraPersp) (u v : R) :
  coherent p ->
  0 < mNearClip (persp_camera p) ->
  0 < mAspectRatio (persp_camera p) ->
  0 < tan (toRadians (mFov (persp_camera p)) / 2) ->
  fst (generateRay u v (mAspectRatio (persp_camera p)) p)
  = {| ray_origin := mEyePoint (persp_camera p);
       ray_direction :=
         glm.normalize
           ((basis_U (persp_camera p) ^* ((u - 0.5) * mAspectRatio (persp_camera p)))
            +^ (basis_V (persp_camera p) ^* (v - 0.5))
            -^ (basis_W (persp_camera p) ^* getFocalLength (persp_camera p))) |}.
Proof.
  intros I Hn Ha Ht.
  destruct (calcMatrices_settled p I) as (E & _ & _ & SU & SV & SW & SE & _).
  cbv zeta in *.
  pose proof (pose_and_lens_calcMatrices p) as K.
  unfold pose_and_lens in K. injection K as _ _ _ _ _ Kn _ _.
  cbv delta [generateRay]; cbv beta zeta. cbn [fst].
  cbn [base CameraPersp_calc].
  revert E SU SV SW SE Kn. generalize (persp_camera (calcMatrices p)). intros c'.
  intros E SU SV SW SE Kn.
  unfold stored_extents, lens_extents in SE.
  injection SE as SL SR _ _ _ _.
  rewrite E, SU, SV, SW, SL, SR, Kn.
  unfold getFocalLength.
  replace (toRadians (mFov (persp_camera p)) * 0.5)
    with (toRadians (mFov (persp_camera p)) / 2) by lra.
  revert Ht. generalize (tan (toRadians (mFov (persp_camera p)) / 2)). intros t Ht.
  revert Hn Ha. generalize (mNearClip (persp_camera p)) (mAspectRatio (persp_camera p)).
  intros n a Hn Ha.
  replace (n * t * a * (1 + x2 (mLensShift p)) - - (n * t * a) * (1 - x2 (mLensShift p)))
    with (2 * (n * t * a)) by ring.
  assert (0 < n * t) by (apply Rmult_lt_0_compat; assumption).
  assert (0 < n * t * a) by (apply Rmult_lt_0_compat; assumption).
  rewrite Rabs_pos_eq by lra.
  replace (a / (2 * (n * t * a)) * n) with (1 / (t * 2)) by (field; lra).
  reflexivity.
Qed.

Lemma getFocalLength_positive (c : Camera) :
  0 < tan (toRadians (mFov c) / 2) -> 0 < getFocalLength c.
Proof.
  intros Ht. unfold getFocalLength.
  replace (toRadians (mFov c) * 0.5) with (toRadians (mFov c) / 2) by lra.
  apply Rdiv_lt_0_compat; lra.
Qed.

(** X11.  [generateRay] on a coherent perspective camera, called with the
    camera's own aspect ratio: the ray starts at the eye point and points
    through the image plane that lies one focal length ([getFocalLength])
    in front of the eye, is [aspect] wide and 1 high, at
    [(u - 0.5) * aspect] along the right axis and [v - 0.5] along the up
    axis; the lens shift does not enter.  This needs a positive near clip
    distance, aspect ratio and tangent of half the field of view.  For a
    view direction that is not the zero vector, the ray through the centre
    ([u = v = 0.5]) is the normalized view direction. *)
Theorem generateRay_through_image_plane (p : CameraPersp) (u v : R) :
  coherent p ->
  0 < mNearClip (persp_camera p) ->
  0 < mAspectRatio (persp_camera p) ->
  0 < tan (toRadians (mFov (persp_camera p)) / 2) ->
  fst (generateRay u v (mAspectRatio (persp_camera p)) p)
  = {| ray_origin := mEyePoint (persp_camera p);
       ray_direction :=
         glm.normalize
           ((basis_U (persp_camera p) ^* ((u - 0.5) * mAspectRatio (persp_camera p)))
            +^ (basis_V (persp_camera p) ^* (v - 0.5))
            -^ (basis_W (persp_camera p) ^* getFocalLength (persp_camera p))) |}
  /\ (0 < glm.dot (mViewDirection (persp_camera p)) (mViewDirection (persp_camera p)) ->
      ray_direction (fst (generateRay 0.5 0.5 (mAspectRatio (persp_camera p)) p))
      = glm.normalize (mViewDirection (persp_camera p))).
Proof.
  intros I Hn Ha Ht.
  split; [ apply generateRay_direction; assumption | ].
  intros P. rewrite generateRay_direction by assumption. cbn [ray_direction].
  unfold basis_W.
  pose proof (normalize_unit _ P) as N.
  pose proof (getFocalLength_positive _ Ht) as F.
  rewrite <- (normalize_scaled_unit _ _ N F) at 2.
  f_equal.
  generalize (glm.normalize (mViewDirection (persp_camera p)))
             (basis_U (persp_camera p)) (basis_V (persp_camera p))
             (getFocalLength (persp_camera p)) (mAspectRatio (persp_camera p)).
  intros [n1 n2 n3] [u1 u2 u3] [v1 v2 v3] f a.
  unfold vadd, vsub, vmuls, vneg. cbn [vx vy vz].
  f_equal; lra.
Qed.

Lemma generateRay_through_image_plane_witness :
  ray_origin (fst (generateRay 0.25 0.75 (mAspectRatio (persp_camera example_persp))
                     example_persp))
  = Vec3 0 0 0.
Proof.
  refine (f_equal ray_origin
            (proj1 (generateRay_through_image_plane example_persp 0.25 0.75 _ _ _ _))).
  - exact example_persp_coherent.
  - cbn; lra.
  - cbn; lra.
  - change (persp_camera example_persp) with example_camera.
    rewrite example_half_fov. lra.
Defined.

(** The eye coordinates of a point given in the camera frame: for an
    orthonormal right axis [U], up axis [V] and view direction [n], the
    view matrix sends [e + d n + b V + a U] to [(a, b, -d, 1)]. *)
Lemma eye_coords_of_frame (U V n e : vec3) (a b d : R) :
  glm.dot U U = 1 -> glm.dot V V = 1 -> glm.dot n n = 1 ->
  glm.dot U V = 0 -> glm.dot U n = 0 -> glm.dot V n = 0 ->
  glm.mul_m4_v4 (view_matrix U V (-^ n) (eye_translation e U V (-^ n)))
    (vec4_of (e +^ (d *^ n) +^ (b *^ V) +^ (a *^ U)) 1)
  = Vec4 a b (- d) 1.
Proof.
  intros UU VV NN UV UN VN. rewrite view_matrix_row3.
  destruct U as [u1 u2 u3], V as [v1 v2 v3], n as [n1 n2 n3], e as [e1 e2 e3].
  unfold eye_translation, vadd, vscale, vneg in *. unfold glm.dot in *.
  cbn [vx vy vz] in *.
  f_equal.
  - transitivity (d * (u1 * n1 + u2 * n2 + u3 * n3) + b * (u1 * v1 + u2 * v2 + u3 * v3)
                  + a * (u1 * u1 + u2 * u2 + u3 * u3)); [ ring | ].
    rewrite UU, UV, UN. ring.
  - transitivity (d * (v1 * n1 + v2 * n2 + v3 * n3) + b * (v1 * v1 + v2 * v2 + v3 * v3)
                  + a * (u1 * v1 + u2 * v2 + u3 * v3)); [ ring | ].
    rewrite VV, UV, VN. ring.
  - transitivity (- (d * (n1 * n1 + n2 * n2 + n3 * n3)
                     + b * (v1 * n1 + v2 * n2 + v3 * n3)
                     + a * (u1 * n1 + u2 * n2 + u3 * n3))); [ ring | ].
    rewrite NN, UN, VN. ring.
Qed.

(** The perspective matrix on a point of the frustum: the point at depth
    [d] whose offsets are [s] and [t] of the way across the frustum
    section at that depth. *)
Lemma frustum_matrix_point (L R' B T n f a b d : R) :
  glm.mul_m4_v4 (frustum_matrix L R' B T n f) (Vec4 a b (- d) 1)
  = Vec4 (2 * n / (R' - L) * a - (R' + L) / (R' - L) * d)
         (2 * n / (T - B) * b - (T + B) / (T - B) * d)
         ((f + n) / (f - n) * d - 2 * f * n / (f - n))
         d.
Proof.
  unfold frustum_matrix, glm.mul_m4_v4, mget.
  cbn [mcol vget col0 col1 col2 col3 x4 y4 z4 w4].
  f_equal; unfold Rdiv; ring.
Qed.

Lemma worldToNdc_cached `{MatrixLib} (w : vec3) (p : CameraPersp) :
  mModelViewCached (persp_camera p) = true ->
  mProjectionCached (persp_camera p) = true ->
  fst (worldToNdc w p)
  = Vec3
      (x4 (glm.mul_m4_v4 (mProjectionMatrix (persp_camera p))
             (glm.mul_m4_v4 (mViewMatrix (persp_camera p)) (vec4_of w 1)))
       / w4 (glm.mul_m4_v4 (mProjectionMatrix (persp_camera p))
               (glm.mul_m4_v4 (mViewMatrix (persp_camera p)) (vec4_of w 1))))
      (y4 (glm.mul_m4_v4 (mProjectionMatrix (persp_camera p))
             (glm.mul_m4_v4 (mViewMatrix (persp_camera p)) (vec4_of w 1)))
       / w4 (glm.mul_m4_v4 (mProjectionMatrix (persp_camera p))
               (glm.mul_m4_v4 (mViewMatrix (persp_camera p)) (vec4_of w 1))))
      (z4 (glm.mul_m4_v4 (mProjectionMatrix (persp_camera p))
             (glm.mul_m4_v4 (mViewMatrix (persp_camera p)) (vec4_of w 1)))
       / w4 (glm.mul_m4_v4 (mProjectionMatrix (persp_camera p))
               (glm.mul_m4_v4 (mViewMatrix (persp_camera p)) (vec4_of w 1)))).
Proof.
  intros FV FP.
  cbv delta [worldToNdc]; cbv beta. open_class.
  cbv delta [Camera_getViewMatrix Camera_getProjectionMatrix]; cbv beta zeta.
  open_class. rewrite FV. cbn [negb]. rewrite FP. cbn [negb fst]. reflexivity.
Qed.

(** X12.  The corners that [getNearClipCoordinates] and
    [getFarClipCoordinates] return are the corners of the cube of
    normalized device coordinates.  Take a coherent perspective camera
    whose pose is consistent (the orientation is a unit quaternion and the
    view direction is the rotated [(0,0,-1)], as after [setOrientation])
    and whose frustum is not degenerate.  Then [worldToNdc], called after
    the corner query, maps the near corners to
    [(-1,1,-1)], [(1,1,-1)], [(-1,-1,-1)], [(1,-1,-1)] and the far corners
    to the same with third component 1, whatever the lens shift. *)
Theorem clip_corners_project_to_ndc_cube `{MatrixLib} (p : CameraPersp) :
  coherent p ->
  glm.qdot (mOrientation (persp_camera p)) (mOrientation (persp_camera p)) = 1 ->
  mViewDirection (persp_camera p)
  = glm.rotate (mOrientation (persp_camera p)) (Vec3 0 0 (-1)) ->
  mNearClip (persp_camera p) <> 0 ->
  mFarClip (persp_camera p) <> 0 ->
  mFarClip (persp_camera p) <> mNearClip (persp_camera p) ->
  tan (toRadians (mFov (persp_camera p)) / 2) <> 0 ->
  mAspectRatio (persp_camera p) <> 0 ->
  (let near := getNearClipCoordinates p in
   fst (worldToNdc (topLeft (fst near)) (snd near)) = Vec3 (-1) 1 (-1)
   /\ fst (worldToNdc (topRight (fst near)) (snd near)) = Vec3 1 1 (-1)
   /\ fst (worldToNdc (bottomLeft (fst near)) (snd near)) = Vec3 (-1) (-1) (-1)
   /\ fst (worldToNdc (bottomRight (fst near)) (snd near)) = Vec3 1 (-1) (-1))
  /\ (let far := getFarClipCoordinates p in
      fst (worldToNdc (topLeft (fst far)) (snd far)) = Vec3 (-1) 1 1
      /\ fst (worldToNdc (topRight (fst far)) (snd far)) = Vec3 1 1 1
      /\ fst (worldToNdc (bottomLeft (fst far)) (snd far)) = Vec3 (-1) (-1) 1
      /\ fst (worldToNdc (bottomRight (fst far)) (snd far)) = Vec3 1 (-1) 1).
Proof.
  intros I Q D Hn Hf Hfn Ht Ha.
  destruct (calcMatrices_settled p I) as (E & Ed & Vm & SU & SV & SW & SE & Pm & _).
  cbv zeta in *.
  destruct (calcMatrices_flags p) as [FV FP].
  pose proof (pose_and_lens_calcMatrices p) as K.
  unfold pose_and_lens in K. injection K as _ _ _ _ _ Kn Kf _.
  destruct (unit_quat_basis _ Q) as (UU & VV & DD & UV & UD & VD & _).
  rewrite <- D in DD, UD, VD.
  (* the frustum of the lens has a width and a height *)
  assert (Htop : mNearClip (persp_camera p) * tan (toRadians (mFov (persp_camera p)) / 2)
                 <> 0) by (apply Rmult_integral_contrapositive; split; assumption).
  assert (Hta : mNearClip (persp_camera p) * tan (toRadians (mFov (persp_camera p)) / 2)
                * mAspectRatio (persp_camera p) <> 0)
    by (apply Rmult_integral_contrapositive; split; assumption).
  unfold stored_extents in SE. unfold lens_extents in SE, Pm.
  revert SE Pm Htop Hta.
  generalize (mNearClip (persp_camera p) * tan (toRadians (mFov (persp_camera p)) / 2)).
  intros top SE Pm Htop Hta.
  assert (W : top * mAspectRatio (persp_camera p) * (1 + x2 (mLensShift p))
              - - (top * mAspectRatio (persp_camera p)) * (1 - x2 (mLensShift p)) <> 0).
  { replace (top * mAspectRatio (persp_camera p) * (1 + x2 (mLensShift p))
             - - (top * mAspectRatio (persp_camera p)) * (1 - x2 (mLensShift p)))
      with (2 * (top * mAspectRatio (persp_camera p))) by ring. lra. }
  assert (Hh : top * (1 + y2 (mLensShift p)) - - top * (1 - y2 (mLensShift p)) <> 0).
  { replace (top * (1 + y2 (mLensShift p)) - - top * (1 - y2 (mLensShift p)))
      with (2 * top) by ring. lra. }
  revert SE Pm W Hh.
  generalize (- (top * mAspectRatio (persp_camera p)) * (1 - x2 (mLensShift p)))
             (top * mAspectRatio (persp_camera p) * (1 + x2 (mLensShift p)))
             (- top * (1 - y2 (mLensShift p))) (top * (1 + y2 (mLensShift p))).
  intros L R' B T SE Pm W Hh.
  cbn [frustum_matrix_of_extents] in Pm.
  injection SE as SL SR SB ST _ _.
  (* the basis is the one of the orientation, and the normalized view
     direction is the view direction *)
  unfold view_matrix_of, basis_W in Vm. unfold basis_W in SW.
  rewrite (normalize_of_unit _ DD) in Vm, SW.
  unfold basis_U in *. unfold basis_V in *.
  revert UU VV UV UD VD Vm SU SV.
  generalize (glm.rotate (mOrientation (persp_camera p)) (Vec3 1 0 0))
             (glm.rotate (mOrientation (persp_camera p)) (Vec3 0 1 0)).
  intros U V UU VV UV UD VD Vm SU SV.
  revert DD UD VD Vm SW Ed. generalize (mViewDirection (persp_camera p)).
  intros n DD UD VD Vm SW Ed.
  assert (Hfn' : mFarClip (persp_camera p) - mNearClip (persp_camera p) <> 0) by lra.
  revert Hn Hf Hfn' Kn Kf Pm E Vm.
  generalize (mNearClip (persp_camera p)) (mFarClip (persp_camera p))
             (mEyePoint (persp_camera p)).
  intros near far e Hn Hf Hfn' Kn Kf Pm E Vm.
  cbv delta [getNearClipCoordinates getFarClipCoordinates]; cbv beta zeta.
  cbn [fst snd topLeft topRight bottomLeft bottomRight].
  cbn [base CameraPersp_calc] in *.
  rewrite !(worldToNdc_cached _ _ FV FP).
  revert E Ed SU SV SW SL SR SB ST Kn Kf Pm Vm.
  generalize (persp_camera (calcMatrices p)). intros c'.
  intros E Ed SU SV SW SL SR SB ST Kn Kf Pm Vm.
  rewrite E, Ed, SU, SV, SL, SR, SB, ST, Kn, Kf, Pm, Vm.
  rewrite (normalize_of_unit _ DD).
  rewrite !eye_coords_of_frame by assumption.
  rewrite !frustum_matrix_point. cbn [x4 y4 z4 w4].
  repeat split; f_equal; field; repeat split; assumption.
Qed.

Lemma example_pose_consistent :
  glm.qdot (mOrientation example_camera) (mOrientation example_camera) = 1
  /\ mViewDirection example_camera = glm.rotate (mOrientation example_camera) (Vec3 0 0 (-1)).
Proof.
  split.
  - unfold glm.qdot. cbn. lra.
  - rewrite rotate_minus_z_axis. cbn [mOrientation mViewDirection example_camera qw qx qy qz].
    f_equal; lra.
Qed.

Lemma clip_corners_project_to_ndc_cube_witness :
  fst (@worldToNdc CameraPersp CameraPersp_calc (@CameraPersp_virtual example_lib)
         (topLeft (fst (getNearClipCoordinates example_persp)))
         (snd (getNearClipCoordinates example_persp)))
  = Vec3 (-1) 1 (-1).
Proof.
  refine (proj1 (proj1
    (@clip_corners_project_to_ndc_cube example_lib example_persp _ _ _ _ _ _ _ _))).
  - exact example_persp_coherent.
  - exact (proj1 example_pose_consistent).
  - exact (proj2 example_pose_consistent).
  - cbn; lra.
  - cbn; lra.
  - cbn; lra.
  - change (persp_camera example_persp) with example_camera.
    rewrite example_half_fov. lra.
  - cbn; lra.
Defined.

(** ** Where [calcFraming] puts the sphere *)

Lemma lens_extents_same (p p' : CameraPersp) :
  pose_and_lens p' = pose_and_lens p -> lens_extents p' = lens_extents p.
Proof.
  unfold pose_and_lens, lens_extents. intros Q.
  injection Q as _ _ _ Q4 Q5 Q6 Q7 Q8. rewrite Q4, Q5, Q6, Q7, Q8. reflexivity.
Qed.

(** [worldToNdc] on a coherent perspective camera: the matrices are those
    of the current pose and lens. *)
Lemma worldToNdc_coherent `{MatrixLib} (w : vec3) (p : CameraPersp) :
  coherent p ->
  fst (worldToNdc w p)
  = perspective_divide
      (glm.mul_m4_v4 (frustum_matrix_of_extents (lens_extents p))
         (glm.mul_m4_v4 (view_matrix_of (persp_camera p)) (vec4_of w 1))).
Proof.
  intros I.
  destruct (coherent_accessors p I) as [AV _].
  pose proof (coherent_getViewMatrix p I) as I1.
  assert (K : lens_extents (snd (getViewMatrix p)) = lens_extents p).
  { open_class. cbv delta [Camera_getViewMatrix]; cbv beta zeta. cbn [snd]. open_class.
    destruct (negb (mModelViewCached (persp_camera p))); [ | reflexivity ].
    apply lens_extents_same. exact (pose_and_lens_calcViewMatrix p). }
  unfold worldToNdc.
  destruct (getViewMatrix p) as [view p1]. cbn [fst snd] in *. subst view.
  destruct (coherent_accessors p1 I1) as [_ AP]. rewrite K in AP.
  destruct (getProjectionMatrix p1) as [proj p2]. cbn [fst] in *. subst proj.
  reflexivity.
Qed.

Lemma framed_centre (center vd U V : vec3) (d : R) :
  center = (center -^ (vd ^* d)) +^ (d *^ vd) +^ (0 *^ V) +^ (0 *^ U).
Proof.
  destruct center, vd, U, V. unfold vadd, vsub, vscale, vmuls. cbn [vx vy vz].
  f_equal; ring.
Qed.

Lemma framed_eye_coords (U V n center : vec3) (d : R) :
  glm.dot U U = 1 -> glm.dot V V = 1 -> glm.dot n n = 1 ->
  glm.dot U V = 0 -> glm.dot U n = 0 -> glm.dot V n = 0 ->
  glm.mul_m4_v4
    (view_matrix U V (-^ n) (eye_translation (center -^ (n ^* d)) U V (-^ n)))
    (vec4_of center 1)
  = Vec4 0 0 (- d) 1.
Proof.
  intros UU VV NN UV UN VN.
  pose proof (eye_coords_of_frame U V n (center -^ (n ^* d)) 0 0 d UU VV NN UV UN VN) as E.
  rewrite <- framed_centre in E. exact E.
Qed.

(** X13.  [calcFraming] centres the sphere in the image only when the lens
    is not shifted.  Take a coherent perspective camera with a consistent
    pose (unit quaternion, view direction the rotated [(0,0,-1)]), a
    frustum that is not degenerate, and a sphere whose framing distance is
    not zero.  For the camera that [calcFraming] returns, [worldToNdc] maps
    the centre of the sphere to [(-sx, -sy, z)], where [(sx, sy)] is the
    lens shift: the centre of the image for a zero shift, and off centre
    by the shift otherwise. *)
Theorem calcFraming_centre_in_ndc `{MatrixLib} (p : CameraPersp) (sph : Sphere) :
  coherent p ->
  glm.qdot (mOrientation (persp_camera p)) (mOrientation (persp_camera p)) = 1 ->
  mViewDirection (persp_camera p)
  = glm.rotate (mOrientation (persp_camera p)) (Vec3 0 0 (-1)) ->
  mNearClip (persp_camera p) <> 0 ->
  mFarClip (persp_camera p) <> mNearClip (persp_camera p) ->
  tan (toRadians (mFov (persp_camera p)) / 2) <> 0 ->
  mAspectRatio (persp_camera p) <> 0 ->
  framing_distance p sph <> 0 ->
  vx (fst (worldToNdc (getCenter sph) (calcFraming sph p))) = - x2 (mLensShift p)
  /\ vy (fst (worldToNdc (getCenter sph) (calcFraming sph p))) = - y2 (mLensShift p)
  /\ fst (worldToEyeDepth (getCenter sph) (calcFraming sph p)) = - framing_distance p sph.
Proof.
  intros I Q D Hn Hfn Ht Ha Hd.
  pose proof (coherent_calcFraming sph p I) as I'.
  pose proof (plain_worldToEyeDepth (getCenter sph) (calcFraming sph p) (proj1 I'))
    as Dep.
  cbn [base CameraPersp_calc] in Dep. rewrite Dep. clear Dep.
  rewrite (worldToNdc_coherent _ _ I').
  assert (L : lens_extents (calcFraming sph p) = lens_extents p)
    by (destruct p; reflexivity).
  rewrite L. clear L I'.
  unfold view_matrix_of, basis_U, basis_V, basis_W.
  replace (mOrientation (persp_camera (calcFraming sph p)))
    with (mOrientation (persp_camera p)) by (destruct p; reflexivity).
  replace (mViewDirection (persp_camera (calcFraming sph p)))
    with (mViewDirection (persp_camera p)) by (destruct p; reflexivity).
  replace (mEyePoint (persp_camera (calcFraming sph p)))
    with (getCenter sph -^ (mViewDirection (persp_camera p) ^* framing_distance p sph))
    by (rewrite <- calcFraming_distance_arg; destruct p; reflexivity).
  destruct (unit_quat_basis _ Q) as (UU & VV & DD & UV & UD & VD & _).
  rewrite <- D in DD, UD, VD.
  rewrite (normalize_of_unit _ DD).
  rewrite framed_eye_coords by assumption.
  unfold lens_extents. cbn [frustum_matrix_of_extents].
  rewrite frustum_matrix_point.
  unfold perspective_divide. cbn [x4 y4 z4 w4 vx vy vz].
  revert Hd DD. generalize (framing_distance p sph) (getCenter sph)
                           (mViewDirection (persp_camera p)).
  intros d [c1 c2 c3] [n1 n2 n3] Hd DD.
  assert (Htop : mNearClip (persp_camera p) * tan (toRadians (mFov (persp_camera p)) / 2)
                 <> 0) by (apply Rmult_integral_contrapositive; split; assumption).
  assert (Hta : mNearClip (persp_camera p) * tan (toRadians (mFov (persp_camera p)) / 2)
                * mAspectRatio (persp_camera p) <> 0)
    by (apply Rmult_integral_contrapositive; split; assumption).
  revert Htop Hta.
  generalize (mNearClip (persp_camera p) * tan (toRadians (mFov (persp_camera p)) / 2)).
  intros top Htop Hta.
  assert (W : top * mAspectRatio (persp_camera p) * (1 + x2 (mLensShift p))
              - - (top * mAspectRatio (persp_camera p)) * (1 - x2 (mLensShift p)) <> 0).
  { replace (top * mAspectRatio (persp_camera p) * (1 + x2 (mLensShift p))
             - - (top * mAspectRatio (persp_camera p)) * (1 - x2 (mLensShift p)))
      with (2 * (top * mAspectRatio (persp_camera p))) by ring. lra. }
  assert (Hh : top * (1 + y2 (mLensShift p)) - - top * (1 - y2 (mLensShift p)) <> 0).
  { replace (top * (1 + y2 (mLensShift p)) - - top * (1 - y2 (mLensShift p)))
      with (2 * top) by ring. lra. }
  split; [ | split ].
  - field. repeat split; assumption.
  - field. repeat split; assumption.
  - unfold glm.dot, vsub, vmuls in *. cbn [vx vy vz] in *.
    transitivity (- (d * (n1 * n1 + n2 * n2 + n3 * n3))); [ ring | ].
    rewrite DD. ring.
Qed.

Lemma example_framing_distance : 0 < framing_distance example_persp unit_sphere.
Proof.
  unfold framing_distance.
  eapply Rlt_le_trans; [ | apply Rmax_r ].
  unfold getFov, toRadians. cbn [mFov persp_camera example_persp example_camera
                                 getRadius unit_sphere].
  replace (90 * (PI / 180) / 2) with (PI / 4) by lra.
  apply Rdiv_lt_0_compat; [ lra | ].
  apply sin_gt_0; pose proof PI_RGT_0; lra.
Qed.

Lemma calcFraming_centre_in_ndc_witness :
  vx (fst (@worldToNdc CameraPersp CameraPersp_calc (@CameraPersp_virtual example_lib)
             (getCenter unit_sphere) (calcFraming unit_sphere example_persp)))
  = - x2 (mLensShift example_persp).
Proof.
  refine (proj1
    (@calcFraming_centre_in_ndc example_lib example_persp unit_sphere _ _ _ _ _ _ _ _)).
  - exact example_persp_coherent.
  - exact (proj1 example_pose_consistent).
  - exact (proj2 example_pose_consistent).
  - cbn; lra.
  - cbn; lra.
  - change (persp_camera example_persp) with example_camera.
    rewrite example_half_fov. lra.
  - cbn; lra.
  - pose proof example_framing_distance. lra.
Defined.

(** ** Rays and projection agree *)

Lemma ray_point_in_frame (e U V n : vec3) (s t F k d : R) :
  e +^ (d *^ (((U ^* s) +^ (V ^* t) -^ ((-^ n) ^* F)) ^* k))
  = e +^ (d * k * F *^ n) +^ (d * k * t *^ V) +^ (d * k * s *^ U).
Proof.
  destruct e, U, V, n. unfold vadd, vsub, vscale, vmuls, vneg. cbn [vx vy vz].
  f_equal; ring.
Qed.

Lemma ray_vector_length2 (U V n : vec3) (s t F : R) :
  glm.dot U U = 1 -> glm.dot V V = 1 -> glm.dot n n = 1 ->
  glm.dot U V = 0 -> glm.dot U n = 0 -> glm.dot V n = 0 ->
  glm.dot ((U ^* s) +^ (V ^* t) -^ ((-^ n) ^* F)) ((U ^* s) +^ (V ^* t) -^ ((-^ n) ^* F))
  = s * s + t * t + F * F.
Proof.
  destruct U as [u1 u2 u3], V as [v1 v2 v3], n as [n1 n2 n3].
  unfold glm.dot, vadd, vsub, vmuls, vneg. cbn [vx vy vz].
  intros UU VV NN UV UN VN.
  transitivity (s * s * (u1 * u1 + u2 * u2 + u3 * u3)
                + t * t * (v1 * v1 + v2 * v2 + v3 * v3)
                + F * F * (n1 * n1 + n2 * n2 + n3 * n3)
                + 2 * s * t * (u1 * v1 + u2 * v2 + u3 * v3)
                + 2 * s * F * (u1 * n1 + u2 * n2 + u3 * n3)
                + 2 * t * F * (v1 * n1 + v2 * n2 + v3 * n3)); [ ring | ].
  rewrite UU, VV, NN, UV, UN, VN. ring.
Qed.

(** X14.  [generateRay] and [worldToNdc] are inverse to each other.  Take
    a coherent perspective camera with a consistent pose and a frustum
    that is not degenerate (positive near clip, aspect ratio and tangent of
    half the field of view, far clip different from near clip).  Every
    point of the ray [generateRay( u, v, aspect )] other than its origin has
    the normalized device coordinates [x = 2u - 1 - sx] and
    [y = 2v - 1 - sy], where [(sx, sy)] is the lens shift; so with no lens
    shift [u] and [v] are recovered as [(x + 1) / 2] and [(y + 1) / 2]. *)
Theorem generateRay_worldToNdc_round_trip `{MatrixLib} (p : CameraPersp) (u v t : R) :
  coherent p ->
  glm.qdot (mOrientation (persp_camera p)) (mOrientation (persp_camera p)) = 1 ->
  mViewDirection (persp_camera p)
  = glm.rotate (mOrientation (persp_camera p)) (Vec3 0 0 (-1)) ->
  0 < mNearClip (persp_camera p) ->
  0 < mAspectRatio (persp_camera p) ->
  0 < tan (toRadians (mFov (persp_camera p)) / 2) ->
  mFarClip (persp_camera p) <> mNearClip (persp_camera p) ->
  t <> 0 ->
  vx (fst (worldToNdc
             (ray_origin (fst (generateRay u v (mAspectRatio (persp_camera p)) p))
              +^ (t *^ ray_direction
                         (fst (generateRay u v (mAspectRatio (persp_camera p)) p)))) p))
  = 2 * u - 1 - x2 (mLensShift p)
  /\ vy (fst (worldToNdc
                (ray_origin (fst (generateRay u v (mAspectRatio (persp_camera p)) p))
                 +^ (t *^ ray_direction
                            (fst (generateRay u v (mAspectRatio (persp_camera p)) p)))) p))
     = 2 * v - 1 - y2 (mLensShift p).
Proof.
  intros I Q D Hn Ha Ht Hfn Ht0.
  rewrite generateRay_direction by assumption. cbn [ray_origin ray_direction].
  rewrite (worldToNdc_coherent _ _ I).
  destruct (unit_quat_basis _ Q) as (UU & VV & DD & UV & UD & VD & _).
  rewrite <- D in DD, UD, VD.
  unfold view_matrix_of, basis_U, basis_V, basis_W.
  rewrite (normalize_of_unit _ DD).
  pose proof (getFocalLength_positive _ Ht) as HF.
  unfold glm.normalize at 1 2.
  rewrite (ray_vector_length2 _ _ _ _ _ _ UU VV DD UV UD VD).
  assert (Hk : 0 < / sqrt ((u - 0.5) * mAspectRatio (persp_camera p)
                           * ((u - 0.5) * mAspectRatio (persp_camera p))
                           + (v - 0.5) * (v - 0.5)
                           + getFocalLength (persp_camera p)
                             * getFocalLength (persp_camera p))).
  { apply Rinv_0_lt_compat, sqrt_lt_R0.
    pose proof (Rle_0_sqr ((u - 0.5) * mAspectRatio (persp_camera p))) as S1.
    pose proof (Rle_0_sqr (v - 0.5)) as S2.
    pose proof (Rmult_lt_0_compat _ _ HF HF) as S3.
    unfold Rsqr in S1, S2. lra. }
  revert Hk.
  generalize (/ sqrt ((u - 0.5) * mAspectRatio (persp_camera p)
                      * ((u - 0.5) * mAspectRatio (persp_camera p))
                      + (v - 0.5) * (v - 0.5)
                      + getFocalLength (persp_camera p) * getFocalLength (persp_camera p))).
  intros k Hk.
  rewrite !ray_point_in_frame.
  rewrite !eye_coords_of_frame by assumption.
  unfold lens_extents. cbn [frustum_matrix_of_extents].
  rewrite frustum_matrix_point.
  unfold perspective_divide. cbn [x4 y4 z4 w4 vx vy vz].
  unfold getFocalLength in *.
  replace (toRadians (mFov (persp_camera p)) * 0.5)
    with (toRadians (mFov (persp_camera p)) / 2) in * by lra.
  revert Ht HF. generalize (tan (toRadians (mFov (persp_camera p)) / 2)). intros tn Ht HF.
  revert Hn Ha Hfn.
  generalize (mNearClip (persp_camera p)) (mAspectRatio (persp_camera p))
             (mFarClip (persp_camera p)) (x2 (mLensShift p)) (y2 (mLensShift p)).
  intros n a f sx sy Hn Ha Hfn.
  assert (n * tn <> 0) by (apply Rmult_integral_contrapositive; split; lra).
  assert (n * tn * a <> 0) by (apply Rmult_integral_contrapositive; split; lra).
  assert (W : n * tn * a * (1 + sx) - - (n * tn * a) * (1 - sx) <> 0)
    by (replace (n * tn * a * (1 + sx) - - (n * tn * a) * (1 - sx))
          with (2 * (n * tn * a)) by ring; lra).
  assert (Hh : n * tn * (1 + sy) - - (n * tn) * (1 - sy) <> 0)
    by (replace (n * tn * (1 + sy) - - (n * tn) * (1 - sy)) with (2 * (n * tn)) by ring;
        lra).
  split; rewrite ?half_eq; field; repeat split; try assumption; lra.
Qed.

Lemma generateRay_worldToNdc_round_trip_witness :
  vx (fst (@worldToNdc CameraPersp CameraPersp_calc (@CameraPersp_virtual example_lib)
             (ray_origin
                (fst (generateRay 0.25 0.75 (mAspectRatio (persp_camera example_persp))
                        example_persp))
              +^ (3 *^ ray_direction
                         (fst (generateRay 0.25 0.75
                                 (mAspectRatio (persp_camera example_persp))
                                 example_persp))))
             example_persp))
  = 2 * 0.25 - 1 - x2 (mLensShift example_persp).
Proof.
  refine (proj1
    (@generateRay_worldToNdc_round_trip example_lib example_persp 0.25 0.75 3
       _ _ _ _ _ _ _ _)).
  - exact example_persp_coherent.
  - exact (proj1 example_pose_consistent).
  - exact (proj2 example_pose_consistent).
  - cbn; lra.
  - cbn; lra.
  - change (persp_camera example_persp) with example_camera.
    rewrite example_half_fov. lra.
  - cbn; lra.
  - lra.
Defined.

(** X15.  [getFrustum] on a coherent perspective camera reports the
    frustum of the lens: with [top = near * tan( radians( fov ) / 2 )] and
    the lens shift [(sx, sy)], the extents are
    [left = -top * aspect * (1 - sx)], [right = top * aspect * (1 + sx)],
    [bottom = -top * (1 - sy)], [top * (1 + sy)], and the clip distances
    are the stored ones; a cache that is marked valid is not recomputed and
    still holds these values. *)
Theorem getFrustum_of_lens (p : CameraPersp) :
  coherent p ->
  let c := persp_camera p in
  let top := mNearClip c * tan (toRadians (mFov c) / 2) in
  fst (getFrustum p)
  = {| out_left := - (top * mAspectRatio c) * (1 - x2 (mLensShift p));
       out_top := top * (1 + y2 (mLensShift p));
       out_right := top * mAspectRatio c * (1 + x2 (mLensShift p));
       out_bottom := - top * (1 - y2 (mLensShift p));
       out_near := mNearClip c;
       out_far := mFarClip c |}.
Proof.
  intros I c top. subst c top.
  destruct (calcMatrices_settled p I) as (_ & _ & _ & _ & _ & _ & SE & _).
  cbv zeta in SE. unfold stored_extents, lens_extents in SE.
  cbv delta [getFrustum]; cbv beta zeta. cbn [fst base CameraPersp_calc].
  revert SE. generalize (persp_camera (calcMatrices p)). intros c' SE.
  injection SE as -> -> -> -> -> ->. reflexivity.
Qed.

Lemma getFrustum_of_lens_witness :
  out_near (fst (getFrustum example_persp)) = 1.
Proof.
  exact (f_equal out_near (getFrustum_of_lens example_persp example_persp_coherent)).
Defined.

(** ** Repeating a query *)

(** X16.  The queries that go through [calcMatrices] are repeatable on
    each of the three cameras: [calcMatrices] leaves both caches marked
    valid, so running it again changes nothing, and [getFrustum],
    [getNearClipCoordinates], [getFarClipCoordinates] and [generateRay]
    called a second time return the same value and the same camera. *)
Theorem calcMatrices_queries_repeatable {C : Type} `{CalcFrame C} (c : C) (u v a : R) :
  calcMatrices (calcMatrices c) = calcMatrices c
  /\ mModelViewCached (base (calcMatrices c)) = true
  /\ mProjectionCached (base (calcMatrices c)) = true
  /\ getFrustum (snd (getFrustum c)) = getFrustum c
  /\ getNearClipCoordinates (snd (getNearClipCoordinates c)) = getNearClipCoordinates c
  /\ getFarClipCoordinates (snd (getFarClipCoordinates c)) = getFarClipCoordinates c
  /\ generateRay u v a (snd (generateRay u v a c)) = generateRay u v a c.
Proof.
  destruct (calcMatrices_flags c) as [FV FP].
  pose proof (calcMatrices_idempotent c) as E.
  split; [ exact E | split; [ exact FV | split; [ exact FP | ] ] ].
  unfold getFrustum, getNearClipCoordinates, getFarClipCoordinates, generateRay.
  cbn [snd]. rewrite E. repeat split.
Qed.

Lemma calcMatrices_queries_repeatable_witness :
  getFrustum (snd (getFrustum example_stereo)) = getFrustum example_stereo.
Proof.
  exact (proj1 (proj2 (proj2 (proj2
    (@calcMatrices_queries_repeatable CameraStereo CameraStereo_calc CameraStereo_frame
       example_stereo 0 0 1))))).
Defined.

(** ** The inverse view matrix across a pose change *)

Lemma stereo_getInverseViewMatrix_selected `{MatrixLib} (s : CameraStereo) :
  fst (getInverseViewMatrix s) = selected_inverse_view (snd (getInverseViewMatrix s)).
Proof.
  open_class. cbv delta [CameraStereo_getInverseViewMatrix]; cbv beta zeta.
  unfold selected_inverse_view.
  generalize (if negb (mInverseModelViewCached (stereo_camera s))
              then CameraStereo_calcInverseView s else s).
  intros s'.
  destruct (mIsStereo s') eqn:E1, (mIsLeft s') eqn:E2; cbn [negb fst snd];
    rewrite ?E1, ?E2; reflexivity.
Qed.

Lemma stereo_calcInverseView_cached `{MatrixLib} (s : CameraStereo) :
  mInverseModelViewCached (stereo_camera (CameraStereo_calcInverseView s)) = true.
Proof.
  cbv delta [CameraStereo_calcInverseView]; cbv beta zeta.
  generalize (if negb (mModelViewCached (stereo_camera s)) then calcViewMatrix s else s).
  intros s'. generalize affineInverse. intros inv.
  destruct s' as [p ? ? ? ? ? ? ? ? ? ? ? ?]; destruct p as [c l]; break_camera c.
  reflexivity.
Qed.

Lemma stereo_getInverseViewMatrix_cached `{MatrixLib} (s : CameraStereo) :
  mInverseModelViewCached (stereo_camera (snd (getInverseViewMatrix s))) = true.
Proof.
  open_class. cbv delta [CameraStereo_getInverseViewMatrix]; cbv beta zeta.
  destruct (mInverseModelViewCached (stereo_camera s)) eqn:F; cbn [negb].
  - destruct (negb (mIsStereo s)), (mIsLeft s); exact F.
  - pose proof (stereo_calcInverseView_cached s) as K. revert K.
    generalize (CameraStereo_calcInverseView s). intros s' K.
    destruct (negb (mIsStereo s')), (mIsLeft s'); exact K.
Qed.

Lemma stereo_getInverseViewMatrix_with_pose `{MatrixLib} e coi up vd o (s : CameraStereo) :
  mInverseModelViewCached (stereo_camera s) = true ->
  fst (getInverseViewMatrix (on_stereo (with_pose e coi up vd o) s))
  = selected_inverse_view s
  /\ mModelViewCached (stereo_camera (on_stereo (with_pose e coi up vd o) s)) = false.
Proof.
  intros F.
  open_class. cbv delta [CameraStereo_getInverseViewMatrix]; cbv beta zeta.
  replace (mInverseModelViewCached
             (stereo_camera (on_stereo (with_pose e coi up vd o) s)))
    with true
    by (rewrite <- F; destruct s as [p ? ? ? ? ? ? ? ? ? ? ? ?]; destruct p; reflexivity).
  cbn [negb]. unfold selected_inverse_view.
  destruct s as [p ? ? ? ? ? ? ? ? ? ? ? ?]; destruct p as [c l]; break_camera c.
  cbv delta [on_stereo with_pose stereo_camera set_stereo_camera]; cbv beta. fields.
  destruct mIsStereo0, mIsLeft0; split; reflexivity.
Qed.

(** X17.  A pose change does not invalidate the inverse view matrix of a
    stereo camera.  Once [getInverseViewMatrix] has been called, its flag
    is set; each pose mutator of the base class clears the view matrix flag
    only, so the next [getInverseViewMatrix] returns the matrix computed
    before the pose change, for the same eye, although the view matrix is
    marked stale.  The inverse is refreshed only after the view matrix has
    been recomputed. *)
Theorem stereo_inverse_view_survives_pose_change `{MatrixLib}
  (m : PoseMutation) (s : CameraStereo) :
  mInverseModelViewCached (stereo_camera (snd (getInverseViewMatrix s))) = true
  /\ fst (getInverseViewMatrix (inherited (mutate_pose m) (snd (getInverseViewMatrix s))))
     = fst (getInverseViewMatrix s)
  /\ mModelViewCached
       (stereo_camera (inherited (mutate_pose m) (snd (getInverseViewMatrix s))))
     = false.
Proof.
  pose proof (stereo_getInverseViewMatrix_cached s) as F.
  rewrite (stereo_getInverseViewMatrix_selected s).
  revert F. generalize (snd (getInverseViewMatrix s)). intros s1 F.
  split; [ exact F | ].
  rewrite inherited_stereo. unfold on_stereo.
  destruct (mutate_pose_with_pose m (stereo_camera s1)) as (e & coi & up & vd & o & E).
  rewrite E. apply stereo_getInverseViewMatrix_with_pose. exact F.
Qed.

(** ** The two eyes of a stereo camera *)

(** X18.  The two eye points of a stereo camera lie symmetrically about the
    eye point, on the camera's right axis.  With stereo enabled and an
    orientation that is a unit quaternion, [getEyePointShifted] for the
    left and for the right eye add up to twice the eye point, the right one
    minus the left one is the rotated x axis times the eye separation, and
    their distance is the absolute value of the eye separation.  With
    stereo disabled the function returns the eye point. *)
Theorem stereo_eye_points_symmetric (s : CameraStereo) :
  mIsStereo s = true ->
  glm.qdot (mOrientation (stereo_camera s)) (mOrientation (stereo_camera s)) = 1 ->
  getEyePointShifted (set_mIsLeft true s) +^ getEyePointShifted (set_mIsLeft false s)
  = 2 *^ mEyePoint (stereo_camera s)
  /\ getEyePointShifted (set_mIsLeft false s) -^ getEyePointShifted (set_mIsLeft true s)
     = glm.rotate (mOrientation (stereo_camera s)) (Vec3 1 0 0) ^* mEyeSeparation s
  /\ glm.distance (getEyePointShifted (set_mIsLeft true s))
                  (getEyePointShifted (set_mIsLeft false s))
     = Rabs (mEyeSeparation s)
  /\ getEyePointShifted (set_mIsStereo false s) = mEyePoint (stereo_camera s).
Proof.
  intros St Q.
  assert (L : getEyePointShifted (set_mIsLeft true s)
              = mEyePoint (stereo_camera s)
                -^ (glm.rotate (mOrientation (stereo_camera s)) (Vec3 1 0 0)
                    ^* (0.5 * mEyeSeparation s))).
  { destruct s as [p ? ? ? ? ? ? ? ? ? ? ? ?]. cbn [mIsStereo] in St. subst.
    reflexivity. }
  assert (R : getEyePointShifted (set_mIsLeft false s)
              = mEyePoint (stereo_camera s)
                +^ (glm.rotate (mOrientation (stereo_camera s)) (Vec3 1 0 0)
                    ^* (0.5 * mEyeSeparation s))).
  { destruct s as [p ? ? ? ? ? ? ? ? ? ? ? ?]. cbn [mIsStereo] in St. subst.
    reflexivity. }
  assert (D : getEyePointShifted (set_mIsLeft false s)
              -^ getEyePointShifted (set_mIsLeft true s)
              = glm.rotate (mOrientation (stereo_camera s)) (Vec3 1 0 0)
                ^* mEyeSeparation s).
  { rewrite L, R.
    generalize (glm.rotate (mOrientation (stereo_camera s)) (Vec3 1 0 0))
               (mEyePoint (stereo_camera s)) (mEyeSeparation s).
    intros [u1 u2 u3] [e1 e2 e3] sep. unfold vadd, vsub, vmuls. cbn [vx vy vz].
    f_equal; lra. }
  split; [ | split; [ exact D | split ] ].
  - rewrite L, R.
    generalize (glm.rotate (mOrientation (stereo_camera s)) (Vec3 1 0 0))
               (mEyePoint (stereo_camera s)) (mEyeSeparation s).
    intros [u1 u2 u3] [e1 e2 e3] sep. unfold vadd, vsub, vmuls, vscale. cbn [vx vy vz].
    f_equal; lra.
  - unfold glm.distance. rewrite D, length_vmuls.
    destruct (unit_quat_basis _ Q) as (UU & _).
    unfold glm.length. rewrite UU, sqrt_1. ring.
  - destruct s as [p ? ? ? ? ? ? ? ? ? ? ? ?]. reflexivity.
Qed.

Lemma stereo_eye_points_symmetric_witness :
  glm.distance (getEyePointShifted (set_mIsLeft true example_stereo))
               (getEyePointShifted (set_mIsLeft false example_stereo))
  = Rabs (mEyeSeparation example_stereo).
Proof.
  apply (stereo_eye_points_symmetric example_stereo).
  - reflexivity.
  - unfold glm.qdot. cbn. lra.
Defined.

Lemma stereo_view_entries (shift : vec3 -> vec3 -> vec3) (c : Camera) (sep : R) :
  let z := Camera_calcViewMatrix c in
  let eye := shift (mEyePoint c) (basis_U c ^* (0.5 * sep)) in
  stereo_view shift z sep
  = view_matrix (basis_U c) (basis_V c) (basis_W c)
      (eye_translation eye (basis_U c) (basis_V c) (basis_W c)).
Proof.
  intros z eye. subst z eye. rewrite Camera_calcViewMatrix_closed.
  unfold stereo_view, basis_U, basis_V, basis_W.
  cbn [mViewMatrix mEyePoint mOrientation mU mV mW set_mInverseModelViewCached
       set_mModelViewCached set_mViewMatrix set_mU set_mV set_mW].
  generalize (glm.rotate (mOrientation c) (Vec3 1 0 0))
             (glm.rotate (mOrientation c) (Vec3 0 1 0))
             (-^ glm.normalize (mViewDirection c)).
  intros U V W.
  generalize (shift (mEyePoint c) (U ^* (0.5 * sep))).
  generalize (eye_translation (mEyePoint c) U V W).
  intros d e. unfold eye_translation.
  destruct U as [u1 u2 u3], V as [v1 v2 v3], W as [w1 w2 w3], d as [d1 d2 d3].
  reflexivity.
Qed.

Lemma view_matrix_eye_to_origin (U V W e : vec3) :
  glm.mul_m4_v4 (view_matrix U V W (eye_translation e U V W)) (vec4_of e 1)
  = Vec4 0 0 0 1.
Proof.
  rewrite view_matrix_row3. unfold eye_translation. cbn [vx vy vz].
  replace (glm.dot U e) with (glm.dot e U) by (unfold glm.dot; ring).
  replace (glm.dot V e) with (glm.dot e V) by (unfold glm.dot; ring).
  replace (glm.dot W e) with (glm.dot e W) by (unfold glm.dot; ring).
  f_equal; ring.
Qed.

(** X19.  Each view matrix that [CameraStereo::calcViewMatrix] stores sends
    its own eye to the origin: the left matrix sends the point that
    [getEyePointShifted] returns for the left eye to [(0, 0, 0, 1)], the
    right matrix the point for the right eye.  Both have the columns 0, 1
    and 2 of the cyclopean view matrix; only the translation column
    differs. *)
Theorem stereo_view_matrices_eye_to_origin (s : CameraStereo) :
  let s' := CameraStereo_calcViewMatrix s in
  glm.mul_m4_v4 (mViewMatrixLeft s')
    (vec4_of (getEyePointShifted (set_mIsLeft true (set_mIsStereo true s))) 1)
  = Vec4 0 0 0 1
  /\ glm.mul_m4_v4 (mViewMatrixRight s')
       (vec4_of (getEyePointShifted (set_mIsLeft false (set_mIsStereo true s))) 1)
     = Vec4 0 0 0 1
  /\ col0 (mViewMatrixLeft s') = col0 (mViewMatrix (stereo_camera s'))
  /\ col1 (mViewMatrixLeft s') = col1 (mViewMatrix (stereo_camera s'))
  /\ col2 (mViewMatrixLeft s') = col2 (mViewMatrix (stereo_camera s'))
  /\ col0 (mViewMatrixRight s') = col0 (mViewMatrix (stereo_camera s'))
  /\ col1 (mViewMatrixRight s') = col1 (mViewMatrix (stereo_camera s'))
  /\ col2 (mViewMatrixRight s') = col2 (mViewMatrix (stereo_camera s')).
Proof.
  intros s'. subst s'.
  rewrite (CameraStereo_calcViewMatrix_closed s _ eq_refl).
  assert (L : getEyePointShifted (set_mIsLeft true (set_mIsStereo true s))
              = mEyePoint (stereo_camera s)
                -^ (basis_U (stereo_camera s) ^* (0.5 * mEyeSeparation s)))
    by (destruct s as [p ? ? ? ? ? ? ? ? ? ? ? ?]; reflexivity).
  assert (R : getEyePointShifted (set_mIsLeft false (set_mIsStereo true s))
              = mEyePoint (stereo_camera s)
                +^ (basis_U (stereo_camera s) ^* (0.5 * mEyeSeparation s)))
    by (destruct s as [p ? ? ? ? ? ? ? ? ? ? ? ?]; reflexivity).
  rewrite L, R.
  pose proof (stereo_view_entries vsub (stereo_camera s) (mEyeSeparation s)) as EL.
  pose proof (stereo_view_entries vadd (stereo_camera s) (mEyeSeparation s)) as ER.
  cbv zeta in EL, ER.
  pose proof (Camera_calcViewMatrix_closed (stereo_camera s)) as Z.
  revert EL ER Z. generalize (Camera_calcViewMatrix (stereo_camera s)). intros z EL ER Z.
  replace (mViewMatrixLeft
             (set_stereo_camera
                (set_mInverseModelViewCached false (set_mModelViewCached true z))
                (set_mViewMatrixRight (stereo_view vadd z (mEyeSeparation s))
                   (set_mViewMatrixLeft (stereo_view vsub z (mEyeSeparation s)) s))))
    with (stereo_view vsub z (mEyeSeparation s))
    by (destruct s as [p ? ? ? ? ? ? ? ? ? ? ? ?]; reflexivity).
  replace (mViewMatrixRight
             (set_stereo_camera
                (set_mInverseModelViewCached false (set_mModelViewCached true z))
                (set_mViewMatrixRight (stereo_view vadd z (mEyeSeparation s))
                   (set_mViewMatrixLeft (stereo_view vsub z (mEyeSeparation s)) s))))
    with (stereo_view vadd z (mEyeSeparation s))
    by (destruct s as [p ? ? ? ? ? ? ? ? ? ? ? ?]; reflexivity).
  replace (mViewMatrix
             (stereo_camera
                (set_stereo_camera
                   (set_mInverseModelViewCached false (set_mModelViewCached true z))
                   (set_mViewMatrixRight (stereo_view vadd z (mEyeSeparation s))
                      (set_mViewMatrixLeft (stereo_view vsub z (mEyeSeparation s)) s)))))
    with (mViewMatrix z)
    by (destruct s as [p ? ? ? ? ? ? ? ? ? ? ? ?]; destruct p; reflexivity).
  rewrite EL, ER, Z.
  cbn [mViewMatrix set_mInverseModelViewCached set_mModelViewCached set_mViewMatrix].
  split; [ apply view_matrix_eye_to_origin | ].
  split; [ apply view_matrix_eye_to_origin | ].
  repeat split.
Qed.

(** ** A stereo camera with stereo disabled *)

Lemma calcViewMatrix_flags_again (c : Camera) :
  set_mInverseModelViewCached false (set_mModelViewCached true (Camera_calcViewMatrix c))
  = Camera_calcViewMatrix c.
Proof.
  rewrite Camera_calcViewMatrix_closed.
  generalize (view_matrix (basis_U c) (basis_V c) (basis_W c)
                (eye_translation (mEyePoint c) (basis_U c) (basis_V c) (basis_W c)))
             (basis_U c) (basis_V c) (basis_W c).
  intros m U V W. break_camera c. fields. reflexivity.
Qed.

Lemma calcProjection_flag_again (p : CameraPersp) :
  on_persp (set_mProjectionCached true) (CameraPersp_calcProjection p)
  = CameraPersp_calcProjection p.
Proof.
  rewrite CameraPersp_calcProjection_closed.
  generalize (frustum_inverse_of (calcProjection_frustum p))
             (frustum_matrix_of (calcProjection_frustum p)) (calcProjection_frustum p).
  intros m m' c. destruct p as [c0 l]. break_camera c.
  cbv delta [on_persp]; cbv beta. fields. reflexivity.
Qed.

(** The perspective part of a stereo camera after [calcMatrices] is the
    perspective part after its own [calcMatrices]. *)
Lemma stereo_persp_calcMatrices_persp (s : CameraStereo) :
  stereo_persp (calcMatrices s) = calcMatrices (stereo_persp s).
Proof.
  rewrite stereo_persp_calcMatrices_eq.
  generalize (stereo_persp s). intros p.
  assert (A : on_persp (fun c => set_mInverseModelViewCached false
                                   (set_mModelViewCached true (Camera_calcViewMatrix c))) p
              = calcViewMatrix p).
  { open_class. unfold on_persp. rewrite calcViewMatrix_flags_again. reflexivity. }
  cbv delta [stereo_persp_calcMatrices calcMatrices]; cbv beta zeta.
  rewrite A. clear A.
  change (base p) with (persp_camera p).
  generalize (if negb (mModelViewCached (persp_camera p)) then calcViewMatrix p else p).
  intros q. rewrite calcProjection_flag_again. reflexivity.
Qed.

(** The stereo parameters: the computations do not write them. *)
Lemma stereo_parameters_calcMatrices (s : CameraStereo) :
  mIsStereo (calcMatrices s) = mIsStereo s
  /\ mIsLeft (calcMatrices s) = mIsLeft s
  /\ mEyeSeparation (calcMatrices s) = mEyeSeparation s
  /\ mConvergence (calcMatrices s) = mConvergence s.
Proof.
  assert (V : forall s, mIsStereo (CameraStereo_calcViewMatrix s) = mIsStereo s
                        /\ mIsLeft (CameraStereo_calcViewMatrix s) = mIsLeft s
                        /\ mEyeSeparation (CameraStereo_calcViewMatrix s) = mEyeSeparation s
                        /\ mConvergence (CameraStereo_calcViewMatrix s) = mConvergence s).
  { intros s0. rewrite (CameraStereo_calcViewMatrix_closed s0 _ eq_refl).
    generalize (Camera_calcViewMatrix (stereo_camera s0)); intros z.
    destruct s0; repeat split. }
  assert (P : forall s, mIsStereo (CameraStereo_calcProjection s) = mIsStereo s
                        /\ mIsLeft (CameraStereo_calcProjection s) = mIsLeft s
                        /\ mEyeSeparation (CameraStereo_calcProjection s) = mEyeSeparation s
                        /\ mConvergence (CameraStereo_calcProjection s) = mConvergence s).
  { intros s0. rewrite (CameraStereo_calcProjection_closed s0 _ eq_refl).
    generalize (CameraPersp_calcProjection (stereo_persp s0)); intros q.
    destruct s0; repeat split. }
  cbv delta [calcMatrices]; cbv beta zeta. open_class.
  destruct (negb (mModelViewCached (stereo_camera s))).
  - destruct (V s) as (V1 & V2 & V3 & V4).
    revert V1 V2 V3 V4. generalize (CameraStereo_calcViewMatrix s). intros s1 V1 V2 V3 V4.
    destruct (negb (mProjectionCached (stereo_camera s1))).
    + destruct (P s1) as (P1 & P2 & P3 & P4). repeat split; congruence.
    + repeat split; assumption.
  - destruct (negb (mProjectionCached (stereo_camera s))).
    + apply P.
    + repeat split.
Qed.

Lemma getEyePointShifted_calcMatrices (s : CameraStereo) :
  getEyePointShifted (calcMatrices s) = getEyePointShifted s.
Proof.
  destruct (stereo_parameters_calcMatrices s) as (P1 & P2 & P3 & _).
  pose proof (stereo_persp_calcMatrices_persp s) as E.
  pose proof (pose_and_lens_calcMatrices (stereo_persp s)) as K.
  rewrite <- E in K. unfold pose_and_lens in K. injection K as K1 _ K3 _ _ _ _ _.
  unfold getEyePointShifted, stereo_camera.
  rewrite P1, P2, P3, K1, K3. reflexivity.
Qed.

Lemma stereo_disabled_flags (s : CameraStereo) :
  mIsStereo s = false ->
  mIsStereo (CameraStereo_calcViewMatrix s) = false
  /\ mIsStereo (CameraStereo_calcProjection s) = false.
Proof.
  intros St. split.
  - rewrite (CameraStereo_calcViewMatrix_closed s _ eq_refl).
    generalize (Camera_calcViewMatrix (stereo_camera s)); intros z.
    destruct s; exact St.
  - rewrite (CameraStereo_calcProjection_closed s _ eq_refl).
    generalize (CameraPersp_calcProjection (stereo_persp s)); intros q.
    destruct s; exact St.
Qed.

Lemma stereo_disabled_view `{MatrixLib} (s : CameraStereo) :
  mIsStereo s = false ->
  fst (getViewMatrix s) = fst (getViewMatrix (stereo_persp s)).
Proof.
  intros St. destruct (stereo_disabled_flags s St) as [SV _].
  rewrite stereo_getViewMatrix, persp_getViewMatrix, St, SV. cbn [negb].
  rewrite CameraStereo_calcViewMatrix_base, calcViewMatrix_flags_again.
  reflexivity.
Qed.

Lemma stereo_disabled_projection `{MatrixLib} (s : CameraStereo) :
  mIsStereo s = false ->
  fst (getProjectionMatrix s) = fst (getProjectionMatrix (stereo_persp s)).
Proof.
  intros St. destruct (stereo_disabled_flags s St) as [_ SP].
  rewrite stereo_getProjectionMatrix, persp_getProjectionMatrix, St, SP. cbn [negb].
  rewrite CameraStereo_calcProjection_base.
  generalize (persp_camera (CameraPersp_calcProjection (stereo_persp s))); intros c.
  break_camera c. reflexivity.
Qed.

Lemma stereo_disabled_near (s : CameraStereo) :
  mIsStereo s = false ->
  fst (CameraStereo_getNearClipCoordinates s)
  = fst (getNearClipCoordinates (stereo_persp s)).
Proof.
  intros St.
  cbv delta [CameraStereo_getNearClipCoordinates getNearClipCoordinates];
    cbv beta zeta. cbn [fst].
  rewrite getEyePointShifted_calcMatrices.
  unfold getEyePointShifted at 1 2 3 4. rewrite St. cbn [negb].
  destruct (stereo_parameters_calcMatrices s) as (P1 & _). rewrite P1, St.
  pose proof (calcMatrices_eye_clip s) as (E & _).
  cbn [base CameraStereo_calc CameraPersp_calc] in *. rewrite <- E.
  unfold stereo_camera. rewrite stereo_persp_calcMatrices_persp.
  rewrite !Rmult_0_r, !Rplus_0_r. reflexivity.
Qed.

Lemma stereo_disabled_far (s : CameraStereo) :
  mIsStereo s = false ->
  fst (CameraStereo_getFarClipCoordinates s)
  = fst (getFarClipCoordinates (stereo_persp s)).
Proof.
  intros St.
  cbv delta [CameraStereo_getFarClipCoordinates getFarClipCoordinates];
    cbv beta zeta. cbn [fst].
  rewrite getEyePointShifted_calcMatrices.
  unfold getEyePointShifted at 1 2 3 4. rewrite St. cbn [negb].
  destruct (stereo_parameters_calcMatrices s) as (P1 & _). rewrite P1, St.
  pose proof (calcMatrices_eye_clip s) as (E & _).
  cbn [base CameraStereo_calc CameraPersp_calc] in *. rewrite <- E.
  unfold stereo_camera. rewrite stereo_persp_calcMatrices_persp.
  rewrite !Rmult_0_r, !Rplus_0_r. reflexivity.
Qed.

(** X20.  With stereo disabled, a stereo camera answers as the perspective
    camera it extends: [getViewMatrix] and [getProjectionMatrix] return the
    matrices that the same calls return on its [CameraPersp] part,
    [getEyePointShifted] returns the eye point, and the overridden
    [getNearClipCoordinates] and [getFarClipCoordinates] return the corners
    of the base class functions. *)
Theorem stereo_disabled_is_perspective `{MatrixLib} (s : CameraStereo) :
  mIsStereo s = false ->
  fst (getViewMatrix s) = fst (getViewMatrix (stereo_persp s))
  /\ fst (getProjectionMatrix s) = fst (getProjectionMatrix (stereo_persp s))
  /\ getEyePointShifted s = mEyePoint (stereo_camera s)
  /\ fst (CameraStereo_getNearClipCoordinates s)
     = fst (getNearClipCoordinates (stereo_persp s))
  /\ fst (CameraStereo_getFarClipCoordinates s)
     = fst (getFarClipCoordinates (stereo_persp s)).
Proof.
  intros St.
  split; [ apply stereo_disabled_view, St | ].
  split; [ apply stereo_disabled_projection, St | ].
  split; [ unfold getEyePointShifted; rewrite St; reflexivity | ].
  split; [ apply stereo_disabled_near, St | apply stereo_disabled_far, St ].
Qed.

Lemma stereo_disabled_is_perspective_witness :
  fst (@getViewMatrix CameraStereo CameraStereo_calc (@CameraStereo_virtual example_lib)
         (set_mIsStereo false example_stereo))
  = fst (@getViewMatrix CameraPersp CameraPersp_calc (@CameraPersp_virtual example_lib)
           (stereo_persp (set_mIsStereo false example_stereo))).
Proof.
  apply (@stereo_disabled_is_perspective example_lib (set_mIsStereo false example_stereo)).
  reflexivity.
Defined.

(** X21.  The stereo overrides keep the relation between the two clip
    planes: for a stereo camera whose near clip distance is not zero, each
    far corner of [CameraStereo::getFarClipCoordinates] is the matching
    near corner of [CameraStereo::getNearClipCoordinates] with its offset
    from the shifted eye point ([getEyePointShifted]) multiplied by
    [farClip / nearClip], for either eye and with stereo on or off. *)
Theorem stereo_far_corners_scale_near (s : CameraStereo) :
  mNearClip (stereo_camera s) <> 0 ->
  corners_scaled_from (getEyePointShifted s)
    (mFarClip (stereo_camera s) / mNearClip (stereo_camera s))
    (fst (CameraStereo_getNearClipCoordinates s))
    (fst (CameraStereo_getFarClipCoordinates s)).
Proof.
  intros N.
  cbv delta [CameraStereo_getNearClipCoordinates CameraStereo_getFarClipCoordinates];
    cbv beta zeta. cbn [fst].
  rewrite getEyePointShifted_calcMatrices.
  destruct (calcMatrices_eye_clip s) as (_ & Nr & Fr).
  cbn [base CameraStereo_calc] in Nr, Fr. rewrite Nr, Fr.
  unfold corners_scaled_from. cbn [topLeft topRight bottomLeft bottomRight].
  repeat split; apply scaled_corner; exact N.
Qed.

Lemma stereo_far_corners_scale_near_witness :
  corners_scaled_from (getEyePointShifted example_stereo)
    (mFarClip (stereo_camera example_stereo) / mNearClip (stereo_camera example_stereo))
    (fst (CameraStereo_getNearClipCoordinates example_stereo))
    (fst (CameraStereo_getFarClipCoordinates example_stereo)).
Proof.
  apply (stereo_far_corners_scale_near example_stereo). cbn. lra.
Defined.

(** ** Constructors *)

Lemma normalize_down (d : R) : 0 < d -> glm.normalize (Vec3 0 0 (- d)) = Vec3 0 0 (-1).
Proof.
  intros D. unfold glm.normalize, glm.dot, vmuls. cbn [vx vy vz].
  replace (0 * 0 + 0 * 0 + - d * - d) with (Rsqr d) by (unfold Rsqr; ring).
  rewrite sqrt_Rsqr by lra. f_equal; field; lra.
Qed.

(** X22.  The pixel constructors of [CameraPersp] aim the camera straight
    down the negative z axis at the centre of the pixel rectangle.  For a
    positive pixel height and a field of view whose half angle has a
    positive tangent, [CameraPersp( w, h, fov )] stores the eye point
    [(w/2, h/2, dist)] with [dist = (h/2) / tan( 3.14159 * fov / 360 )],
    the view direction [(0, 0, -1)], the clip distances [dist / 10] and
    [dist * 10], the aspect ratio [w / h] and the field of view, and marks
    both caches stale; walking [dist] along the view direction from the eye
    ends at [(w/2, h/2, 0)].  The five argument constructor stores the same
    pose with the clip distances it is given. *)
Theorem pixel_constructors_look_down_z `{MatrixLib} (init : CameraPersp)
  (w h : Z) (fov near far : R) :
  (0 < h)%Z -> 0 < tan (3.14159 * fov / 360) ->
  let dist := IZR h / 2 / tan (3.14159 * fov / 360) in
  let c := persp_camera (CameraPersp_of_pixels init w h fov) in
  let c' := persp_camera (CameraPersp_of_pixels_clip init w h fov near far) in
  (mEyePoint c = Vec3 (IZR w / 2) (IZR h / 2) dist
   /\ mViewDirection c = Vec3 0 0 (-1)
   /\ mEyePoint c +^ (dist *^ mViewDirection c) = Vec3 (IZR w / 2) (IZR h / 2) 0
   /\ mNearClip c = dist / 10 /\ mFarClip c = dist * 10
   /\ mAspectRatio c = IZR w / IZR h /\ mFov c = fov
   /\ mModelViewCached c = false /\ mProjectionCached c = false)
  /\ (mEyePoint c' = mEyePoint c /\ mViewDirection c' = mViewDirection c
      /\ mNearClip c' = near /\ mFarClip c' = far
      /\ mAspectRatio c' = IZR w / IZR h /\ mFov c' = fov
      /\ mModelViewCached c' = false /\ mProjectionCached c' = false).
Proof.
  intros Hh Ht dist c c'.
  assert (Hd : 0 < dist).
  { subst dist. apply IZR_lt in Hh. apply Rdiv_lt_0_compat; lra. }
  assert (V : glm.normalize
                (Vec3 (IZR w / 2) (IZR h / 2) 0 -^ Vec3 (IZR w / 2) (IZR h / 2) dist)
              = Vec3 0 0 (-1)).
  { rewrite <- (normalize_down dist Hd). f_equal.
    unfold vsub. cbn [vx vy vz]. f_equal; ring. }
  assert (Ec : mEyePoint c = Vec3 (IZR w / 2) (IZR h / 2) dist)
    by (subst c; destruct init; reflexivity).
  assert (Vc : mViewDirection c = Vec3 0 0 (-1))
    by (rewrite <- V; subst c; destruct init; reflexivity).
  assert (Ec' : mEyePoint c' = Vec3 (IZR w / 2) (IZR h / 2) dist)
    by (subst c'; destruct init; reflexivity).
  assert (Vc' : mViewDirection c' = Vec3 0 0 (-1))
    by (rewrite <- V; subst c'; destruct init; reflexivity).
  split.
  - split; [ exact Ec | split; [ exact Vc | split ] ].
    + rewrite Ec, Vc. unfold vadd, vscale. cbn [vx vy vz]. f_equal; ring.
    + subst c; destruct init; repeat split.
  - split; [ congruence | split; [ congruence | ] ].
    subst c'; destruct init; repeat split.
Qed.

Lemma pixel_constructors_look_down_z_witness :
  mViewDirection (persp_camera (@CameraPersp_of_pixels example_lib example_persp 640 480 90))
  = Vec3 0 0 (-1).
Proof.
  refine (proj1 (proj2 (proj1
    (@pixel_constructors_look_down_z example_lib example_persp 640 480 90 1 2 _ _)))).
  - reflexivity.
  - apply tan_gt_0; [ lra | ]. pose proof PI2_1. lra.
Defined.

(** The view state is out of reach of the queries while both view flags
    are set. *)
Section OrthoFromExtents.
Context `{MatrixLib}.

Lemma view_frozen_calcProjection st (o : CameraOrtho) :
  view_frozen st o -> view_frozen st (CameraOrtho_calcProjection o).
Proof.
  intros F. rewrite CameraOrtho_calcProjection_closed.
  generalize (ortho_inverse_of (ortho_camera o)) (ortho_matrix_of (ortho_camera o)).
  intros m m'. break_ortho o. exact F.
Qed.

Lemma view_frozen_calcMatrices st (o : CameraOrtho) :
  view_frozen st o -> view_frozen st (calcMatrices o).
Proof.
  intros F. cbv delta [calcMatrices]; cbv beta zeta. open_class.
  destruct F as (FV & FI & S). rewrite FV. cbn [negb].
  destruct (negb (mProjectionCached (ortho_camera o))).
  - apply view_frozen_calcProjection. repeat split; assumption.
  - repeat split; assumption.
Qed.

Lemma view_frozen_getProjectionMatrix st (o : CameraOrtho) :
  view_frozen st o -> view_frozen st (snd (getProjectionMatrix o)).
Proof.
  intros F. open_class. cbv delta [Camera_getProjectionMatrix]; cbv beta zeta.
  open_class. cbn [snd].
  destruct (negb (mProjectionCached (ortho_camera o))).
  - apply view_frozen_calcProjection, F.
  - exact F.
Qed.

Lemma view_frozen_getViewMatrix st (o : CameraOrtho) :
  view_frozen st o -> view_frozen st (snd (getViewMatrix o)).
Proof.
  intros F. open_class. cbv delta [Camera_getViewMatrix]; cbv beta zeta.
  open_class. cbn [snd].
  destruct F as (FV & FI & S). rewrite FV. cbn [negb]. repeat split; assumption.
Qed.

Lemma view_frozen_getInverseViewMatrix st (o : CameraOrtho) :
  view_frozen st o -> view_frozen st (snd (getInverseViewMatrix o)).
Proof.
  intros F. open_class. cbv delta [Camera_getInverseViewMatrix]; cbv beta zeta.
  open_class. cbn [snd].
  destruct F as (FV & FI & S). rewrite FI. cbn [negb]. repeat split; assumption.
Qed.

Lemma view_frozen_run_queries st (qs : list Query) (o : CameraOrtho) :
  view_frozen st o -> view_frozen st (run_queries qs o).
Proof.
  apply run_queries_invariant;
    auto using view_frozen_calcMatrices, view_frozen_getProjectionMatrix,
               view_frozen_getViewMatrix, view_frozen_getInverseViewMatrix.
Qed.

End OrthoFromExtents.

(** X23.  [CameraOrtho( left, right, bottom, top, near, far )] marks the
    view matrix and its inverse as cached without computing them.  Whatever
    object the base constructor leaves, and whatever sequence of queries
    follows the constructor, the view matrix, the inverse view matrix and
    the basis [mU], [mV], [mW] are still the ones the base constructor
    left, [getViewMatrix] and [getInverseViewMatrix] return those matrices,
    and [Camera::calcViewMatrix] has not run: the view matrix is not
    derived from the pose until a pose mutator clears the flag. *)
Theorem ortho_constructor_view_not_computed `{MatrixLib}
  (init : CameraOrtho) (L R' B T near far : R) (qs : list Query) :
  let o := run_queries qs (CameraOrtho_of_extents init L R' B T near far) in
  view_state (ortho_camera o) = view_state (ortho_camera init)
  /\ fst (getViewMatrix o) = mViewMatrix (ortho_camera init)
  /\ fst (getInverseViewMatrix o) = mInverseModelViewMatrix (ortho_camera init)
  /\ mModelViewCached (ortho_camera o) = true
  /\ mInverseModelViewCached (ortho_camera o) = true.
Proof.
  intros o.
  assert (F : view_frozen (view_state (ortho_camera init)) o).
  { subst o. apply view_frozen_run_queries.
    break_ortho init. repeat split. }
  revert F. generalize o. clear o. intros o (FV & FI & S).
  pose proof S as S0.
  unfold view_state in S. injection S as S1 S2 _ _ _.
  split; [ exact S0 | ].
  split; [ | split; [ | split; assumption ] ].
  - open_class. cbv delta [Camera_getViewMatrix]; cbv beta zeta. open_class.
    rewrite FV. cbn [negb fst]. exact S1.
  - open_class. cbv delta [Camera_getInverseViewMatrix]; cbv beta zeta. open_class.
    rewrite FI. cbn [negb fst]. exact S2.
Qed.

(** ** The clip corners of an orthographic camera *)

Lemma ortho_matrix_point (L R' B T n f a b d : R) :
  glm.mul_m4_v4 (ortho_matrix L R' B T n f) (Vec4 a b (- d) 1)
  = Vec4 (2 / (R' - L) * a - (R' + L) / (R' - L))
         (2 / (T - B) * b - (T + B) / (T - B))
         (2 / (f - n) * d - (f + n) / (f - n))
         1.
Proof.
  unfold ortho_matrix, glm.mul_m4_v4, mget.
  cbn [mcol vget col0 col1 col2 col3 x4 y4 z4 w4].
  f_equal; unfold Rdiv; ring.
Qed.

Lemma ortho_worldToNdc_cached `{MatrixLib} (w : vec3) (o : CameraOrtho) :
  mModelViewCached (ortho_camera o) = true ->
  mProjectionCached (ortho_camera o) = true ->
  fst (worldToNdc w o)
  = Vec3
      (x4 (glm.mul_m4_v4 (mProjectionMatrix (ortho_camera o))
             (glm.mul_m4_v4 (mViewMatrix (ortho_camera o)) (vec4_of w 1)))
       / w4 (glm.mul_m4_v4 (mProjectionMatrix (ortho_camera o))
               (glm.mul_m4_v4 (mViewMatrix (ortho_camera o)) (vec4_of w 1))))
      (y4 (glm.mul_m4_v4 (mProjectionMatrix (ortho_camera o))
             (glm.mul_m4_v4 (mViewMatrix (ortho_camera o)) (vec4_of w 1)))
       / w4 (glm.mul_m4_v4 (mProjectionMatrix (ortho_camera o))
               (glm.mul_m4_v4 (mViewMatrix (ortho_camera o)) (vec4_of w 1))))
      (z4 (glm.mul_m4_v4 (mProjectionMatrix (ortho_camera o))
             (glm.mul_m4_v4 (mViewMatrix (ortho_camera o)) (vec4_of w 1)))
       / w4 (glm.mul_m4_v4 (mProjectionMatrix (ortho_camera o))
               (glm.mul_m4_v4 (mViewMatrix (ortho_camera o)) (vec4_of w 1)))).
Proof.
  intros FV FP.
  cbv delta [worldToNdc]; cbv beta. open_class.
  cbv delta [Camera_getViewMatrix Camera_getProjectionMatrix]; cbv beta zeta.
  open_class. rewrite FV. cbn [negb]. rewrite FP. cbn [negb fst]. reflexivity.
Qed.

(** [calcMatrices] on an orthographic camera with both caches stale, field
    by field. *)
Lemma ortho_calcMatrices_stale (o : CameraOrtho) :
  mModelViewCached (ortho_camera o) = false ->
  mProjectionCached (ortho_camera o) = false ->
  let c := ortho_camera o in
  let c' := ortho_camera (calcMatrices o) in
  mModelViewCached c' = true /\ mProjectionCached c' = true
  /\ mEyePoint c' = mEyePoint c
  /\ mViewDirection c' = mViewDirection c
  /\ mU c' = basis_U c /\ mV c' = basis_V c
  /\ stored_extents c' = stored_extents c
  /\ mViewMatrix c' = view_matrix_of c
  /\ mProjectionMatrix c' = ortho_matrix_of c.
Proof.
  intros FV FP c c'. subst c c'.
  cbv delta [calcMatrices]; cbv beta zeta. open_class.
  rewrite FV. cbn [negb].
  replace (mProjectionCached
             (ortho_camera (set_ortho_camera (Camera_calcViewMatrix (ortho_camera o)) o)))
    with false.
  cbn [negb].
  rewrite CameraOrtho_calcProjection_closed.
  cbn [ortho_camera set_ortho_camera].
  rewrite Camera_calcViewMatrix_closed.
  unfold view_matrix_of, ortho_matrix_of, stored_extents.
  generalize (basis_U (ortho_camera o)) (basis_V (ortho_camera o))
             (basis_W (ortho_camera o)).
  intros U V W.
  generalize (ortho_inverse_of
                (set_mInverseModelViewCached false
                   (set_mModelViewCached true
                      (set_mViewMatrix
                         (view_matrix U V W
                            (eye_translation (mEyePoint (ortho_camera o)) U V W))
                         (set_mV V (set_mU U (set_mW W (ortho_camera o)))))))).
  intros m. break_ortho o. fields. repeat split.
Qed.

(** X24.  On an orthographic camera the near corners of
    [getNearClipCoordinates] are corners of the viewing box, the far
    corners of [getFarClipCoordinates] are not.  After [setOrientation]
    and [setOrtho( L, R, B, T, near, far )] with a box that has a width,
    a height and a depth and [near] not zero, [worldToNdc] maps the near
    corners to [(-1,1,-1)], [(1,1,-1)], [(-1,-1,-1)], [(1,-1,-1)].  The far
    corners, which the base class scales by [far / near] as for a
    perspective frustum, land on the far face (third component 1) at
    [x = -1 + 2 (far/near - 1) L / (R - L)] (left) or
    [1 + 2 (far/near - 1) R / (R - L)] (right), and likewise in [y]: off
    the corners of the cube unless these offsets vanish. *)
Theorem ortho_clip_corners_in_ndc `{MatrixLib}
  (o : CameraOrtho) (q : quat) (L R' B T near far : R) :
  R' <> L -> T <> B -> far <> near -> near <> 0 ->
  (let nc := getNearClipCoordinates
               (setOrtho L R' B T near far (inherited (setOrientation q) o)) in
   fst (worldToNdc (topLeft (fst nc)) (snd nc)) = Vec3 (-1) 1 (-1)
   /\ fst (worldToNdc (topRight (fst nc)) (snd nc)) = Vec3 1 1 (-1)
   /\ fst (worldToNdc (bottomLeft (fst nc)) (snd nc)) = Vec3 (-1) (-1) (-1)
   /\ fst (worldToNdc (bottomRight (fst nc)) (snd nc)) = Vec3 1 (-1) (-1))
  /\ (let fc := getFarClipCoordinates
                  (setOrtho L R' B T near far (inherited (setOrientation q) o)) in
      fst (worldToNdc (topLeft (fst fc)) (snd fc))
      = Vec3 (-1 + 2 * (far / near - 1) * L / (R' - L))
             (1 + 2 * (far / near - 1) * T / (T - B)) 1
      /\ fst (worldToNdc (topRight (fst fc)) (snd fc))
         = Vec3 (1 + 2 * (far / near - 1) * R' / (R' - L))
                (1 + 2 * (far / near - 1) * T / (T - B)) 1
      /\ fst (worldToNdc (bottomLeft (fst fc)) (snd fc))
         = Vec3 (-1 + 2 * (far / near - 1) * L / (R' - L))
                (-1 + 2 * (far / near - 1) * B / (T - B)) 1
      /\ fst (worldToNdc (bottomRight (fst fc)) (snd fc))
         = Vec3 (1 + 2 * (far / near - 1) * R' / (R' - L))
                (-1 + 2 * (far / near - 1) * B / (T - B)) 1).
Proof.
  intros HRL HTB Hfn Hn.
  assert (HRL' : R' - L <> 0) by lra.
  assert (HTB' : T - B <> 0) by lra.
  assert (Hfn' : far - near <> 0) by lra.
  assert (FV : mModelViewCached
                 (ortho_camera (setOrtho L R' B T near far (inherited (setOrientation q) o)))
               = false) by (destruct o; reflexivity).
  assert (FP : mProjectionCached
                 (ortho_camera (setOrtho L R' B T near far (inherited (setOrientation q) o)))
               = false) by (destruct o; reflexivity).
  pose proof (ortho_calcMatrices_stale _ FV FP) as K.
  cbv zeta in K. clear FV FP.
  assert (A : mOrientation
                (ortho_camera (setOrtho L R' B T near far (inherited (setOrientation q) o)))
              = glm.qnormalize q
              /\ mViewDirection
                   (ortho_camera
                      (setOrtho L R' B T near far (inherited (setOrientation q) o)))
                 = glm.rotate (glm.qnormalize q) (Vec3 0 0 (-1))
              /\ stored_extents
                   (ortho_camera
                      (setOrtho L R' B T near far (inherited (setOrientation q) o)))
                 = (L, R', B, T, near, far))
    by (destruct o; repeat split).
  cbv delta [getNearClipCoordinates getFarClipCoordinates]; cbv beta zeta.
  cbn [fst snd topLeft topRight bottomLeft bottomRight].
  cbn [base CameraOrtho_calc] in *.
  revert K.
  generalize (calcMatrices (setOrtho L R' B T near far (inherited (setOrientation q) o))).
  intros o2 K. revert A K.
  generalize (ortho_camera (setOrtho L R' B T near far (inherited (setOrientation q) o))).
  intros c1 (AO & AD & AE) (CV & CP & E & Ed & SU & SV & SE & Vm & Pm).
  rewrite !(ortho_worldToNdc_cached _ o2 CV CP).
  unfold view_matrix_of, basis_U, basis_V, basis_W in *. unfold ortho_matrix_of in Pm.
  rewrite AE in SE. unfold stored_extents in SE, AE.
  injection SE as SL SR SB ST SN SF. injection AE as AL AR AB AT AN AF.
  rewrite AO, AD in *. rewrite AL, AR, AB, AT, AN, AF in Pm.
  destruct (unit_quat_basis _ (qnormalize_unit q)) as (UU & VV & DD & UV & UD & VD & _).
  rewrite (normalize_of_unit _ DD) in Vm.
  revert UU VV DD UV UD VD Vm SU SV Ed.
  generalize (glm.rotate (glm.qnormalize q) (Vec3 1 0 0))
             (glm.rotate (glm.qnormalize q) (Vec3 0 1 0))
             (glm.rotate (glm.qnormalize q) (Vec3 0 0 (-1))).
  intros U V n UU VV DD UV UD VD Vm SU SV Ed.
  revert E Ed SU SV SL SR SB ST SN SF Pm Vm.
  generalize (ortho_camera o2) (mEyePoint c1).
  intros c' e E Ed SU SV SL SR SB ST SN SF Pm Vm.
  rewrite E, Ed, SU, SV, SL, SR, SB, ST, SN, SF, Pm, Vm.
  rewrite (normalize_of_unit _ DD).
  rewrite !eye_coords_of_frame by assumption.
  rewrite !ortho_matrix_point. cbn [x4 y4 z4 w4].
  repeat split; f_equal; field; repeat split; assumption.
Qed.

Lemma ortho_clip_corners_in_ndc_witness :
  fst (@worldToNdc CameraOrtho CameraOrtho_calc (@CameraOrtho_virtual example_lib)
         (topLeft (fst (getFarClipCoordinates
                          (setOrtho (-1) 1 (-1) 1 1 2
                             (inherited (setOrientation (Quat 1 0 0 0)) example_ortho)))))
         (snd (getFarClipCoordinates
                 (setOrtho (-1) 1 (-1) 1 1 2
                    (inherited (setOrientation (Quat 1 0 0 0)) example_ortho)))))
  = Vec3 (-1 + 2 * (2 / 1 - 1) * (-1) / (1 - -1)) (1 + 2 * (2 / 1 - 1) * 1 / (1 - -1)) 1.
Proof.
  refine (proj1 (proj2
    (@ortho_clip_corners_in_ndc example_lib example_ortho (Quat 1 0 0 0)
       (-1) 1 (-1) 1 1 2 _ _ _ _))); lra.
Defined.

(** ** The near rectangle of a stereo eye under that eye's matrices *)

Lemma stereo_worldToNdc_cached `{MatrixLib} (w : vec3) (s : CameraStereo) :
  mModelViewCached (stereo_camera s) = true ->
  mProjectionCached (stereo_camera s) = true ->
  fst (worldToNdc w s)
  = perspective_divide
      (glm.mul_m4_v4 (selected_projection s)
         (glm.mul_m4_v4 (selected_view s) (vec4_of w 1))).
Proof.
  intros FV FP.
  cbv delta [worldToNdc]; cbv beta. open_class.
  cbv delta [CameraStereo_getViewMatrix CameraStereo_getProjectionMatrix];
    cbv beta zeta.
  rewrite FV. cbn [negb].
  unfold selected_view, selected_projection, perspective_divide.
  destruct (mIsStereo s) eqn:E1, (mIsLeft s) eqn:E2; cbn [negb];
    rewrite FP; cbn [negb]; rewrite ?E1, ?E2; cbn [negb fst]; reflexivity.
Qed.

(** [calcMatrices] on a stereo camera with both caches stale: the state
    that the clip corner queries and the selector accessors read. *)
Lemma stereo_calcMatrices_stale (s : CameraStereo) :
  mModelViewCached (stereo_camera s) = false ->
  mProjectionCached (stereo_camera s) = false ->
  calcMatrices s = CameraStereo_calcProjection (CameraStereo_calcViewMatrix s).
Proof.
  intros FV FP. cbv delta [calcMatrices]; cbv beta zeta. open_class.
  rewrite FV. cbn [negb].
  rewrite CameraStereo_calcViewMatrix_base.
  replace (mProjectionCached
             (set_mInverseModelViewCached false
                (set_mModelViewCached true (Camera_calcViewMatrix (stereo_camera s)))))
    with false
    by (rewrite <- FP, Camera_calcViewMatrix_closed; generalize (stereo_camera s);
        intros c; break_camera c; reflexivity).
  reflexivity.
Qed.

Lemma persp_calcMatrices_stale (p : CameraPersp) :
  mModelViewCached (persp_camera p) = false ->
  mProjectionCached (persp_camera p) = false ->
  calcMatrices p = CameraPersp_calcProjection (on_persp Camera_calcViewMatrix p).
Proof.
  intros FV FP. cbv delta [calcMatrices]; cbv beta zeta. open_class.
  rewrite FV. cbn [negb]. unfold on_persp.
  replace (mProjectionCached
             (persp_camera (set_persp_camera (Camera_calcViewMatrix (persp_camera p)) p)))
    with false
    by (rewrite <- FP, Camera_calcViewMatrix_closed; destruct p as [c l];
        break_camera c; reflexivity).
  reflexivity.
Qed.

(** The matrices of the two eyes after [calcMatrices] on a stereo camera with
    both caches stale, in terms of the perspective part [q] after its own
    [calcMatrices]. *)
Lemma stereo_stale_eye_matrices (s : CameraStereo) :
  mModelViewCached (stereo_camera s) = false ->
  mProjectionCached (stereo_camera s) = false ->
  let c := stereo_camera s in
  let q := persp_camera (calcMatrices (stereo_persp s)) in
  mViewMatrixLeft (calcMatrices s)
  = view_matrix (basis_U c) (basis_V c) (basis_W c)
      (eye_translation (mEyePoint c -^ (basis_U c ^* (0.5 * mEyeSeparation s)))
         (basis_U c) (basis_V c) (basis_W c))
  /\ mViewMatrixRight (calcMatrices s)
     = view_matrix (basis_U c) (basis_V c) (basis_W c)
         (eye_translation (mEyePoint c +^ (basis_U c ^* (0.5 * mEyeSeparation s)))
            (basis_U c) (basis_V c) (basis_W c))
  /\ mProjectionMatrixLeft (calcMatrices s) = mProjectionMatrix q
  /\ mProjectionMatrixRight (calcMatrices s)
     = stereo_skewed (mProjectionMatrix q) q
         (- (mEyeSeparation s * (mNearClip q / mConvergence s))).
Proof.
  intros FV FP c q. subst c q.
  rewrite (stereo_calcMatrices_stale s FV FP).
  rewrite (persp_calcMatrices_stale (stereo_persp s) FV FP).
  pose proof (stereo_view_entries vsub (stereo_camera s) (mEyeSeparation s)) as EL.
  pose proof (stereo_view_entries vadd (stereo_camera s) (mEyeSeparation s)) as ER.
  cbv zeta in EL, ER. rewrite <- EL, <- ER. clear EL ER.
  assert (P : stereo_persp (CameraStereo_calcViewMatrix s)
              = on_persp Camera_calcViewMatrix (stereo_persp s)).
  { rewrite stereo_persp_calcViewMatrix. unfold on_persp.
    rewrite calcViewMatrix_flags_again. reflexivity. }
  rewrite (CameraStereo_calcProjection_closed (CameraStereo_calcViewMatrix s)
             (CameraPersp_calcProjection (on_persp Camera_calcViewMatrix (stereo_persp s))))
    by (rewrite P; reflexivity).
  clear P.
  generalize (CameraPersp_calcProjection (on_persp Camera_calcViewMatrix (stereo_persp s))).
  intros q.
  rewrite (CameraStereo_calcViewMatrix_closed s _ eq_refl).
  generalize (Camera_calcViewMatrix (stereo_camera s)). intros z.
  generalize (stereo_view vsub z (mEyeSeparation s))
             (stereo_view vadd z (mEyeSeparation s)).
  intros vl vr.
  destruct s as [p ? ? ? ? ? ? ? ? ? ? ? ?]; destruct p as [c0 l0].
  destruct q as [cq lq]. break_camera cq. break_camera z.
  cbv delta [stereo_skewed stereo_camera set_stereo_camera]; cbv beta. fields.
  repeat split.
Qed.

Lemma skewed_frustum_point (L R' B T n f a b d k : R) (c : Camera) :
  mFrustumLeft c = L -> mFrustumRight c = R' -> mNearClip c = n ->
  glm.mul_m4_v4 (stereo_skewed (frustum_matrix L R' B T n f) c k) (Vec4 a b (- d) 1)
  = Vec4 (2 * n / (R' - L) * a - (R' + L + k) / (R' - L) * d + (R' + L + k) / (2 * n))
         (2 * n / (T - B) * b - (T + B) / (T - B) * d)
         ((f + n) / (f - n) * d - 2 * f * n / (f - n))
         d.
Proof.
  intros E1 E2 E3. unfold stereo_skewed. rewrite E1, E2, E3.
  unfold frustum_matrix, glm.mul_m4_v4, mget, mset.
  cbn [mcol vget vset col0 col1 col2 col3 x4 y4 z4 w4].
  f_equal; unfold Rdiv; ring.
Qed.

(** X25.  Neither eye's projection matrix maps that eye's near rectangle to
    the square of normalized device coordinates.  Take a stereo camera with
    stereo enabled, both caches stale, a consistent pose and a frustum that
    is not degenerate, and let [k = eyeSeparation * (near / convergence)].
    [worldToNdc], which goes through the selector accessors, maps the top
    left corner of [CameraStereo::getNearClipCoordinates] to
    [(-1 + k / (R - L), 1, -1)] for the left eye, whose projection matrix
    is the cyclopean one, and to
    [(-1 + (R + L - k) / (2 near^2), 1, -1)] for the right eye, whose
    projection matrix has entry [3][0] set to [(R + L - k) / (2 near)]. *)
Theorem stereo_near_corner_off_ndc `{MatrixLib} (s : CameraStereo) :
  mIsStereo s = true ->
  mModelViewCached (stereo_camera s) = false ->
  mProjectionCached (stereo_camera s) = false ->
  glm.qdot (mOrientation (stereo_camera s)) (mOrientation (stereo_camera s)) = 1 ->
  mViewDirection (stereo_camera s)
  = glm.rotate (mOrientation (stereo_camera s)) (Vec3 0 0 (-1)) ->
  mNearClip (stereo_camera s) <> 0 ->
  mFarClip (stereo_camera s) <> mNearClip (stereo_camera s) ->
  tan (toRadians (mFov (stereo_camera s)) / 2) <> 0 ->
  mAspectRatio (stereo_camera s) <> 0 ->
  mConvergence s <> 0 ->
  let nc := CameraStereo_getNearClipCoordinates s in
  let c1 := stereo_camera (snd nc) in
  let k := mEyeSeparation s * (mNearClip c1 / mConvergence s) in
  fst (worldToNdc (topLeft (fst nc)) (snd nc))
  = if mIsLeft s
    then Vec3 (-1 + k / (mFrustumRight c1 - mFrustumLeft c1)) 1 (-1)
    else Vec3 (-1 + (mFrustumRight c1 + mFrustumLeft c1 - k)
                    / (2 * mNearClip c1 * mNearClip c1)) 1 (-1).
Proof.
  intros St FV FP Q D Hn Hfn Ht Ha _ nc c1 k. subst nc c1 k.
  assert (I : coherent (stereo_persp s)).
  { split; intros F; unfold stereo_camera in *; congruence. }
  pose proof (calcMatrices_settled (stereo_persp s) I) as K. cbv zeta in K.
  destruct (calcMatrices_flags s) as [CV CP].
  destruct (stereo_parameters_calcMatrices s) as (P1 & P2 & P3 & P4).
  pose proof (stereo_stale_eye_matrices s FV FP) as M. cbv zeta in M.
  pose proof (getEyePointShifted_calcMatrices s) as G.
  pose proof (pose_and_lens_calcMatrices (stereo_persp s)) as PL.
  unfold pose_and_lens in PL. injection PL as _ _ _ _ _ Kn Kf _.
  cbv delta [CameraStereo_getNearClipCoordinates]; cbv beta zeta. cbn [fst snd topLeft].
  cbn [base CameraStereo_calc] in CV, CP.
  assert (SP : stereo_camera (calcMatrices s)
               = persp_camera (calcMatrices (stereo_persp s)))
    by (unfold stereo_camera; rewrite stereo_persp_calcMatrices_persp; reflexivity).
  rewrite G.
  assert (GS : getEyePointShifted s
               = if mIsLeft s
                 then mEyePoint (stereo_camera s)
                      -^ (basis_U (stereo_camera s) ^* (0.5 * mEyeSeparation s))
                 else mEyePoint (stereo_camera s)
                      +^ (basis_U (stereo_camera s) ^* (0.5 * mEyeSeparation s)))
    by (unfold getEyePointShifted; rewrite St; reflexivity).
  rewrite GS. clear G GS.
  revert CV CP SP M P1 P2 P3 P4. generalize (calcMatrices s).
  intros s1 CV CP SP M P1 P2 P3 P4.
  rewrite P1, P2, St, P3, P4.
  rewrite (stereo_worldToNdc_cached _ s1 CV CP).
  unfold selected_view, selected_projection. rewrite P1, P2, St. cbn [negb].
  destruct M as (ML & MR & PL & PR). rewrite SP in *.
  destruct K as (E & Ed & _ & SU & SV & _ & SE & Pm & _).
  unfold stored_extents in SE. unfold lens_extents in SE, Pm.
  cbn [frustum_matrix_of_extents] in Pm.
  injection SE as SL SR SB ST SN SF.
  (* the lens *)
  unfold stereo_camera in *.
  assert (Htop : mNearClip (persp_camera (stereo_persp s))
                 * tan (toRadians (mFov (persp_camera (stereo_persp s))) / 2) <> 0)
    by (apply Rmult_integral_contrapositive; split; assumption).
  assert (Hta : mNearClip (persp_camera (stereo_persp s))
                * tan (toRadians (mFov (persp_camera (stereo_persp s))) / 2)
                * mAspectRatio (persp_camera (stereo_persp s)) <> 0)
    by (apply Rmult_integral_contrapositive; split; assumption).
  revert SL SR SB ST Pm Htop Hta.
  generalize (mNearClip (persp_camera (stereo_persp s))
              * tan (toRadians (mFov (persp_camera (stereo_persp s))) / 2)).
  intros top SL SR SB ST Pm Htop Hta.
  assert (W : top * mAspectRatio (persp_camera (stereo_persp s))
                  * (1 + x2 (mLensShift (stereo_persp s)))
              - - (top * mAspectRatio (persp_camera (stereo_persp s)))
                  * (1 - x2 (mLensShift (stereo_persp s))) <> 0).
  { replace (top * mAspectRatio (persp_camera (stereo_persp s))
                 * (1 + x2 (mLensShift (stereo_persp s)))
             - - (top * mAspectRatio (persp_camera (stereo_persp s)))
                 * (1 - x2 (mLensShift (stereo_persp s))))
      with (2 * (top * mAspectRatio (persp_camera (stereo_persp s)))) by ring. lra. }
  assert (Hh : top * (1 + y2 (mLensShift (stereo_persp s)))
               - - top * (1 - y2 (mLensShift (stereo_persp s))) <> 0).
  { replace (top * (1 + y2 (mLensShift (stereo_persp s)))
             - - top * (1 - y2 (mLensShift (stereo_persp s))))
      with (2 * top) by ring. lra. }
  revert SL SR SB ST Pm W Hh.
  generalize (- (top * mAspectRatio (persp_camera (stereo_persp s)))
              * (1 - x2 (mLensShift (stereo_persp s))))
             (top * mAspectRatio (persp_camera (stereo_persp s))
              * (1 + x2 (mLensShift (stereo_persp s))))
             (- top * (1 - y2 (mLensShift (stereo_persp s))))
             (top * (1 + y2 (mLensShift (stereo_persp s)))).
  intros L R' B T SL SR SB ST Pm W Hh.
  (* the basis *)
  destruct (unit_quat_basis _ Q) as (UU & VV & DD & UV & UD & VD & _).
  rewrite <- D in DD, UD, VD.
  unfold basis_W in ML, MR. rewrite (normalize_of_unit _ DD) in ML, MR.
  unfold basis_U, basis_V in *.
  revert UU VV UV UD VD ML MR SU SV.
  generalize (glm.rotate (mOrientation (persp_camera (stereo_persp s))) (Vec3 1 0 0))
             (glm.rotate (mOrientation (persp_camera (stereo_persp s))) (Vec3 0 1 0)).
  intros U V UU VV UV UD VD ML MR SU SV.
  revert DD UD VD ML MR Ed. generalize (mViewDirection (persp_camera (stereo_persp s))).
  intros n DD UD VD ML MR Ed.
  assert (Hfn' : mFarClip (persp_camera (stereo_persp s))
                 - mNearClip (persp_camera (stereo_persp s)) <> 0) by lra.
  revert Hn Hfn' Kn Kf SN SF Pm E ML MR PL PR.
  generalize (mNearClip (persp_camera (stereo_persp s)))
             (mFarClip (persp_camera (stereo_persp s)))
             (mEyePoint (persp_camera (stereo_persp s)))
             (mEyeSeparation s) (mConvergence s).
  intros near far e sep conv Hn Hfn' Kn Kf SN SF Pm E ML MR PL PR.
  revert E Ed SU SV SL SR SB ST SN SF Kn Kf Pm PL PR.
  generalize (persp_camera (calcMatrices (stereo_persp s))).
  intros q E Ed SU SV SL SR SB ST SN SF Kn Kf Pm PL PR.
  destruct (mIsLeft s); rewrite ?ML, ?MR, ?PL, ?PR, Ed, SU, SV, ?Pm, SL, SR, ST, SN;
    rewrite (normalize_of_unit _ DD);
    rewrite eye_coords_of_frame by assumption.
  - rewrite frustum_matrix_point.
    unfold perspective_divide. cbn [x4 y4 z4 w4].
    generalize (near / conv). intros r.
    f_equal; rewrite ?half_eq; field; repeat split; assumption.
  - rewrite (skewed_frustum_point _ _ _ _ _ _ _ _ _ _ q SL SR SN).
    unfold perspective_divide. cbn [x4 y4 z4 w4].
    generalize (near / conv). intros r.
    f_equal; rewrite ?half_eq; field; repeat split; assumption.
Qed.

Lemma stereo_near_corner_off_ndc_witness :
  let nc := CameraStereo_getNearClipCoordinates example_stereo in
  let c1 := stereo_camera (snd nc) in
  let k := mEyeSeparation example_stereo
           * (mNearClip c1 / mConvergence example_stereo) in
  fst (@worldToNdc CameraStereo CameraStereo_calc (@CameraStereo_virtual example_lib)
         (topLeft (fst nc)) (snd nc))
  = if mIsLeft example_stereo
    then Vec3 (-1 + k / (mFrustumRight c1 - mFrustumLeft c1)) 1 (-1)
    else Vec3 (-1 + (mFrustumRight c1 + mFrustumLeft c1 - k)
                    / (2 * mNearClip c1 * mNearClip c1)) 1 (-1).
Proof.
  refine (@stereo_near_corner_off_ndc example_lib example_stereo _ _ _ _ _ _ _ _ _ _).
  - reflexivity.
  - reflexivity.
  - reflexivity.
  - exact (proj1 example_pose_consistent).
  - exact (proj2 example_pose_consistent).
  - cbn; lra.
  - cbn; lra.
  - change (stereo_camera example_stereo) with example_camera.
    rewrite example_half_fov. lra.
  - cbn; lra.
  - cbn; lra.
Defined.

